(** * TalkFlow streaming control plane: a shallow embedding

    The Python classes of [backend/pipeline/vad.py],
    [backend/pipeline/stabilizer.py], [backend/utils/metrics.py] and
    [backend/pipeline/orchestrator.py] are rendered as records and pure
    functions with explicit state passing: a method [m(self, x)] becomes
    [m self x] returning the updated object together with its result.

    Conventions.
    - Python [str] values are [string]s, the characters being the code
      points below 256.
    - Python [int]s are [Z] (or [nat] for lengths and counters that only
      ever grow from 0).
    - Python [float]s are idealised as exact rationals [Q]; the one
      irrational operation the code relies on, the square root inside
      [statistics.stdev], is taken in [R]. *)

From Stdlib Require Import ZArith QArith Qround Bool List Ascii String Lia.
From Stdlib Require Import Strings.Byte.
From Stdlib Require Import Reals Qreals Lra Psatz.
From Stdlib Require Import Sorting.Sorted Sorting.Permutation.
From Stdlib Require Import Floats.SpecFloat.
From stdpp Require Import base option gmap strings.
Import ListNotations.

#[local] Open Scope string_scope.
#[local] Open Scope list_scope.
#[local] Open Scope Z_scope.

(** ** Python string primitives *)

Module PyStr.

Definition len (s : string) : Z := Z.of_nat (String.length s).

(** Truthiness of a [str]: only the empty string is falsy. *)
Definition truthy (s : string) : bool :=
  match s with EmptyString => false | String _ _ => true end.

Fixpoint take (n : nat) (s : string) : string :=
  match n, s with
  | S n', String c s' => String c (take n' s')
  | _, _ => EmptyString
  end.

Fixpoint drop (n : nat) (s : string) : string :=
  match n, s with
  | S n', String _ s' => drop n' s'
  | _, _ => s
  end.

(** A slice bound as Python normalises it: a negative bound counts from
    the end, and the result is clamped to [0, len s]. *)
Definition bound (s : string) (k : Z) : nat :=
  Z.to_nat (Z.min (len s) (if k <? 0 then Z.max 0 (len s + k) else k)).

(** [s[:k]] and [s[k:]]. *)
Definition slice_to (s : string) (k : Z) : string := take (bound s k) s.
Definition slice_from (s : string) (k : Z) : string := drop (bound s k) s.

(** [s.rfind(c)] for a one-character needle: the highest index holding
    [c], or [-1]. *)
Fixpoint rfind_from (i : Z) (s : string) (c : ascii) (best : Z) : Z :=
  match s with
  | EmptyString => best
  | String d s' =>
      rfind_from (i + 1) s' c (if Ascii.eqb d c then i else best)
  end.

Definition rfind (s : string) (c : ascii) : Z := rfind_from 0 s c (-1).

(** [str.isspace] on the code points below 256. *)
Definition isspace (c : ascii) : bool :=
  let n := nat_of_ascii c in
  ((9 <=? n)%nat && (n <=? 13)%nat)
  || ((28 <=? n)%nat && (n <=? 32)%nat)
  || (n =? 133)%nat || (n =? 160)%nat.

Fixpoint lstrip (s : string) : string :=
  match s with
  | String c s' => if isspace c then lstrip s' else s
  | EmptyString => EmptyString
  end.

Fixpoint rstrip (s : string) : string :=
  match s with
  | EmptyString => EmptyString
  | String c s' =>
      match rstrip s' with
      | EmptyString => if isspace c then EmptyString else String c EmptyString
      | r => String c r
      end
  end.

(** [s.strip()] *)
Definition strip (s : string) : string := rstrip (lstrip s).

(** The last character, if any. *)
Fixpoint last (s : string) : option ascii :=
  match s with
  | EmptyString => None
  | String c EmptyString => Some c
  | String _ s' => last s'
  end.

(** The character at index [i], if in range. *)
Definition get (s : string) (i : Z) : option ascii :=
  if i <? 0 then None else String.get (Z.to_nat i) s.

(** [str.upper], one character at a time: the letters a-z and the
    Latin-1 letters U+00E0 to U+00FE (U+00F7, the division sign, is not
    one) move down by 32, and U+00DF becomes ["SS"].  The capitals of
    U+00B5 and U+00FF are U+039C and U+0178, which no text of this
    alphabet holds: for these two the character is kept. *)
Definition upper_char (c : ascii) : string :=
  let n := nat_of_ascii c in
  if ((97 <=? n)%nat && (n <=? 122)%nat)%bool
  then String (ascii_of_nat (n - 32)) EmptyString
  else if ((224 <=? n)%nat && (n <=? 254)%nat && negb (n =? 247)%nat)%bool
  then String (ascii_of_nat (n - 32)) EmptyString
  else if (n =? 223)%nat then "SS"
  else String c EmptyString.

Fixpoint upper (s : string) : string :=
  match s with
  | EmptyString => EmptyString
  | String c s' => (upper_char c ++ upper s')%string
  end.

(** Iterating a [str] yields its characters. *)
Definition chars (s : string) : list ascii := list_ascii_of_string s.

End PyStr.

(** [p] is a prefix of [s], starting at position 0. *)
Definition is_prefix (p s : string) : Prop :=
  exists rest, s = (p ++ rest)%string.

(** ** [difflib.SequenceMatcher], the interface the stabilizer consumes

    [stabilizer.py] builds [SequenceMatcher(None, text1, text2)] and reads
    [ratio()] and [get_matching_blocks()] from it.  The stabilizer is
    written against this interface; [Difflib] below supplies the standard
    library's algorithm as an instance. *)

Record Match := mkMatch { m_a : nat; m_b : nat; m_size : nat }.

Class SequenceMatcher := {
  ratio : string -> string -> Q;
  get_matching_blocks : string -> string -> list Match
}.

(** ** TextStabilizer ([backend/pipeline/stabilizer.py]) *)

Module Stabilizer.

Record TextStabilizer := mkStabilizer {
  similarity_threshold : Q;
  min_stable_length : Z;
  previous_text : string;
  stable_text : string;
  consecutive_stable_count : nat
}.

(** [TextStabilizer.__init__] *)
Definition init (threshold : Q) (min_length : Z) : TextStabilizer :=
  mkStabilizer threshold min_length "" "" 0.

(** [TextStabilizer()] with the default arguments. *)
Definition default : TextStabilizer := init (85 # 100) 10.

(** The dictionary [process] returns.  The key ['full_text'] is present on
    the non-final path only. *)
Record Result := mkResult {
  r_stable_text : string;
  r_incremental_text : string;
  r_confidence : Q;
  r_is_stable : bool;
  r_full_text : option string
}.

Definition Qge_bool (x y : Q) : bool := Qle_bool y x.

Section WithMatcher.
Context `{SequenceMatcher}.

(** [_calculate_similarity] *)
Definition _calculate_similarity (text1 text2 : string) : Q :=
  if negb (PyStr.truthy text1) && negb (PyStr.truthy text2) then 1%Q
  else if negb (PyStr.truthy text1) || negb (PyStr.truthy text2) then 0%Q
  else ratio text1 text2.

(** [_find_stable_prefix] *)
Definition _find_stable_prefix (text1 text2 : string) : string :=
  if negb (PyStr.truthy text1) || negb (PyStr.truthy text2) then ""
  else
    match get_matching_blocks text1 text2 with
    | first_block :: _ =>
        if ((m_a first_block =? 0)%nat && (m_b first_block =? 0)%nat)%bool
        then PyStr.slice_to text2 (Z.of_nat (m_size first_block))
        else ""
    | [] => ""
    end.

(** [process(new_text, is_final)]: the updated stabilizer and the returned
    dictionary. *)
Definition process (self : TextStabilizer) (new_text : string) (is_final : bool)
  : TextStabilizer * Result :=
  if negb (PyStr.truthy new_text) then
    (self, mkResult (stable_text self) "" 1 true None)
  else if is_final then
    let self' :=
      mkStabilizer (similarity_threshold self) (min_stable_length self)
                   new_text new_text 0 in
    (self',
     mkResult new_text
              (if PyStr.len new_text >? PyStr.len (stable_text self')
               then PyStr.slice_from new_text (PyStr.len (stable_text self'))
               else "")
              1 true None)
  else
    let similarity := _calculate_similarity (previous_text self) new_text in
    let stable_prefix := _find_stable_prefix (previous_text self) new_text in
    let is_stable :=
      Qge_bool similarity (similarity_threshold self)
      && (PyStr.len stable_prefix >=? min_stable_length self) in
    let count :=
      if is_stable then S (consecutive_stable_count self) else 0%nat in
    let commit :=
      (2 <=? count)%nat
      || (PyStr.len stable_prefix >? PyStr.len (stable_text self)) in
    let incremental :=
      if commit
      then PyStr.slice_from stable_prefix (PyStr.len (stable_text self))
      else "" in
    let stable := if commit then stable_prefix else stable_text self in
    (mkStabilizer (similarity_threshold self) (min_stable_length self)
                  new_text stable count,
     mkResult stable incremental similarity is_stable (Some new_text)).

(** [reset] *)
Definition reset (self : TextStabilizer) : TextStabilizer :=
  mkStabilizer (similarity_threshold self) (min_stable_length self) "" "" 0.

(** [get_state] *)
Definition get_state (self : TextStabilizer) : Z * Z * nat :=
  (PyStr.len (stable_text self), PyStr.len (previous_text self),
   consecutive_stable_count self).

(** The states a stabilizer can be in: whatever a sequence of [process]
    and [reset] calls leaves behind a freshly constructed one. *)
Inductive reachable : TextStabilizer -> Prop :=
| reach_init threshold min_length : reachable (init threshold min_length)
| reach_process self text is_final :
    reachable self -> reachable (fst (process self text is_final))
| reach_reset self : reachable self -> reachable (reset self).

End WithMatcher.

End Stabilizer.

(** ** The standard library's matcher

    A rendering of CPython's [difflib.SequenceMatcher] as the stabilizer
    constructs it: [isjunk=None], [autojunk=True].  Sequences are lists of
    characters. *)

Module Difflib.

Definition count_occ_char (c : ascii) (b : list ascii) : nat :=
  List.length (List.filter (Ascii.eqb c) b).

(** [__chain_b]: with no junk predicate the only elements purged from
    [b2j] are the popular ones, and only when [len(b) >= 200]. *)
Definition popular (b : list ascii) (c : ascii) : bool :=
  let n := List.length b in
  ((200 <=? n) && (n / 100 + 1 <? count_occ_char c b))%nat%bool.

(** One pass of the inner loop of [find_longest_match], for the element
    [x = a[i]]: [prev] is [j2len] as a row indexed by [j] ([diag] is its
    entry at [j-1]), the result is [newj2len] and the updated best match. *)
Fixpoint scan_row (pop : ascii -> bool) (blo bhi : nat) (x : ascii) (i : nat)
    (b : list ascii) (prev : list nat) (j diag : nat) (best : Match)
  : list nat * Match :=
  match b with
  | [] => ([], best)
  | y :: b' =>
      let k :=
        if ((blo <=? j) && (j <? bhi) && Ascii.eqb x y && negb (pop y))%nat%bool
        then S diag else 0%nat in
      let best' :=
        if (m_size best <? k)%nat
        then mkMatch (i + 1 - k) (j + 1 - k) k else best in
      let '(row, best'') :=
        scan_row pop blo bhi x i b' (List.tl prev) (S j) (List.hd 0%nat prev) best' in
      (k :: row, best'')
  end.

(** The outer loop, [for i in range(alo, ahi)]. *)
Fixpoint scan_rows (pop : ascii -> bool) (alo ahi blo bhi : nat)
    (a : list ascii) (i : nat) (b : list ascii) (prev : list nat)
    (best : Match) : Match :=
  match a with
  | [] => best
  | x :: a' =>
      if ((alo <=? i) && (i <? ahi))%nat%bool then
        let '(row, best') := scan_row pop blo bhi x i b prev 0 0 best in
        scan_rows pop alo ahi blo bhi a' (S i) b row best'
      else scan_rows pop alo ahi blo bhi a' (S i) b prev best
  end.

Definition same_at (a b : list ascii) (i j : nat) : bool :=
  match nth_error a i, nth_error b j with
  | Some x, Some y => Ascii.eqb x y
  | _, _ => false
  end.

(** The two loops that extend the best match by non-junk elements. *)
Fixpoint extend_left (fuel : nat) (a b : list ascii) (alo blo : nat) (m : Match)
  : Match :=
  match fuel with
  | O => m
  | S fuel' =>
      if ((alo <? m_a m) && (blo <? m_b m)
          && same_at a b (m_a m - 1) (m_b m - 1))%nat%bool
      then extend_left fuel' a b alo blo
             (mkMatch (m_a m - 1) (m_b m - 1) (m_size m + 1))
      else m
  end.

Fixpoint extend_right (fuel : nat) (a b : list ascii) (ahi bhi : nat) (m : Match)
  : Match :=
  match fuel with
  | O => m
  | S fuel' =>
      if ((m_a m + m_size m <? ahi) && (m_b m + m_size m <? bhi)
          && same_at a b (m_a m + m_size m) (m_b m + m_size m))%nat%bool
      then extend_right fuel' a b ahi bhi
             (mkMatch (m_a m) (m_b m) (m_size m + 1))
      else m
  end.

Definition find_longest_match (a b : list ascii) (alo ahi blo bhi : nat) : Match :=
  let m := scan_rows (popular b) alo ahi blo bhi a 0 b [] (mkMatch alo blo 0) in
  let m := extend_left (List.length a) a b alo blo m in
  extend_right (List.length a) a b ahi bhi m.

(** The work queue of [get_matching_blocks], unfolded as a recursion; the
    blocks come out in increasing order of [i], which is the order the
    source's [sort()] puts them in. *)
Fixpoint blocks (fuel : nat) (a b : list ascii) (alo ahi blo bhi : nat)
  : list Match :=
  match fuel with
  | O => []
  | S fuel' =>
      let x := find_longest_match a b alo ahi blo bhi in
      let '(i, j, k) := (m_a x, m_b x, m_size x) in
      if (k =? 0)%nat then []
      else
        (if ((alo <? i) && (blo <? j))%nat%bool
         then blocks fuel' a b alo i blo j else [])
        ++ [x]
        ++ (if ((i + k <? ahi) && (j + k <? bhi))%nat%bool
            then blocks fuel' a b (i + k) ahi (j + k) bhi else [])
  end.

(** Collapsing adjacent equal blocks; [cur] is [(i1, j1, k1)]. *)
Fixpoint collapse (cur : Match) (l : list Match) : list Match :=
  match l with
  | [] => if (m_size cur =? 0)%nat then [] else [cur]
  | x :: l' =>
      if ((m_a cur + m_size cur =? m_a x)
          && (m_b cur + m_size cur =? m_b x))%nat%bool
      then collapse (mkMatch (m_a cur) (m_b cur) (m_size cur + m_size x)) l'
      else (if (m_size cur =? 0)%nat then [] else [cur]) ++ collapse x l'
  end.

Definition matching_blocks (a b : list ascii) : list Match :=
  let la := List.length a in
  let lb := List.length b in
  collapse (mkMatch 0 0 0) (blocks (S la) a b 0 la 0 lb) ++ [mkMatch la lb 0].

Definition calculate_ratio (matches len : nat) : Q :=
  if (len =? 0)%nat then 1%Q
  else (2 * Z.of_nat matches) # (Pos.of_nat len).

Definition seq_ratio (a b : list ascii) : Q :=
  calculate_ratio (list_sum (List.map m_size (matching_blocks a b)))
                  (List.length a + List.length b).

End Difflib.

#[export] Instance difflib : SequenceMatcher := {|
  ratio a b := Difflib.seq_ratio (PyStr.chars a) (PyStr.chars b);
  get_matching_blocks a b := Difflib.matching_blocks (PyStr.chars a) (PyStr.chars b)
|}.

(** ** PhraseBuffer ([backend/pipeline/stabilizer.py]) *)

Module PhraseBuffer.

Record PhraseBuffer := mkPhraseBuffer {
  min_phrase_length : Z;
  phrase_delimiters : string;
  buffer : string
}.

(** [PhraseBuffer.__init__]; the defaults are 20 and [".!?,;:\n"]. *)
Definition init (min_length : Z) (delimiters : string) : PhraseBuffer :=
  mkPhraseBuffer min_length delimiters "".

Definition newline : ascii := ascii_of_nat 10.

Definition default_delimiters : string :=
  (".!?,;:" ++ String newline "")%string.

Definition default : PhraseBuffer := init 20 default_delimiters.

(** The loop of [add] over the delimiters: the running maximum of
    [buffer.rfind(delimiter)], starting from [-1]. *)
Fixpoint scan_delimiters (buf : string) (delimiters : list ascii)
    (last_delimiter_pos : Z) : Z :=
  match delimiters with
  | [] => last_delimiter_pos
  | delimiter :: rest =>
      let pos := PyStr.rfind buf delimiter in
      scan_delimiters buf rest
        (if pos >? last_delimiter_pos then pos else last_delimiter_pos)
  end.

Definition last_delimiter (self : PhraseBuffer) (buf : string) : Z :=
  scan_delimiters buf (PyStr.chars (phrase_delimiters self)) (-1).

Definition with_buffer (self : PhraseBuffer) (buf : string) : PhraseBuffer :=
  mkPhraseBuffer (min_phrase_length self) (phrase_delimiters self) buf.

(** [add(text)]: the updated buffer and the phrase, if one is complete. *)
Definition add (self : PhraseBuffer) (text : string)
  : PhraseBuffer * option string :=
  let buf := (buffer self ++ text)%string in
  if PyStr.len buf >=? min_phrase_length self then
    let last_delimiter_pos := last_delimiter self buf in
    if last_delimiter_pos >=? min_phrase_length self then
      let phrase := PyStr.strip (PyStr.slice_to buf (last_delimiter_pos + 1)) in
      (with_buffer self (PyStr.strip (PyStr.slice_from buf (last_delimiter_pos + 1))),
       Some phrase)
    else (with_buffer self buf, None)
  else (with_buffer self buf, None).

(** [flush()] *)
Definition flush (self : PhraseBuffer) : PhraseBuffer * string :=
  (with_buffer self "", buffer self).

(** [reset()] *)
Definition reset (self : PhraseBuffer) : PhraseBuffer := with_buffer self "".

(** [get_buffered()] *)
Definition get_buffered (self : PhraseBuffer) : string := buffer self.

(** Whether a character is one of the configured delimiters. *)
Definition is_delimiter (self : PhraseBuffer) (c : ascii) : bool :=
  existsb (Ascii.eqb c) (PyStr.chars (phrase_delimiters self)).

End PhraseBuffer.

(** ** numpy arrays, as far as the pipeline looks at them *)

Record ndarray := mkArray {
  is_float32 : bool;      (* [dtype == np.float32] *)
  samples : list Q
}.

(** [np.concatenate] of float32 chunks. *)
Definition np_concatenate (chunks : list ndarray) : ndarray :=
  mkArray true (List.concat (List.map samples chunks)).

Definition Qgt_bool (x y : Q) : bool := negb (Qle_bool x y).

(** ** VoiceActivityDetector ([backend/pipeline/vad.py]) *)

Module Vad.

Record VoiceActivityDetector := mkVad {
  sample_rate : Z;
  threshold : Q;
  min_speech_frames : Z;
  min_silence_frames : Z;
  (* the Silero network: [None] when it could not be loaded; a loaded
     network maps a frame to a speech probability or raises ([None]) *)
  model : option (list Q -> option Q);
  speech_buffer : list ndarray;
  is_speaking : bool;
  speech_frames : Z;
  silence_frames : Z
}.

Definition frame_duration_ms : Z := 30.

(** [__init__] followed by [initialize], which leaves [model] either
    loaded or [None]. *)
Definition init (sample_rate : Z) (threshold : Q)
    (min_speech_duration_ms min_silence_duration_ms : Z)
    (model : option (list Q -> option Q)) : VoiceActivityDetector :=
  mkVad sample_rate threshold
        (min_speech_duration_ms / frame_duration_ms)
        (min_silence_duration_ms / frame_duration_ms)
        model [] false 0 0.

Definition vad_frame_size (self : VoiceActivityDetector) : nat :=
  if sample_rate self =? 16000 then 512%nat else 256%nat.

Definition sum_squares (frame : list Q) : Q :=
  List.fold_right (fun x acc => (x * x + acc)%Q) 0%Q frame.

(** [_energy_based_detection]: [sqrt(mean(x**2)) > 0.01], decided on the
    squares. *)
Definition _energy_based_detection (frame : list Q) : bool :=
  Qgt_bool (sum_squares frame / inject_Z (Z.of_nat (List.length frame)))
           ((1 # 100) * (1 # 100)).

(** [_detect_speech] *)
Definition _detect_speech (self : VoiceActivityDetector) (frame : list Q) : bool :=
  match model self with
  | Some net =>
      if negb (List.length frame =? vad_frame_size self)%nat
      then _energy_based_detection frame
      else
        match net frame with
        | Some speech_prob => Qgt_bool speech_prob (threshold self)
        | None => _energy_based_detection frame
        end
  | None => _energy_based_detection frame
  end.

(** The complete frames [chunk[i:i + size]] for [i] in
    [range(0, len(chunk), size)]. *)
Fixpoint complete_frames (fuel size : nat) (chunk : list Q) : list (list Q) :=
  match fuel with
  | O => []
  | S fuel' =>
      match chunk with
      | [] => []
      | _ =>
          let frame := firstn size chunk in
          (if (List.length frame =? size)%nat then [frame] else [])
          ++ complete_frames fuel' size (skipn size chunk)
      end
  end.

(** The dtype conversion at the top of [process]. *)
Definition to_float32 (chunk : ndarray) : ndarray :=
  if is_float32 chunk then chunk
  else mkArray true (List.map (fun x => (x / 32768)%Q) (samples chunk)).

(** [is_speech_detected] after the loop over the frames of the chunk. *)
Definition is_speech_detected (self : VoiceActivityDetector) (chunk : ndarray)
  : bool :=
  existsb (_detect_speech self)
    (complete_frames (List.length (samples chunk)) (vad_frame_size self)
                     (samples chunk)).

Definition set_state (self : VoiceActivityDetector) (buf : list ndarray)
    (speaking : bool) (speech silence : Z) : VoiceActivityDetector :=
  mkVad (sample_rate self) (threshold self) (min_speech_frames self)
        (min_silence_frames self) (model self) buf speaking speech silence.

(** The state machine of [process], given the verdict on the chunk. *)
Definition update (self : VoiceActivityDetector) (detected : bool)
    (audio_chunk : ndarray)
  : VoiceActivityDetector * (bool * option ndarray) :=
  if detected then
    let speech := speech_frames self + 1 in
    let buf := speech_buffer self ++ [audio_chunk] in
    let speaking :=
      if negb (is_speaking self) && (speech >=? min_speech_frames self)
      then true else is_speaking self in
    (set_state self buf speaking speech 0, (detected, None))
  else
    let silence := silence_frames self + 1 in
    if is_speaking self then
      let buf := speech_buffer self ++ [audio_chunk] in
      if silence >=? min_silence_frames self then
        let segment :=
          match buf with [] => None | _ => Some (np_concatenate buf) end in
        (set_state self [] false 0 0, (true, segment))
      else
        (set_state self buf true (speech_frames self) silence, (detected, None))
    else
      (set_state self (speech_buffer self) false (speech_frames self) silence,
       (detected, None)).

(** [process(audio_chunk)] *)
Definition process (self : VoiceActivityDetector) (audio_chunk : ndarray)
  : VoiceActivityDetector * (bool * option ndarray) :=
  let audio_chunk := to_float32 audio_chunk in
  update self (is_speech_detected self audio_chunk) audio_chunk.

(** [reset()] *)
Definition reset (self : VoiceActivityDetector) : VoiceActivityDetector :=
  set_state self [] false 0 0.

(** [get_state()] *)
Record State := mkState {
  st_is_speaking : bool;
  st_speech_frames : Z;
  st_silence_frames : Z;
  st_buffer_size : nat
}.

Definition get_state (self : VoiceActivityDetector) : State :=
  mkState (is_speaking self) (speech_frames self) (silence_frames self)
          (List.length (speech_buffer self)).

(** Feeding a sequence of chunks, one [process] call each. *)
Definition run (self : VoiceActivityDetector) (chunks : list ndarray)
  : VoiceActivityDetector :=
  List.fold_left (fun v c => fst (process v c)) chunks self.

(** The verdicts [process] reaches on a sequence of chunks. *)
Definition verdicts (self : VoiceActivityDetector) (chunks : list ndarray)
  : list bool :=
  List.map (fun c => is_speech_detected self (to_float32 c)) chunks.

(** The number of [b]s at the end of a list of verdicts: the length of the
    run of consecutive speech ([b = true]) or silence ([b = false]) frames
    that ends with the latest frame. *)
Fixpoint leading (b : bool) (l : list bool) : Z :=
  match l with
  | x :: l' => if Bool.eqb x b then 1 + leading b l' else 0
  | [] => 0
  end.

Definition trailing (b : bool) (l : list bool) : Z := leading b (List.rev l).

(** [process] touches the buffer, the flag and the two counters only. *)
Definition same_setup (v v' : VoiceActivityDetector) : Prop :=
  sample_rate v' = sample_rate v
  /\ threshold v' = threshold v
  /\ min_speech_frames v' = min_speech_frames v
  /\ min_silence_frames v' = min_silence_frames v
  /\ model v' = model v.

(** The number of speech verdicts in a history. *)
Definition speech_count (l : list bool) : Z :=
  Z.of_nat (List.length (List.filter (fun b : bool => b) l)).

(** The state [__init__] and [reset] leave behind. *)
Definition is_reset (self : VoiceActivityDetector) : Prop :=
  speech_buffer self = [] /\ is_speaking self = false
  /\ speech_frames self = 0 /\ silence_frames self = 0.

End Vad.

(** ** Calls that may raise *)

Inductive py (A : Type) : Type :=
| Return (a : A)
| Raise (exc : string).
Arguments Return {A} a.
Arguments Raise {A} exc.

#[export] Instance py_bind : MBind py := fun A B k m =>
  match m with
  | Return a => k a
  | Raise exc => Raise exc
  end.

(** [l[i]] on a Python list: a negative index counts from the end, an index
    out of range raises. *)
Definition py_getitem {A : Type} (l : list A) (i : Z) : py A :=
  let n := Z.of_nat (List.length l) in
  let i' := if i <? 0 then i + n else i in
  if (i' <? 0) || (n <=? i') then Raise "IndexError"
  else
    match nth_error l (Z.to_nat i') with
    | Some x => Return x
    | None => Raise "IndexError"
    end.

(** [int(x)] on a float: truncation towards zero. *)
Definition py_int (x : Q) : Z := Z.quot (Qnum x) (Z.pos (Qden x)).

(** ** The one float product whose rounding decides an index

    [_percentile] computes [int(len(sorted_values) * p)] in binary64.  The
    model below takes that product in [Q]; [Binary64] is the same
    computation with IEEE rounding, kept to check that the two agree. *)

Module Binary64.

Definition prec : Z := 53.
Definition emax : Z := 1024.

(** [float(n)] for a Python [int]. *)
Definition of_int (n : Z) : spec_float :=
  match n with
  | Z0 => S754_zero false
  | _ => binary_normalize prec emax n 0 false
  end.

(** The literals [0.95] and [0.99]. *)
Definition lit_0_95 : spec_float := S754_finite false 8556839292003942 (-53).
Definition lit_0_99 : spec_float := S754_finite false 8917127262193582 (-53).

(** [int(x)] on a finite float. *)
Definition to_int (x : spec_float) : Z :=
  match x with
  | S754_finite sign m e =>
      let v := if 0 <=? e then Z.pos m * 2 ^ e else Z.pos m / 2 ^ (- e) in
      if sign then - v else v
  | _ => 0
  end.

(** [int(n * p)] *)
Definition index (n : Z) (p : spec_float) : Z :=
  to_int (SFmul prec emax (of_int n) p).

(** Whether the rounded product and the exact one give the same index for
    every window length below [bound]. *)
Definition agrees_below (bound : nat) : bool :=
  forallb (fun k =>
             let n := Z.of_nat k in
             (index n lit_0_95 =? py_int (inject_Z n * (95 # 100)))
             && (index n lit_0_99 =? py_int (inject_Z n * (99 # 100))))
          (List.seq 0 bound).

End Binary64.

(** [sorted(values)]: a stable ascending sort. *)
Fixpoint insert_sorted (x : Q) (l : list Q) : list Q :=
  match l with
  | [] => [x]
  | y :: l' => if Qle_bool y x then y :: insert_sorted x l' else x :: l
  end.

Definition sorted (values : list Q) : list Q :=
  List.fold_right insert_sorted [] (List.rev values).

(** ** The [statistics] functions [get_stats] calls *)

Module Statistics.

Definition Qsum (data : list Q) : Q :=
  List.fold_right Qplus 0%Q data.

Definition Qlen (data : list Q) : Q := inject_Z (Z.of_nat (List.length data)).

(** [statistics.mean] *)
Definition mean (data : list Q) : Q := (Qsum data / Qlen data)%Q.

(** The sum of squared deviations from the mean. *)
Definition ss (data : list Q) : Q :=
  Qsum (List.map (fun x => ((x - mean data) * (x - mean data))%Q) data).

(** [statistics.variance]: the sample variance, with divisor [n - 1]. *)
Definition variance (data : list Q) : Q := (ss data / (Qlen data - 1))%Q.

(** [statistics.pvariance]: the population variance, with divisor [n]. *)
Definition pvariance (data : list Q) : Q := (ss data / Qlen data)%Q.

(** [statistics.stdev] and [statistics.pstdev], the square roots of the
    above. *)
Definition stdev (data : list Q) : R := sqrt (Q2R (variance data)).
Definition pstdev (data : list Q) : R := sqrt (Q2R (pvariance data)).

(** [statistics.median] *)
Definition median (data : list Q) : py Q :=
  let data := sorted data in
  let n := Z.of_nat (List.length data) in
  if n =? 0 then Raise "StatisticsError"
  else if n mod 2 =? 1 then py_getitem data (n / 2)
  else
    let i := n / 2 in
    lo ← py_getitem data (i - 1);
    hi ← py_getitem data i;
    Return ((lo + hi) / 2)%Q.

End Statistics.

(** [min(values)] and [max(values)] of a non-empty list. *)
Definition py_min (first : Q) (rest : list Q) : Q :=
  List.fold_left (fun m x => if Qgt_bool m x then x else m) rest first.

Definition py_max (first : Q) (rest : list Q) : Q :=
  List.fold_left (fun m x => if Qgt_bool x m then x else m) rest first.

(** ** MetricsCollector ([backend/utils/metrics.py]) *)

Module Metrics.

Record MetricsCollector := mkCollector {
  window_size : nat;
  metrics : gmap string (list Q);
  counters : gmap string Z;
  start_time : Q
}.

(** [MetricsCollector.__init__], at wall-clock time [now]. *)
Definition init (window_size : nat) (now : Q) : MetricsCollector :=
  mkCollector window_size ∅ ∅ now.

(** [deque.append] on a deque created with [maxlen]: the new item goes in
    on the right and, if the deque is then too long, the leftmost goes. *)
Definition deque_append (maxlen : nat) (d : list Q) (value : Q) : list Q :=
  let d' := d ++ [value] in
  if (maxlen <? List.length d')%nat then List.tl d' else d'.

(** [record(metric_name, value)] *)
Definition record (self : MetricsCollector) (metric_name : string) (value : Q)
  : MetricsCollector :=
  let window :=
    match metrics self !! metric_name with
    | Some d => d
    | None => []
    end in
  mkCollector (window_size self)
    (<[metric_name := deque_append (window_size self) window value]> (metrics self))
    (counters self) (start_time self).

(** [increment(counter_name, amount)] *)
Definition increment (self : MetricsCollector) (counter_name : string)
    (amount : Z) : MetricsCollector :=
  let current :=
    match counters self !! counter_name with
    | Some n => n
    | None => 0
    end in
  mkCollector (window_size self) (metrics self)
    (<[counter_name := current + amount]> (counters self)) (start_time self).

(** [_percentile(values, p)] *)
Definition _percentile (values : list Q) (p : Q) : py Q :=
  match values with
  | [] => Return 0%Q
  | _ =>
      let sorted_values := sorted values in
      let n := Z.of_nat (List.length sorted_values) in
      let index := py_int (inject_Z n * p) in
      let index := Z.min index (n - 1) in
      py_getitem sorted_values index
  end.

Record Stats := mkStats {
  mean : Q;
  median : Q;
  min : Q;
  max : Q;
  stdev : R;
  count : nat;
  p95 : Q;
  p99 : Q
}.

(** [get_stats(metric_name)]; [Return None] is Python's [None].  The
    window holds exact numbers: what the statistics are is modelled, the
    exceptions [statistics.stdev] raises on floats that are infinite, not
    numbers or too large to square are not. *)
Definition get_stats (self : MetricsCollector) (metric_name : string)
  : py (option Stats) :=
  match metrics self !! metric_name with
  | None | Some [] => Return None
  | Some ((first :: rest) as values) =>
      med ← Statistics.median values;
      p95 ← _percentile values (95 # 100);
      p99 ← _percentile values (99 # 100);
      Return (Some
        (mkStats (Statistics.mean values) med
                 (py_min first rest) (py_max first rest)
                 (if (1 <? List.length values)%nat
                  then Statistics.stdev values else 0%R)
                 (List.length values) p95 p99))
  end.

Record Summary := mkSummary {
  uptime_seconds : Q;
  summary_metrics : gmap string Stats;
  summary_counters : gmap string Z
}.

(** [get_summary()], at wall-clock time [now]. *)
Definition get_summary (self : MetricsCollector) (now : Q) : py Summary :=
  all ← map_fold
           (fun name _ acc =>
              acc ← acc;
              stats ← get_stats self name;
              Return (match stats with
                      | Some st => <[name := st]> acc
                      | None => acc
                      end))
           (Return ∅) (metrics self);
  Return (mkSummary (now - start_time self)%Q all (counters self)).

(** [reset()], at wall-clock time [now]. *)
Definition reset (self : MetricsCollector) (now : Q) : MetricsCollector :=
  mkCollector (window_size self) ∅ ∅ now.

(** [get_recent(metric_name, n)] *)
Definition get_recent (self : MetricsCollector) (metric_name : string) (n : Z)
  : list Q :=
  match metrics self !! metric_name with
  | None => []
  | Some values =>
      let len := Z.of_nat (List.length values) in
      let start := if 0 <? n then Z.max 0 (len - n) else Z.min len (- n) in
      skipn (Z.to_nat start) values
  end.

(** Recording a sequence of values under one name, in order. *)
Definition record_all (self : MetricsCollector) (metric_name : string)
    (values : list Q) : MetricsCollector :=
  List.fold_left (fun m v => record m metric_name v) values self.

(** The last [n] entries of a list, in order. *)
Definition last_n (n : nat) (l : list Q) : list Q :=
  skipn (List.length l - n) l.

(** The window of a metric, empty if nothing was recorded under the name. *)
Definition window (self : MetricsCollector) (metric_name : string) : list Q :=
  match metrics self !! metric_name with
  | Some d => d
  | None => []
  end.

(** The spec's reading of a percentile: the entry of the sorted window at
    index [floor(p * n)], clamped to the last index. *)
Definition nearest_rank (window : list Q) (p : Q) : Q :=
  let sorted_window := sorted window in
  let n := List.length sorted_window in
  nth (Nat.min (Z.to_nat (Qfloor (inject_Z (Z.of_nat n) * p))) (n - 1))
      sorted_window 0%Q.

(** What [get_stats] returns, with [None] also standing for a call that
    raises. *)
Definition stats_of (self : MetricsCollector) (name : string) : option Stats :=
  match get_stats self name with
  | Return r => r
  | Raise _ => None
  end.

(** The value of a counter, 0 if it was never incremented. *)
Definition counter (self : MetricsCollector) (counter_name : string) : Z :=
  match counters self !! counter_name with
  | Some n => n
  | None => 0
  end.

(** A sequence of [increment] calls on one counter. *)
Definition increment_all (self : MetricsCollector) (counter_name : string)
    (amounts : list Z) : MetricsCollector :=
  List.fold_left (fun m a => increment m counter_name a) amounts self.

Definition Zsum (amounts : list Z) : Z := List.fold_right Z.add 0 amounts.

End Metrics.

(** ** ThroughputTracker ([backend/utils/metrics.py])

    The tracker reads the wall clock; the reading is an argument here. *)

Module ThroughputTracker.

Record ThroughputTracker := mkThroughput {
  window_seconds : Z;
  timestamps : list Q
}.

Definition init (window_seconds : Z) : ThroughputTracker :=
  mkThroughput window_seconds [].

(** [while self.timestamps and self.timestamps[0] < cutoff: popleft()] *)
Fixpoint drop_old (cutoff : Q) (ts : list Q) : list Q :=
  match ts with
  | t :: rest => if Qgt_bool cutoff t then drop_old cutoff rest else ts
  | [] => []
  end.

(** [record_event()], at time [now]. *)
Definition record_event (self : ThroughputTracker) (now : Q) : ThroughputTracker :=
  let cutoff := (now - inject_Z (window_seconds self))%Q in
  mkThroughput (window_seconds self) (drop_old cutoff (timestamps self ++ [now])).

(** [get_rate()], at time [now]. *)
Definition get_rate (self : ThroughputTracker) (now : Q) : Q :=
  match timestamps self with
  | first :: _ :: _ =>
      let duration := (now - first)%Q in
      if Qgt_bool duration 0
      then (inject_Z (Z.of_nat (List.length (timestamps self))) / duration)%Q
      else 0%Q
  | _ => 0%Q
  end.

(** [reset()] *)
Definition reset (self : ThroughputTracker) : ThroughputTracker :=
  mkThroughput (window_seconds self) [].

End ThroughputTracker.

(** ** PassthroughVAD ([backend/pipeline/vad.py]) *)

Module PassthroughVAD.

Record PassthroughVAD := mkPassthrough {
  target_samples : Z;
  buffer : list ndarray;
  total_samples : Z
}.

Definition init (sample_rate target_duration_ms : Z) : PassthroughVAD :=
  mkPassthrough (py_int (inject_Z (sample_rate * target_duration_ms) / 1000)) [] 0.

Definition process (self : PassthroughVAD) (audio_chunk : ndarray)
  : PassthroughVAD * (bool * option ndarray) :=
  let buf := buffer self ++ [audio_chunk] in
  let total := total_samples self + Z.of_nat (List.length (samples audio_chunk)) in
  if total >=? target_samples self
  then (mkPassthrough (target_samples self) [] 0, (true, Some (np_concatenate buf)))
  else (mkPassthrough (target_samples self) buf total, (false, None)).

Definition reset (self : PassthroughVAD) : PassthroughVAD :=
  mkPassthrough (target_samples self) [] 0.

(** Feeding a sequence of chunks, one [process] call each. *)
Definition run (self : PassthroughVAD) (chunks : list ndarray) : PassthroughVAD :=
  List.fold_left (fun v c => fst (process v c)) chunks self.

(** The number of samples in a list of chunks. *)
Definition sample_count (chunks : list ndarray) : Z :=
  Z.of_nat (List.length (samples (np_concatenate chunks))).

End PassthroughVAD.

(** ** PipelineOrchestrator ([backend/pipeline/orchestrator.py]) *)

Module Orchestrator.

Record Config := mkConfig {
  VAD_ENABLED : bool;
  SAMPLE_RATE : Z;
  CHUNK_DURATION_MS : Z;
  VAD_THRESHOLD : Q;
  VAD_MIN_SPEECH_DURATION_MS : Z;
  VAD_MIN_SILENCE_DURATION_MS : Z;
  SOURCE_LANGUAGE : string;
  TARGET_LANGUAGE : string
}.

(** The dictionary an ASR engine returns, without the segment list. *)
Record Transcription := mkTranscription {
  text : string;
  language : string;
  confidence : Q
}.

(** What the pipeline gets from outside the repository: the outcome of
    loading each model, and the loaded models as functions. *)
Record World := mkWorld {
  (* [torch.hub.load] of Silero: the network, [None] when loading raises *)
  silero_load : option (list Q -> option Q);
  (* the outcome of [ASREngine.initialize]: the Whisper model, as
     [_transcribe_sync] uses it, or the exception *)
  whisper_load : py (ndarray -> string -> py Transcription);
  ARGOS_AVAILABLE : bool;
  (* the outcome of [await self.translator.initialize()] as
     [PipelineOrchestrator.initialize] handles it; what
     [Translator.initialize] itself can answer is [Translator_initialize]
     below *)
  translator_initialize : py unit;
  (* [argostranslate.translate.translate(text, source, target)] *)
  argos_translate : string -> string -> string -> py string;
  PIPER_AVAILABLE : bool;
  (* the outcome of [await self.tts.initialize()] as
     [PipelineOrchestrator.initialize] handles it: the voice left in
     [self.model], if any, or the exception; what [TTSEngine.initialize]
     itself can answer is [TTSEngine_initialize] below *)
  tts_initialize : py (option (string -> py (list byte)));
  (* the WAV file [MockTTS.synthesize] builds: half a second of 440 Hz *)
  mock_beep : list byte
}.

Inductive ASR :=
| ASREngine (language : string) (model : option (ndarray -> string -> py Transcription))
| MockASR.

Inductive Translator :=
| ArgosTranslator (source_lang target_lang : string)
| MockTranslator (source_lang target_lang : string).

Inductive TTS :=
| TTSEngine (model : option (string -> py (list byte)))
| MockTTS.

Inductive AnyVad :=
| SileroVad (v : Vad.VoiceActivityDetector)
| Passthrough (v : PassthroughVAD.PassthroughVAD).

(** [language or default] *)
Definition or_else (language default : string) : string :=
  if PyStr.truthy language then language else default.

(** [ASREngine.transcribe] and [MockASR.transcribe] *)
Definition transcribe (asr : ASR) (audio : ndarray) (lang : string)
  : py Transcription :=
  match asr with
  | ASREngine self_language None => Raise "Model not initialized"
  | ASREngine self_language (Some whisper) =>
      let lang := or_else lang self_language in
      match whisper audio lang with
      | Return result => Return result
      | Raise _ => Return (mkTranscription "" lang 0)
      end
  | MockASR => Return (mkTranscription "[Mock transcription]" (or_else lang "en") 1)
  end.

(** [Translator.translate] and [MockTranslator.translate] *)
Definition translate (w : World) (t : Translator) (txt : string) : string :=
  match t with
  | ArgosTranslator source target =>
      if negb (ARGOS_AVAILABLE w) then txt
      else if negb (PyStr.truthy txt) || negb (PyStr.truthy (PyStr.strip txt))
      then txt
      else
        match argos_translate w txt source target with
        | Return translated => translated
        | Raise _ => txt
        end
  | MockTranslator _ target => ("[" ++ PyStr.upper target ++ "] " ++ txt)%string
  end.

(** [TTSEngine.synthesize] and [MockTTS.synthesize] *)
Definition synthesize (w : World) (t : TTS) (txt : string) : option (list byte) :=
  match t with
  | TTSEngine model =>
      match model with
      | Some voice =>
          if negb (PIPER_AVAILABLE w) then None
          else if negb (PyStr.truthy txt) || negb (PyStr.truthy (PyStr.strip txt))
          then None
          else
            match voice txt with
            | Return audio_bytes => Some audio_bytes
            | Raise _ => None
            end
      | None => None
      end
  | MockTTS => Some (mock_beep w)
  end.

(** [AudioProcessor.bytes_to_array]: little-endian 16-bit samples scaled
    by [1/32768]; [None] when [np.frombuffer] rejects the length. *)
Fixpoint int16_samples (audio_bytes : list byte) : option (list Q) :=
  match audio_bytes with
  | [] => Some []
  | lo :: hi :: rest =>
      let u := Z.of_N (Byte.to_N lo) + 256 * Z.of_N (Byte.to_N hi) in
      let v := if u <? 32768 then u else u - 65536 in
      option_map (cons (inject_Z v / 32768)%Q) (int16_samples rest)
  | [_] => None
  end.

Definition bytes_to_array (audio_bytes : list byte) : option ndarray :=
  option_map (mkArray true) (int16_samples audio_bytes).

Record PipelineOrchestrator := mkOrchestrator {
  config : Config;
  vad : option AnyVad;
  asr : option ASR;
  translator : option Translator;
  tts : option TTS;
  stabilizer : Stabilizer.TextStabilizer;
  phrase_buffer : PhraseBuffer.PhraseBuffer;
  metrics : Metrics.MetricsCollector;
  is_ready : bool
}.

(** [PipelineOrchestrator.__init__], at wall-clock time [now]. *)
Definition init (config : Config) (now : Q) : PipelineOrchestrator :=
  mkOrchestrator config None None None None
    Stabilizer.default PhraseBuffer.default (Metrics.init 100 now) false.

(** [initialize()] *)
Definition initialize (w : World) (self : PipelineOrchestrator)
  : PipelineOrchestrator :=
  let cfg := config self in
  let vad :=
    if VAD_ENABLED cfg
    then SileroVad (Vad.init (SAMPLE_RATE cfg) (VAD_THRESHOLD cfg)
                      (VAD_MIN_SPEECH_DURATION_MS cfg)
                      (VAD_MIN_SILENCE_DURATION_MS cfg) (silero_load w))
    else Passthrough (PassthroughVAD.init (SAMPLE_RATE cfg) (CHUNK_DURATION_MS cfg)) in
  let asr :=
    match whisper_load w with
    | Return whisper => ASREngine (SOURCE_LANGUAGE cfg) (Some whisper)
    | Raise _ => MockASR
    end in
  let translator :=
    match translator_initialize w with
    | Return _ => ArgosTranslator (SOURCE_LANGUAGE cfg) (TARGET_LANGUAGE cfg)
    | Raise _ => MockTranslator (SOURCE_LANGUAGE cfg) (TARGET_LANGUAGE cfg)
    end in
  let tts :=
    match tts_initialize w with
    | Return model => TTSEngine model
    | Raise _ => MockTTS
    end in
  mkOrchestrator cfg (Some vad) (Some asr) (Some translator) (Some tts)
    (stabilizer self) (phrase_buffer self) (metrics self) true.

(** The wall-clock differences [process_audio] measures, in
    milliseconds. *)
Record Latencies := mkLatencies {
  vad_latency : Q;
  asr_latency : Q;
  translation_latency : Q;
  tts_latency : Q;
  total_latency : Q
}.

Record BundleMetrics := mkBundleMetrics {
  vad_latency_ms : Q;
  asr_latency_ms : Q;
  translation_latency_ms : Q;
  tts_latency_ms : Q;
  total_latency_ms : Q;
  audio_duration_ms : Q;
  transcription_confidence : Q
}.

(** The dictionaries [process_audio] returns. *)
Inductive Output :=
| VadStatus (is_speech : bool) (vad_latency_ms : Q)
| Bundle (transcription translation : string) (audio_bytes : option (list byte))
         (source_language target_language : string) (metrics : BundleMetrics)
         (is_final : bool)
| ProcessingError (error : string).

Definition vad_process (v : AnyVad) (audio : ndarray)
  : AnyVad * (bool * option ndarray) :=
  match v with
  | SileroVad d => let '(d', r) := Vad.process d audio in (SileroVad d', r)
  | Passthrough d => let '(d', r) := PassthroughVAD.process d audio in (Passthrough d', r)
  end.

Definition with_vad (self : PipelineOrchestrator) (v : AnyVad) : PipelineOrchestrator :=
  mkOrchestrator (config self) (Some v) (asr self) (translator self) (tts self)
    (stabilizer self) (phrase_buffer self) (metrics self) (is_ready self).

Definition with_stabilizer (self : PipelineOrchestrator)
    (s : Stabilizer.TextStabilizer) : PipelineOrchestrator :=
  mkOrchestrator (config self) (vad self) (asr self) (translator self) (tts self)
    s (phrase_buffer self) (metrics self) (is_ready self).

Definition with_metrics (self : PipelineOrchestrator)
    (m : Metrics.MetricsCollector) : PipelineOrchestrator :=
  mkOrchestrator (config self) (vad self) (asr self) (translator self) (tts self)
    (stabilizer self) (phrase_buffer self) m (is_ready self).

Definition none_has_no (attribute : string) : string :=
  ("'NoneType' object has no attribute '" ++ attribute ++ "'")%string.

(** The stages of [process_audio] that follow a completed segment. *)
Definition after_segment (w : World) (self : PipelineOrchestrator)
    (speech_segment : ndarray) (lat : Latencies)
  : PipelineOrchestrator * option Output :=
  let cfg := config self in
  match asr self with
  | None => (self, Some (ProcessingError (none_has_no "transcribe")))
  | Some engine =>
      match transcribe engine speech_segment (SOURCE_LANGUAGE cfg) with
      | Raise exc => (self, Some (ProcessingError exc))
      | Return transcription_result =>
          let transcription_text := text transcription_result in
          if negb (PyStr.truthy transcription_text) then (self, None)
          else
            let '(stab, stabilizer_result) :=
              Stabilizer.process (stabilizer self) transcription_text true in
            let self := with_stabilizer self stab in
            let stable_text := Stabilizer.r_stable_text stabilizer_result in
            match translator self, tts self with
            | None, _ => (self, Some (ProcessingError (none_has_no "translate")))
            | Some _, None => (self, Some (ProcessingError (none_has_no "synthesize")))
            | Some tr, Some synth =>
                let translated_text := translate w tr stable_text in
                let audio := synthesize w synth translated_text in
                if SAMPLE_RATE cfg =? 0
                then (self, Some (ProcessingError "division by zero"))
                else
                  let bundle_metrics :=
                    mkBundleMetrics (vad_latency lat) (asr_latency lat)
                      (translation_latency lat) (tts_latency lat)
                      (total_latency lat)
                      (inject_Z (Z.of_nat (List.length (samples speech_segment)))
                       / inject_Z (SAMPLE_RATE cfg) * 1000)%Q
                      (confidence transcription_result) in
                  let m := Metrics.record (metrics self) "pipeline_latency" (total_latency lat) in
                  let m := Metrics.record m "asr_latency" (asr_latency lat) in
                  let m := Metrics.record m "translation_latency" (translation_latency lat) in
                  let m := Metrics.record m "tts_latency" (tts_latency lat) in
                  (with_metrics self m,
                   Some (Bundle stable_text translated_text audio
                           (SOURCE_LANGUAGE cfg) (TARGET_LANGUAGE cfg)
                           bundle_metrics true))
            end
      end
  end.

(** [process_audio(audio_bytes)]; the result [None] is Python's [None].
    Every exception raised inside is caught and returned as a
    [ProcessingError]. *)
Definition process_audio (w : World) (self : PipelineOrchestrator)
    (audio_bytes : list byte) (lat : Latencies)
  : PipelineOrchestrator * option Output :=
  if negb (is_ready self) then (self, None)
  else
    match bytes_to_array audio_bytes with
    | None => (self, None)
    | Some audio_array =>
        if (List.length (samples audio_array) =? 0)%nat then (self, None)
        else
          match vad self with
          | None => (self, Some (ProcessingError (none_has_no "process")))
          | Some v =>
              let '(v', (is_speech, speech_segment)) := vad_process v audio_array in
              let self := with_vad self v' in
              match speech_segment with
              | None => (self, Some (VadStatus is_speech (vad_latency lat)))
              | Some segment => after_segment w self segment lat
              end
          end
    end.




(** A sequence of [process_audio] calls, one per chunk of bytes. *)
Definition feed (w : World) (self : PipelineOrchestrator)
    (chunks : list (list byte)) (lat : Latencies) : PipelineOrchestrator :=
  List.fold_left (fun o audio_bytes => fst (process_audio w o audio_bytes lat))
                 chunks self.


(** The part of the orchestrator that [process_audio] never replaces. *)
Definition same_collaborators (o o' : PipelineOrchestrator) : Prop :=
  config o' = config o /\ asr o' = asr o /\ translator o' = translator o
  /\ tts o' = tts o /\ is_ready o' = is_ready o.

(** An initialisation step that raised. *)
Definition raised {A : Type} (outcome : py A) : Prop :=
  exists exc, outcome = Raise exc.

(** [Translator.initialize]: without Argos it returns at once; otherwise
    all it does (the package index, the download and the installation,
    [setup] below) runs inside [try: ... except Exception], which logs the
    exception and returns. *)
Definition Translator_initialize (argos_available : bool) (setup : py unit)
  : py unit :=
  if negb argos_available then Return tt
  else
    match setup with
    | Return _ => Return tt
    | Raise _ => Return tt
    end.

(** [TTSEngine.initialize], as the voice it leaves in [self.model]:
    without Piper it returns at once; otherwise the test for the voice
    file and [PiperVoice.load] run inside [try: ... except Exception],
    which logs the exception and returns. *)
Definition TTSEngine_initialize (piper_available : bool)
    (model_file_exists : py bool) (load : py (string -> py (list byte)))
  : py (option (string -> py (list byte))) :=
  if negb piper_available then Return None
  else
    match model_file_exists with
    | Return true =>
        match load with
        | Return voice => Return (Some voice)
        | Raise _ => Return None
        end
    | Return false => Return None
    | Raise _ => Return None
    end.

(** Whether the pipeline runs on a stand-in for one of its models. *)
Definition degraded (self : PipelineOrchestrator) : bool :=
  match asr self with Some MockASR => true | _ => false end
  || match translator self with Some (MockTranslator _ _) => true | _ => false end
  || match tts self with Some MockTTS => true | _ => false end.

(** Whether [process_audio] returned a result bundle. *)
Definition is_bundle (out : option Output) : bool :=
  match out with
  | Some (Bundle _ _ _ _ _ _ _) => true
  | _ => false
  end.

(** Whether [process_audio] returned nothing or a speech-activity status. *)
Definition is_interim (out : option Output) : bool :=
  match out with
  | None | Some (VadStatus _ _) => true
  | _ => false
  end.

(** [ASREngine.set_language] and [MockASR.set_language] *)
Definition set_language (engine : ASR) (lang : string) : ASR :=
  match engine with
  | ASREngine _ model => ASREngine lang model
  | MockASR => MockASR
  end.

(** [Translator.set_language_pair] and [MockTranslator.set_language_pair] *)
Definition set_language_pair (t : Translator) (source_lang target_lang : string)
  : Translator :=
  match t with
  | ArgosTranslator _ _ => ArgosTranslator source_lang target_lang
  | MockTranslator _ _ => MockTranslator source_lang target_lang
  end.

(** The [cleanup] methods of the collaborators: the engines drop their
    model, the stand-ins do nothing. *)
Definition asr_cleanup (engine : ASR) : ASR :=
  match engine with
  | ASREngine lang _ => ASREngine lang None
  | MockASR => MockASR
  end.

Definition tts_cleanup (t : TTS) : TTS :=
  match t with
  | TTSEngine _ => TTSEngine None
  | MockTTS => MockTTS
  end.

Definition vad_reset (v : AnyVad) : AnyVad :=
  match v with
  | SileroVad d => SileroVad (Vad.reset d)
  | Passthrough d => Passthrough (PassthroughVAD.reset d)
  end.

(** [reset()] *)
Definition reset (self : PipelineOrchestrator) : PipelineOrchestrator :=
  mkOrchestrator (config self) (option_map vad_reset (vad self))
    (asr self) (translator self) (tts self)
    (Stabilizer.reset (stabilizer self)) (PhraseBuffer.reset (phrase_buffer self))
    (metrics self) (is_ready self).

(** [cleanup()] *)
Definition cleanup (self : PipelineOrchestrator) : PipelineOrchestrator :=
  mkOrchestrator (config self) (vad self)
    (option_map asr_cleanup (asr self)) (translator self)
    (option_map tts_cleanup (tts self))
    (stabilizer self) (phrase_buffer self) (metrics self) false.

Definition with_languages (cfg : Config) (source_lang target_lang : string) : Config :=
  mkConfig (VAD_ENABLED cfg) (SAMPLE_RATE cfg) (CHUNK_DURATION_MS cfg)
    (VAD_THRESHOLD cfg) (VAD_MIN_SPEECH_DURATION_MS cfg)
    (VAD_MIN_SILENCE_DURATION_MS cfg) source_lang target_lang.

(** [update_languages(source_lang, target_lang)] *)
Definition update_languages (self : PipelineOrchestrator)
    (source_lang target_lang : string) : PipelineOrchestrator :=
  reset
    (mkOrchestrator (with_languages (config self) source_lang target_lang)
       (vad self)
       (option_map (fun engine => set_language engine source_lang) (asr self))
       (option_map (fun t => set_language_pair t source_lang target_lang)
          (translator self))
       (tts self) (stabilizer self) (phrase_buffer self) (metrics self)
       (is_ready self)).

(** The operations a session performs on its pipeline. *)
Inductive Operation :=
| ProcessAudio (w : World) (audio_bytes : list byte) (lat : Latencies)
| Reset
| UpdateLanguages (source_lang target_lang : string)
| Cleanup.

Definition apply (self : PipelineOrchestrator) (op : Operation)
  : PipelineOrchestrator :=
  match op with
  | ProcessAudio w audio_bytes lat => fst (process_audio w self audio_bytes lat)
  | Reset => reset self
  | UpdateLanguages source_lang target_lang =>
      update_languages self source_lang target_lang
  | Cleanup => cleanup self
  end.

Definition apply_all (self : PipelineOrchestrator) (ops : list Operation)
  : PipelineOrchestrator :=
  List.fold_left apply ops self.

End Orchestrator.

(** ** The application ([backend/main.py]) *)

Module Main.

(** The [metrics] entry of a result: the VAD latency alone, or the seven
    entries of a bundle. *)
Inductive MetricsData :=
| VadMetrics (vad_latency_ms : Q)
| PipelineMetrics (m : Orchestrator.BundleMetrics).

(** What the server sends over a WebSocket. *)
Inductive Message :=
| SendTranscription (text language : string) (is_final : bool)
| SendTranslation (text language : string)
| SendAudio (audio_bytes : list byte)
| SendMetrics (data : MetricsData)
| SendError (message : string)
| SendPong
| SendResetComplete
| SendMetricsSummary (data : Metrics.Summary).

(** A connection during one call: whether its state is [CONNECTED], and
    for which messages [send_json] or [send_bytes] returns rather than
    raises. *)
Record WebSocket := mkWebSocket {
  connected : bool;
  delivers : Message -> bool
}.

(** The globals of the module.  [config] is the object the orchestrator
    holds as [self.config]: a write to either is a write to both. *)
Record App := mkApp {
  config : Orchestrator.Config;
  orchestrator : option Orchestrator.PipelineOrchestrator;
  metrics_collector : Metrics.MetricsCollector
}.

(** The body of a [POST /api/config] request. *)
Record Settings := mkSettings {
  source_language : option string;
  target_language : option string;
  vad_enabled : option bool
}.

Definition with_config (o : Orchestrator.PipelineOrchestrator)
    (cfg : Orchestrator.Config) : Orchestrator.PipelineOrchestrator :=
  Orchestrator.mkOrchestrator cfg (Orchestrator.vad o) (Orchestrator.asr o)
    (Orchestrator.translator o) (Orchestrator.tts o) (Orchestrator.stabilizer o)
    (Orchestrator.phrase_buffer o) (Orchestrator.metrics o)
    (Orchestrator.is_ready o).

(** The module is imported at time [loaded]; [startup_event] runs at
    time [now]. *)
Definition startup_event (w : Orchestrator.World) (cfg : Orchestrator.Config)
    (loaded now : Q) : App :=
  mkApp cfg (Some (Orchestrator.initialize w (Orchestrator.init cfg now)))
    (Metrics.init 100 loaded).

(** [update_config(settings)] *)
Definition update_config (app : App) (settings : Settings) : App :=
  let cfg := config app in
  let cfg :=
    Orchestrator.mkConfig
      (match vad_enabled settings with
       | Some v => v
       | None => Orchestrator.VAD_ENABLED cfg
       end)
      (Orchestrator.SAMPLE_RATE cfg) (Orchestrator.CHUNK_DURATION_MS cfg)
      (Orchestrator.VAD_THRESHOLD cfg)
      (Orchestrator.VAD_MIN_SPEECH_DURATION_MS cfg)
      (Orchestrator.VAD_MIN_SILENCE_DURATION_MS cfg)
      (match source_language settings with
       | Some l => l
       | None => Orchestrator.SOURCE_LANGUAGE cfg
       end)
      (match target_language settings with
       | Some l => l
       | None => Orchestrator.TARGET_LANGUAGE cfg
       end) in
  mkApp cfg (option_map (fun o => with_config o cfg) (orchestrator app))
    (metrics_collector app).

(** Sends in turn; the first send that raises ends the function. *)
Fixpoint send_each (ws : WebSocket) (messages : list Message) : list Message :=
  match messages with
  | [] => []
  | m :: rest => if delivers ws m then m :: send_each ws rest else []
  end.

(** The messages [process_audio_stream] sends for a result, one for each
    entry of the result that is present and truthy. *)
Definition messages_of (result : Orchestrator.Output) : list Message :=
  match result with
  | Orchestrator.VadStatus _ vad_latency_ms =>
      [SendMetrics (VadMetrics vad_latency_ms)]
  | Orchestrator.Bundle transcription translation audio_bytes
      source target m is_final =>
      (if PyStr.truthy transcription
       then [SendTranscription transcription source is_final] else [])
      ++ (if PyStr.truthy translation
          then [SendTranslation translation target] else [])
      ++ match audio_bytes with
         | Some (b :: rest) => [SendAudio (b :: rest)]
         | _ => []
         end
      ++ [SendMetrics (PipelineMetrics m)]
  | Orchestrator.ProcessingError _ => []
  end.

(** [process_audio_stream(websocket, audio_bytes)]: the globals
    afterwards and the messages that went out. *)
Definition process_audio_stream (ws : WebSocket) (w : Orchestrator.World)
    (app : App) (audio_bytes : list byte) (lat : Orchestrator.Latencies)
  : App * list Message :=
  if negb (connected ws) then (app, [])
  else
    match orchestrator app with
    | None => (app, send_each ws [SendError "Failed to process audio"])
    | Some o =>
        let '(o', result) := Orchestrator.process_audio w o audio_bytes lat in
        (mkApp (config app) (Some o') (metrics_collector app),
         match result with
         | Some r => send_each ws (messages_of r)
         | None => []
         end)
    end.

(** [handle_control_message(websocket, message)], for a message whose
    ["type"] is [msg_type], at time [now]. *)
Definition handle_control_message (ws : WebSocket) (app : App)
    (msg_type : string) (now : Q) : App * list Message :=
  if String.eqb msg_type "ping" then (app, send_each ws [SendPong])
  else if String.eqb msg_type "reset" then
    (mkApp (config app) (option_map Orchestrator.reset (orchestrator app))
       (metrics_collector app),
     send_each ws [SendResetComplete])
  else if String.eqb msg_type "get_metrics" then
    (app,
     match Metrics.get_summary (metrics_collector app) now with
     | Return data => send_each ws [SendMetricsSummary data]
     | Raise _ => []
     end)
  else (app, []).

(** What reaches the application once it is up. *)
Inductive Request :=
| Audio (ws : WebSocket) (audio_bytes : list byte) (lat : Orchestrator.Latencies)
| Control (ws : WebSocket) (msg_type : string) (now : Q)
| PostConfig (settings : Settings).

Definition handle (w : Orchestrator.World) (app : App) (request : Request)
  : App * list Message :=
  match request with
  | Audio ws audio_bytes lat => process_audio_stream ws w app audio_bytes lat
  | Control ws msg_type now => handle_control_message ws app msg_type now
  | PostConfig settings => (update_config app settings, [])
  end.

(** The requests of a run, in the order they are handled: the globals
    afterwards and all messages that went out. *)
Fixpoint serve (w : Orchestrator.World) (app : App) (requests : list Request)
  : App * list Message :=
  match requests with
  | [] => (app, [])
  | request :: rest =>
      let '(app', sent) := handle w app request in
      let '(app'', more) := serve w app' rest in
      (app'', sent ++ more)
  end.

End Main.

(** * Notions used in the statements *)

Module Notions.

(** The characters of a string that are not whitespace, in order. *)
Definition non_space (s : string) : list ascii :=
  List.filter (fun c => negb (PyStr.isspace c)) (PyStr.chars s).

(** A string that neither starts nor ends with a whitespace character. *)
Definition trimmed (s : string) : Prop :=
  (forall c, String.get 0 s = Some c -> PyStr.isspace c = false)
  /\ (forall c, PyStr.last s = Some c -> PyStr.isspace c = false).

(** A matcher that, like [difflib], rates a text against itself as 1 and
    reports the whole text as the first matching block. *)
Definition matches_itself `{SequenceMatcher} (t : string) : Prop :=
  (ratio t t == 1)%Q
  /\ exists rest,
       get_matching_blocks t t = mkMatch 0 0 (String.length t) :: rest.

End Notions.

(** * Concrete inputs

    The inputs the closed statements below are evaluated at. *)

Module Samples.

(** A default stabilizer fed two growing non-final hypotheses: the second
    call is judged stable and commits the common prefix. *)
Definition warm_stabilizer : Stabilizer.TextStabilizer :=
  fst (Stabilizer.process
         (fst (Stabilizer.process Stabilizer.default "hello world foo" false))
         "hello world foo bar" false).

(** A default stabilizer after one final transcription. *)
Definition finalized_stabilizer : Stabilizer.TextStabilizer :=
  fst (Stabilizer.process Stabilizer.default "hello world foo bar" true).

(** The phrase buffer of the specification's example: minimum phrase
    length 10, default delimiters. *)
Definition phrase_buffer_10 : PhraseBuffer.PhraseBuffer :=
  PhraseBuffer.init 10 PhraseBuffer.default_delimiters.

Definition after_first_add : PhraseBuffer.PhraseBuffer :=
  fst (PhraseBuffer.add phrase_buffer_10 "Hello world. How are").

Definition after_second_add : PhraseBuffer.PhraseBuffer :=
  fst (PhraseBuffer.add after_first_add "you?").

(** A line of text closed by a newline. *)
Definition line_of_text : string :=
  ("Hello world this is" ++ String PhraseBuffer.newline "")%string.

(** One 512-sample float32 chunk at amplitude 0.5, and one of digital
    silence. *)
Definition loud : ndarray := mkArray true (List.repeat (1 # 2)%Q 512).
Definition quiet : ndarray := mkArray true (List.repeat 0%Q 512).

(** The detector as [Config] sets it up by default (16 kHz, threshold 0.5,
    250 ms of speech, 300 ms of silence), without the Silero network. *)
Definition default_vad : Vad.VoiceActivityDetector :=
  Vad.init 16000 (1 # 2) 250 300 None.

(** [n] loud chunks, each followed by a quiet one. *)
Fixpoint interleaved (n : nat) : list ndarray :=
  match n with
  | O => []
  | S n' => loud :: quiet :: interleaved n'
  end.

(** Eight loud chunks and nine quiet ones: the detector is in speech, one
    silent chunk short of closing the segment. *)
Definition utterance : list ndarray :=
  List.repeat loud 8 ++ List.repeat quiet 9.

(** The values 1, 2, ..., [n]. *)
Definition one_to (n : nat) : list Q :=
  List.map (fun k => inject_Z (Z.of_nat k)) (List.seq 1 n).

(** A collector with window capacity 100, as the orchestrator builds it. *)
Definition collector : Metrics.MetricsCollector := Metrics.init 100 0.

(** The same after two samples, 1 and 3, of one metric. *)
Definition two_samples : Metrics.MetricsCollector :=
  Metrics.record_all collector "asr_latency" [1; 3]%Q.

(** The configuration [Config] builds when no environment variable is
    set. *)
Definition default_config : Orchestrator.Config :=
  Orchestrator.mkConfig true 16000 128 (1 # 2) 250 300 "en" "es".


(** A stand-in for the Silero network: it reports the first sample of
    the frame as the speech probability. *)
Definition first_sample_net (frame : list Q) : option Q :=
  Some (List.hd 0%Q frame).

(** A machine on which every model loads.  The models answer with fixed
    texts; nothing below depends on what they answer. *)
Definition healthy_world : Orchestrator.World :=
  Orchestrator.mkWorld (Some first_sample_net)
    (Return (fun _ lang => Return (Orchestrator.mkTranscription "hello" lang 1)))
    true (Return tt) (fun _ _ _ => Return "hola")
    true (Return (Some (fun _ => Return [Byte.x52; Byte.x49; Byte.x46; Byte.x46])))
    [Byte.x52; Byte.x49; Byte.x46; Byte.x46].

(** A machine on which every model loads and Argos answers with the
    text followed by the language pair it was asked for. *)
Definition polyglot_world : Orchestrator.World :=
  Orchestrator.mkWorld (Some first_sample_net)
    (Return (fun _ lang => Return (Orchestrator.mkTranscription "hello" lang 1)))
    true (Return tt)
    (fun txt source target =>
       Return (txt ++ " (" ++ source ++ " to " ++ target ++ ")")%string)
    true (Return (Some (fun _ => Return [Byte.x52; Byte.x49; Byte.x46; Byte.x46])))
    [Byte.x52; Byte.x49; Byte.x46; Byte.x46].

(** 512 samples of 16-bit little-endian PCM at full scale, 512 samples of
    silence, and what [bytes_to_array] makes of them. *)
Definition loud_bytes : list byte :=
  List.concat (List.repeat [Byte.xff; Byte.x7f] 512).
Definition quiet_bytes : list byte := List.repeat Byte.x00 1024.


(** Eight loud chunks and nine quiet ones, as bytes and as arrays. *)
Definition utterance_bytes : list (list byte) :=
  List.repeat loud_bytes 8 ++ List.repeat quiet_bytes 9.



Definition latencies : Orchestrator.Latencies :=
  Orchestrator.mkLatencies 1 100 50 100 251.

(** A loud chunk of 100 samples, too short for one detector frame. *)
Definition short_chunk : ndarray := mkArray true (List.repeat (1 # 2)%Q 100).

(** A machine on which Whisper, Argos and Piper all fail to load, the
    failures of Argos and Piper going through the [initialize] methods of
    their engines. *)
Definition failing_world : Orchestrator.World :=
  Orchestrator.mkWorld (Some first_sample_net)
    (Raise "whisper: model not found")
    true
    (Orchestrator.Translator_initialize true
       (Raise "argos: package index unreachable"))
    (fun _ _ _ => Raise "argos: no translation installed")
    true
    (Orchestrator.TTSEngine_initialize true (Return true)
       (Raise "piper: voice not found"))
    [Byte.x52; Byte.x49; Byte.x46; Byte.x46].

(** A connection that is open and on which every send succeeds. *)
Definition open_socket : Main.WebSocket := Main.mkWebSocket true (fun _ => true).

(** The application as [startup_event] leaves it on a machine on which
    every model loads. *)
Definition healthy_app : Main.App :=
  Main.startup_event healthy_world default_config 0 0.

(** A throughput tracker with a window of 60 seconds that has seen events
    at 0, 30 and 59 seconds. *)
Definition busy_tracker : ThroughputTracker.ThroughputTracker :=
  List.fold_left ThroughputTracker.record_event [0; 30; 59]%Q
    (ThroughputTracker.init 60).

(** The pipeline [initialize] builds on the machine on which every model
    loads. *)
Definition healthy_pipeline : Orchestrator.PipelineOrchestrator :=
  Orchestrator.initialize healthy_world (Orchestrator.init default_config 0).

(** The metrics of a bundle for a segment of 18 chunks, measured as
    [latencies]. *)
Definition bundle_metrics : Orchestrator.BundleMetrics :=
  Orchestrator.mkBundleMetrics 1 100 50 100 251 (9216000 # 16000) 1.

End Samples.

(** * Properties *)

(** ** Strings *)

Lemma take_is_prefix (n : nat) (s : string) : is_prefix (PyStr.take n s) s.
Proof.
  revert s; induction n as [|n IH]; intros [|c s]; simpl;
    try (eexists; reflexivity).
  destruct (IH s) as [rest Hrest].
  exists rest.
  change (String c s = String c (PyStr.take n s ++ rest)%string).
  f_equal. exact Hrest.
Qed.

Lemma slice_to_is_prefix (s : string) (k : Z) : is_prefix (PyStr.slice_to s k) s.
Proof. apply take_is_prefix. Qed.

Lemma empty_is_prefix (s : string) : is_prefix "" s.
Proof. exists s; reflexivity. Qed.

Lemma truthy_nonempty (s : string) : s <> "" -> PyStr.truthy s = true.
Proof. destruct s; [congruence | reflexivity]. Qed.

(** ** TextStabilizer *)

Section StabilizerFacts.
Context `{SequenceMatcher}.
Import Stabilizer.

Lemma find_stable_prefix_is_prefix (text1 text2 : string) :
  is_prefix (_find_stable_prefix text1 text2) text2.
Proof.
  unfold _find_stable_prefix.
  destruct (negb (PyStr.truthy text1) || negb (PyStr.truthy text2));
    [apply empty_is_prefix |].
  destruct (get_matching_blocks text1 text2) as [|first_block blocks];
    [apply empty_is_prefix |].
  destruct ((m_a first_block =? 0)%nat && (m_b first_block =? 0)%nat)%bool;
    [apply slice_to_is_prefix | apply empty_is_prefix].
Qed.

(** C2, as amended: for every stabilizer state and every non-empty input
    text, [process(text, is_final=True)] sets [stable_text] to exactly that
    text, resets [consecutive_stable_count] to 0 and returns that text as
    ['stable_text']. *)
Theorem process_final_sets_stable_text (self : TextStabilizer) (new_text : string) :
  new_text <> "" ->
  stable_text (fst (process self new_text true)) = new_text
  /\ consecutive_stable_count (fst (process self new_text true)) = 0%nat
  /\ r_stable_text (snd (process self new_text true)) = new_text.
Proof.
  intros Hne. unfold process.
  rewrite (truthy_nonempty _ Hne). simpl. auto.
Qed.

(** With the empty text the call returns before it looks at [is_final]:
    the state is untouched and the old [stable_text] is reported. *)
Lemma process_empty_keeps_state (self : TextStabilizer) (is_final : bool) :
  process self "" is_final
  = (self, mkResult (stable_text self) "" 1 true None).
Proof. reflexivity. Qed.

(** C9: for every stabilizer state and every non-empty input text,
    [process(text, is_final=True)] returns the empty string as
    ['incremental_text']: [stable_text] already holds the new text when
    the length for the slice is read. *)
Theorem process_final_incremental_empty (self : TextStabilizer) (new_text : string) :
  new_text <> "" ->
  r_incremental_text (snd (process self new_text true)) = "".
Proof.
  intros Hne. unfold process.
  rewrite (truthy_nonempty _ Hne). simpl.
  replace (PyStr.len new_text >? PyStr.len new_text) with false; [reflexivity |].
  rewrite Z.gtb_ltb. symmetry. apply Z.ltb_irrefl.
Qed.

(** C5, as amended: on a non-final call with a non-empty text the
    [stable_text] held after the call is the one returned, and it is
    either the [stable_text] held before the call or a prefix of the input
    text; it is a prefix of the input text whenever the call commits, that
    is when the counter has reached 2 or the common prefix is longer than
    the [stable_text] held before. *)
Theorem process_stable_text_prefix_when_committed
    (self : TextStabilizer) (new_text : string) :
  new_text <> "" ->
  let self' := fst (process self new_text false) in
  let result := snd (process self new_text false) in
  r_stable_text result = stable_text self'
  /\ (stable_text self' = stable_text self \/ is_prefix (stable_text self') new_text)
  /\ ((2 <= consecutive_stable_count self')%nat
      \/ PyStr.len (_find_stable_prefix (previous_text self) new_text)
         > PyStr.len (stable_text self) ->
      is_prefix (stable_text self') new_text).
Proof.
  intros Hne. unfold process.
  rewrite (truthy_nonempty _ Hne). cbn -[_find_stable_prefix _calculate_similarity Nat.leb].
  set (prefix := _find_stable_prefix (previous_text self) new_text).
  match goal with
  | |- context [if ?b then S ?n else 0%nat] =>
      set (count := if b then S n else 0%nat)
  end.
  pose proof (find_stable_prefix_is_prefix (previous_text self) new_text) as Hp.
  fold prefix in Hp.
  destruct ((2 <=? count)%nat) eqn:Hc; simpl.
  - repeat split; auto.
  - destruct (PyStr.len prefix >? PyStr.len (stable_text self)) eqn:Hl.
    + repeat split; auto.
    + repeat split; auto.
      intros [Hge | Hgt].
      * apply Nat.leb_gt in Hc. lia.
      * rewrite Z.gtb_ltb in Hl. apply Z.ltb_ge in Hl. lia.
Qed.

(** A stable verdict on a call whose predecessor was stable too always
    commits, so there the claim of C5 holds as the specification words
    it. *)
Lemma process_second_stable_is_prefix (self : TextStabilizer) (new_text : string) :
  new_text <> "" ->
  (1 <= consecutive_stable_count self)%nat ->
  r_is_stable (snd (process self new_text false)) = true ->
  is_prefix (stable_text (fst (process self new_text false))) new_text.
Proof.
  intros Hne Hcount Hstable.
  apply process_stable_text_prefix_when_committed; [assumption |].
  left. revert Hstable. unfold process.
  rewrite (truthy_nonempty _ Hne). cbn -[_find_stable_prefix _calculate_similarity Nat.leb].
  intros ->. lia.
Qed.

End StabilizerFacts.

(** The sample states are reachable, and are what they are meant to be. *)
Lemma warm_stabilizer_state :
  Stabilizer.reachable Samples.warm_stabilizer
  /\ Samples.warm_stabilizer
     = Stabilizer.mkStabilizer (85 # 100) 10 "hello world foo bar" "hello world foo" 1.
Proof.
  split; [| vm_compute; reflexivity].
  unfold Samples.warm_stabilizer.
  do 2 apply Stabilizer.reach_process. apply Stabilizer.reach_init.
Qed.

Lemma finalized_stabilizer_state :
  Stabilizer.reachable Samples.finalized_stabilizer
  /\ Samples.finalized_stabilizer
     = Stabilizer.mkStabilizer (85 # 100) 10 "hello world foo bar" "hello world foo bar" 0.
Proof.
  split; [| vm_compute; reflexivity].
  apply Stabilizer.reach_process, Stabilizer.reach_init.
Qed.

(** C2 fails on the empty text: a final call with [""] on a stabilizer
    holding ["hello world foo"] with counter 1 changes neither, and
    reports the old text. *)
Lemma process_final_empty_text_keeps_state :
  let after := Stabilizer.process Samples.warm_stabilizer "" true in
  Stabilizer.stable_text (fst after) = "hello world foo"
  /\ Stabilizer.stable_text (fst after) <> ""
  /\ Stabilizer.consecutive_stable_count (fst after) = 1%nat
  /\ Stabilizer.r_stable_text (snd after) = "hello world foo".
Proof. vm_compute. repeat split; discriminate. Qed.

Lemma process_final_sets_stable_text_witness :
  "hola" <> ""
  /\ Stabilizer.stable_text
       (fst (Stabilizer.process Samples.warm_stabilizer "hola" true)) = "hola"
  /\ Stabilizer.consecutive_stable_count
       (fst (Stabilizer.process Samples.warm_stabilizer "hola" true)) = 0%nat
  /\ Stabilizer.r_stable_text
       (snd (Stabilizer.process Samples.warm_stabilizer "hola" true)) = "hola".
Proof.
  split; [discriminate |].
  apply (process_final_sets_stable_text Samples.warm_stabilizer "hola").
  discriminate.
Defined.

Lemma process_final_incremental_empty_witness :
  "hola" <> ""
  /\ Stabilizer.r_incremental_text
       (snd (Stabilizer.process Samples.warm_stabilizer "hola" true)) = "".
Proof.
  split; [discriminate |].
  apply (process_final_incremental_empty Samples.warm_stabilizer "hola").
  discriminate.
Defined.

(** C5 fails in two ways.  After the final transcription
    ["hello world foo bar"], the non-final hypothesis
    ["hello world foo baz"] is judged stable (ratio 36/38, common prefix of
    18 characters) but does not commit, the counter being 1 and the prefix
    shorter than the 19 characters held: [stable_text] stays
    ["hello world foo bar"], which is no prefix of the input.  And the empty
    hypothesis is answered with [is_stable] true and the old
    [stable_text]. *)
Lemma process_stable_text_not_prefix :
  let after := Stabilizer.process Samples.finalized_stabilizer "hello world foo baz" false in
  let after_empty := Stabilizer.process Samples.finalized_stabilizer "" false in
  Stabilizer.r_is_stable (snd after) = true
  /\ Stabilizer.stable_text (fst after) = "hello world foo bar"
  /\ Stabilizer.r_stable_text (snd after) = "hello world foo bar"
  /\ ~ is_prefix (Stabilizer.stable_text (fst after)) "hello world foo baz"
  /\ Stabilizer.r_is_stable (snd after_empty) = true
  /\ ~ is_prefix (Stabilizer.stable_text (fst after_empty)) "".
Proof.
  vm_compute.
  repeat split; intros [rest Hrest]; discriminate Hrest.
Qed.

Lemma process_stable_text_prefix_when_committed_witness :
  let self := Samples.warm_stabilizer in
  let new_text := "hello world foo bar baz" in
  new_text <> ""
  /\ Stabilizer.r_is_stable (snd (Stabilizer.process self new_text false)) = true
  /\ Stabilizer.stable_text (fst (Stabilizer.process self new_text false))
     = "hello world foo bar"
  /\ is_prefix (Stabilizer.stable_text (fst (Stabilizer.process self new_text false)))
       new_text.
Proof.
  intros self new_text.
  assert (Hne : new_text <> "") by discriminate.
  split; [exact Hne |].
  split; [vm_compute; reflexivity |].
  split; [vm_compute; reflexivity |].
  apply (process_stable_text_prefix_when_committed self new_text Hne).
  left. vm_compute. lia.
Defined.

(** ** String indexing *)

Lemma len_nonneg (s : string) : 0 <= PyStr.len s.
Proof. unfold PyStr.len. lia. Qed.

Lemma len_cons (c : ascii) (s : string) :
  PyStr.len (String c s) = PyStr.len s + 1.
Proof. unfold PyStr.len. simpl String.length. lia. Qed.

Lemma get_head (c : ascii) (s : string) : PyStr.get (String c s) 0 = Some c.
Proof. reflexivity. Qed.

Lemma get_tail (c : ascii) (s : string) (i : Z) :
  0 <= i -> PyStr.get (String c s) (i + 1) = PyStr.get s i.
Proof.
  intros Hi. unfold PyStr.get.
  destruct (i + 1 <? 0) eqn:H1; [apply Z.ltb_lt in H1; lia |].
  destruct (i <? 0) eqn:H0; [apply Z.ltb_lt in H0; lia |].
  replace (Z.to_nat (i + 1)) with (S (Z.to_nat i)) by lia.
  reflexivity.
Qed.

Lemma get_in_range (s : string) (i : Z) (c : ascii) :
  PyStr.get s i = Some c -> 0 <= i < PyStr.len s.
Proof.
  unfold PyStr.get. destruct (i <? 0) eqn:H0; [discriminate |].
  apply Z.ltb_ge in H0. intros Hget. split; [assumption |].
  assert (Hlt : (Z.to_nat i < String.length s)%nat).
  { clear H0. revert s Hget. generalize (Z.to_nat i) as n.
    induction n as [|n IH]; intros [|d s] Hget; simpl in *;
      try discriminate; [lia |].
    apply IH in Hget. lia. }
  unfold PyStr.len. lia.
Qed.

(** ** [rfind] *)

Lemma rfind_from_cases (s : string) (c : ascii) (i best : Z) :
  PyStr.rfind_from i s c best = best
  \/ (i <= PyStr.rfind_from i s c best < i + PyStr.len s
      /\ PyStr.get s (PyStr.rfind_from i s c best - i) = Some c).
Proof.
  revert i best. induction s as [|d s IH]; intros i best; simpl.
  - left; reflexivity.
  - rewrite len_cons.
    destruct (IH (i + 1) (if Ascii.eqb d c then i else best))
      as [Hkeep | [Hrange Hget]].
    + rewrite Hkeep. destruct (Ascii.eqb d c) eqn:Hd; [| left; reflexivity].
      right. split; [pose proof (len_nonneg s); lia |].
      apply Ascii.eqb_eq in Hd. subst d.
      replace (i - i) with 0 by lia. apply get_head.
    + right. split; [lia |].
      set (r := PyStr.rfind_from _ _ _ _) in *.
      replace (r - i) with (r - (i + 1) + 1) by lia.
      rewrite get_tail by lia. exact Hget.
Qed.

Lemma rfind_from_highest (s : string) (c : ascii) (i best k : Z) :
  best < i ->
  PyStr.get s k = Some c ->
  i + k <= PyStr.rfind_from i s c best.
Proof.
  revert i best k. induction s as [|d s IH]; intros i best k Hbest Hget.
  - apply get_in_range in Hget. unfold PyStr.len in Hget. simpl in Hget. lia.
  - simpl. pose proof (get_in_range _ _ _ Hget) as Hk.
    destruct (Z.eq_dec k 0) as [-> | Hk0].
    + rewrite get_head in Hget. injection Hget as ->.
      rewrite Ascii.eqb_refl.
      destruct (rfind_from_cases s c (i + 1) i) as [-> | [Hr _]]; lia.
    + replace k with (k - 1 + 1) in Hget by lia.
      rewrite get_tail in Hget by lia.
      specialize (IH (i + 1) (if Ascii.eqb d c then i else best) (k - 1)).
      assert ((if Ascii.eqb d c then i else best) < i + 1)
        by (destruct (Ascii.eqb d c); lia).
      specialize (IH ltac:(assumption) Hget). lia.
Qed.

Lemma rfind_cases (s : string) (c : ascii) :
  PyStr.rfind s c = -1
  \/ (0 <= PyStr.rfind s c < PyStr.len s
      /\ PyStr.get s (PyStr.rfind s c) = Some c).
Proof.
  unfold PyStr.rfind.
  destruct (rfind_from_cases s c 0 (-1)) as [H | [Hr Hget]]; [left; exact H |].
  right. rewrite Z.sub_0_r in Hget. split; [lia | exact Hget].
Qed.

Lemma rfind_highest (s : string) (c : ascii) (k : Z) :
  PyStr.get s k = Some c -> k <= PyStr.rfind s c.
Proof.
  intros Hget. unfold PyStr.rfind.
  pose proof (rfind_from_highest s c 0 (-1) k ltac:(lia) Hget). lia.
Qed.

(** ** [strip] and the last character *)

Lemma last_cons (c d : ascii) (s : string) :
  PyStr.last (String c (String d s)) = PyStr.last (String d s).
Proof. reflexivity. Qed.

Lemma last_take_succ (s : string) (n : nat) (c : ascii) :
  String.get n s = Some c -> PyStr.last (PyStr.take (S n) s) = Some c.
Proof.
  revert n. induction s as [|d s IH]; intros n Hget; [discriminate |].
  destruct n as [|n]; simpl in Hget.
  - injection Hget as ->. destruct s; reflexivity.
  - specialize (IH n Hget).
    change (PyStr.take (S (S n)) (String d s))
      with (String d (PyStr.take (S n) s)).
    destruct s as [|e s]; [discriminate |].
    change (PyStr.take (S n) (String e s)) with (String e (PyStr.take n s)) in *.
    rewrite last_cons. exact IH.
Qed.

Lemma last_lstrip (s : string) (c : ascii) :
  PyStr.last s = Some c -> PyStr.isspace c = false ->
  PyStr.last (PyStr.lstrip s) = Some c.
Proof.
  intros Hlast Hc. induction s as [|d s IH]; [discriminate |].
  simpl PyStr.lstrip. destruct (PyStr.isspace d) eqn:Hd; [| exact Hlast].
  destruct s as [|e s].
  - simpl in Hlast. congruence.
  - apply IH. rewrite last_cons in Hlast. exact Hlast.
Qed.

Lemma rstrip_id (s : string) (c : ascii) :
  PyStr.last s = Some c -> PyStr.isspace c = false -> PyStr.rstrip s = s.
Proof.
  intros Hlast Hc. induction s as [|d s IH]; [reflexivity |].
  destruct s as [|e s].
  - simpl in *. injection Hlast as ->. rewrite Hc. reflexivity.
  - rewrite last_cons in Hlast. specialize (IH Hlast).
    change (PyStr.rstrip (String d (String e s)))
      with (match PyStr.rstrip (String e s) with
            | EmptyString =>
                if PyStr.isspace d then EmptyString else String d EmptyString
            | r => String d r
            end).
    rewrite IH. reflexivity.
Qed.

Lemma last_strip (s : string) (c : ascii) :
  PyStr.last s = Some c -> PyStr.isspace c = false ->
  PyStr.last (PyStr.strip s) = Some c.
Proof.
  intros Hlast Hc. unfold PyStr.strip.
  pose proof (last_lstrip s c Hlast Hc) as Hl.
  rewrite (rstrip_id _ c Hl Hc). exact Hl.
Qed.

(** ** PhraseBuffer *)

Section PhraseBufferFacts.
Import PhraseBuffer.

Lemma scan_delimiters_cases (buf : string) (delimiters : list ascii) (start : Z) :
  start <= scan_delimiters buf delimiters start
  /\ (scan_delimiters buf delimiters start = start
      \/ exists d, In d delimiters
                   /\ scan_delimiters buf delimiters start = PyStr.rfind buf d)
  /\ (forall d, In d delimiters ->
        PyStr.rfind buf d <= scan_delimiters buf delimiters start).
Proof.
  revert start. induction delimiters as [|d rest IH]; intros start; simpl.
  - split; [lia |]. split; [left; reflexivity | intros d []].
  - set (next := if PyStr.rfind buf d >? start then PyStr.rfind buf d else start).
    assert (Hnext : start <= next /\ PyStr.rfind buf d <= next
                    /\ (next = start \/ next = PyStr.rfind buf d)).
    { unfold next. destruct (PyStr.rfind buf d >? start) eqn:Hgt.
      - apply Z.gtb_lt in Hgt. lia.
      - rewrite Z.gtb_ltb in Hgt. apply Z.ltb_ge in Hgt. lia. }
    destruct Hnext as (Hle & Hd & Hor).
    destruct (IH next) as (Hmono & Hcase & Hmax).
    split; [lia |]. split.
    + destruct Hcase as [Heq | (e & He & Heq)].
      * destruct Hor as [Hs | Hr].
        -- left. lia.
        -- right. exists d. split; [left; reflexivity | lia].
      * right. exists e. split; [right; exact He | exact Heq].
    + intros e [<- | He]; [lia | apply Hmax; exact He].
Qed.

Lemma is_delimiter_In (self : PhraseBuffer) (c : ascii) :
  is_delimiter self c = true <-> In c (PyStr.chars (phrase_delimiters self)).
Proof.
  unfold is_delimiter. rewrite existsb_exists. split.
  - intros (d & Hd & Heq). apply Ascii.eqb_eq in Heq. subst d. exact Hd.
  - intros Hc. exists c. split; [exact Hc | apply Ascii.eqb_refl].
Qed.

(** What a split looks like: it happens at the right-most delimiter of the
    buffer, which sits at or beyond the minimum phrase length. *)
Lemma add_emits_inversion (self : PhraseBuffer) (text phrase : string) :
  snd (add self text) = Some phrase ->
  let buf := (buffer self ++ text)%string in
  let pos := last_delimiter self buf in
  min_phrase_length self <= pos
  /\ phrase = PyStr.strip (PyStr.slice_to buf (pos + 1))
  /\ buffer (fst (add self text)) = PyStr.strip (PyStr.slice_from buf (pos + 1)).
Proof.
  intros Hemit buf pos. revert Hemit. unfold add. fold buf. fold pos.
  destruct (PyStr.len buf >=? min_phrase_length self); [| discriminate].
  destruct (pos >=? min_phrase_length self) eqn:Hpos; [| discriminate].
  simpl. intros [= <-]. apply Z.geb_le in Hpos. auto.
Qed.

(** C6, as amended: with a non-negative minimum phrase length, every
    phrase [add] emits is the trimmed prefix of the pre-split buffer up to
    and including its right-most delimiter; the index of that delimiter is
    at least the minimum phrase length, the trimmed remainder stays in the
    buffer, and the phrase ends with that delimiter provided the delimiter
    is not a whitespace character. *)
Theorem add_emits_up_to_last_delimiter
    (self : PhraseBuffer) (text phrase : string) :
  0 <= min_phrase_length self ->
  snd (add self text) = Some phrase ->
  let buf := (buffer self ++ text)%string in
  exists (pos : Z) (delimiter : ascii),
    min_phrase_length self <= pos
    /\ PyStr.get buf pos = Some delimiter
    /\ is_delimiter self delimiter = true
    /\ (forall i d, pos < i -> PyStr.get buf i = Some d ->
          is_delimiter self d = false)
    /\ phrase = PyStr.strip (PyStr.slice_to buf (pos + 1))
    /\ buffer (fst (add self text)) = PyStr.strip (PyStr.slice_from buf (pos + 1))
    /\ (PyStr.isspace delimiter = false -> PyStr.last phrase = Some delimiter).
Proof.
  intros Hmin Hemit buf.
  destruct (add_emits_inversion self text phrase Hemit)
    as (Hpos & Hphrase & Hrest).
  fold buf in Hpos, Hphrase, Hrest.
  set (pos := last_delimiter self buf) in *.
  destruct (scan_delimiters_cases buf (PyStr.chars (phrase_delimiters self)) (-1))
    as (_ & Hcase & Hmax).
  fold (last_delimiter self buf) in Hcase, Hmax. fold pos in Hcase, Hmax.
  destruct Hcase as [Hnone | (d & Hd & Hfound)]; [lia |].
  destruct (rfind_cases buf d) as [Hmiss | (Hrange & Hget)]; [lia |].
  rewrite <- Hfound in Hrange, Hget.
  exists pos, d. repeat split; try assumption.
  - apply is_delimiter_In; exact Hd.
  - intros i e Hi Hgete.
    destruct (is_delimiter self e) eqn:He; [| reflexivity].
    apply is_delimiter_In in He.
    pose proof (rfind_highest buf e i Hgete). pose proof (Hmax e He). lia.
  - intros Hspace. rewrite Hphrase. apply last_strip; [| exact Hspace].
    unfold PyStr.slice_to, PyStr.bound.
    destruct (pos + 1 <? 0) eqn:Hneg; [apply Z.ltb_lt in Hneg; lia |].
    rewrite Z.min_r by lia.
    replace (Z.to_nat (pos + 1)) with (S (Z.to_nat pos)) by lia.
    apply last_take_succ.
    unfold PyStr.get in Hget.
    destruct (pos <? 0) eqn:Hp; [discriminate | exact Hget].
Qed.

End PhraseBufferFacts.

(** C3, as amended: from an empty buffer with minimum phrase length 10,
    [add("Hello world. How are")] emits ["Hello world."] and keeps
    ["How are"]; [add("you?")] then emits ["How areyou?"], the question
    mark of the joined buffer sitting at index 10, and leaves the buffer
    empty, so [flush()] returns the empty string. *)
Theorem phrase_buffer_example :
  PhraseBuffer.add Samples.phrase_buffer_10 "Hello world. How are"
  = (PhraseBuffer.with_buffer Samples.phrase_buffer_10 "How are", Some "Hello world.")
  /\ PhraseBuffer.add Samples.after_first_add "you?"
     = (PhraseBuffer.with_buffer Samples.phrase_buffer_10 "", Some "How areyou?")
  /\ PyStr.rfind "How areyou?" "?" = 10
  /\ snd (PhraseBuffer.flush Samples.after_second_add) = "".
Proof. vm_compute. repeat split. Qed.

(** C3 as the specification states it does not hold: the second call
    emits a phrase and nothing is left for [flush]. *)
Lemma phrase_buffer_second_add_emits :
  ~ (snd (PhraseBuffer.add Samples.phrase_buffer_10 "Hello world. How are")
     = Some "Hello world."
     /\ snd (PhraseBuffer.add Samples.after_first_add "you?") = None
     /\ snd (PhraseBuffer.flush Samples.after_second_add) = "How are you?").
Proof. vm_compute. intros (_ & Hsecond & _). discriminate Hsecond. Qed.

(** Nor does it with a separating space in the second chunk. *)
Lemma phrase_buffer_second_add_emits_spaced :
  PhraseBuffer.add Samples.after_first_add " you?"
  = (PhraseBuffer.with_buffer Samples.phrase_buffer_10 "", Some "How are you?").
Proof. vm_compute. reflexivity. Qed.

(** C6 fails where the split happens at a newline, which is a default
    delimiter and is trimmed off the phrase: the phrase emitted for
    ["Hello world this is\n"] ends with the letter s.  It also fails for a
    negative minimum phrase length, where a buffer without any delimiter
    emits the empty phrase. *)
Lemma add_phrase_without_final_delimiter :
  exists phrase,
    snd (PhraseBuffer.add Samples.phrase_buffer_10 Samples.line_of_text) = Some phrase
    /\ phrase = "Hello world this is"
    /\ PyStr.last phrase = Some "s"%char
    /\ PhraseBuffer.is_delimiter Samples.phrase_buffer_10 "s" = false
    /\ snd (PhraseBuffer.add (PhraseBuffer.init (-1) PhraseBuffer.default_delimiters) "abc")
       = Some "".
Proof. eexists. vm_compute. repeat split. Qed.

Lemma add_emits_up_to_last_delimiter_witness :
  0 <= PhraseBuffer.min_phrase_length Samples.phrase_buffer_10
  /\ snd (PhraseBuffer.add Samples.phrase_buffer_10 "Hello world. How are")
     = Some "Hello world."
  /\ exists (pos : Z) (delimiter : ascii),
       10 <= pos
       /\ PyStr.get "Hello world. How are" pos = Some delimiter
       /\ PhraseBuffer.is_delimiter Samples.phrase_buffer_10 delimiter = true
       /\ (PyStr.isspace delimiter = false ->
           PyStr.last "Hello world." = Some delimiter).
Proof.
  assert (Hmin : 0 <= PhraseBuffer.min_phrase_length Samples.phrase_buffer_10)
    by (vm_compute; discriminate).
  assert (Hemit : snd (PhraseBuffer.add Samples.phrase_buffer_10 "Hello world. How are")
                  = Some "Hello world.") by (vm_compute; reflexivity).
  split; [exact Hmin |]. split; [exact Hemit |].
  destruct (add_emits_up_to_last_delimiter _ _ _ Hmin Hemit)
    as (pos & delimiter & Hpos & Hget & Hdel & _ & _ & _ & Hlast).
  exists pos, delimiter. auto.
Defined.

(** ** VoiceActivityDetector *)

Section VadFacts.
Import Vad.

Lemma trailing_snoc (b x : bool) (l : list bool) :
  trailing b (l ++ [x]) = if Bool.eqb x b then 1 + trailing b l else 0.
Proof. unfold trailing. rewrite rev_app_distr. reflexivity. Qed.

Lemma trailing_nonneg (b : bool) (l : list bool) : 0 <= trailing b l.
Proof.
  unfold trailing. induction (List.rev l) as [|x r IH]; simpl; [lia |].
  destruct (Bool.eqb x b); lia.
Qed.

Lemma run_snoc (self : VoiceActivityDetector) (chunks : list ndarray) (c : ndarray) :
  run self (chunks ++ [c]) = fst (process (run self chunks) c).
Proof. unfold run. rewrite fold_left_app. reflexivity. Qed.

Lemma verdicts_snoc (self : VoiceActivityDetector) (chunks : list ndarray) (c : ndarray) :
  verdicts self (chunks ++ [c])
  = verdicts self chunks ++ [is_speech_detected self (to_float32 c)].
Proof. unfold verdicts. rewrite List.map_app. reflexivity. Qed.

Lemma update_same_setup (self : VoiceActivityDetector) (d : bool) (c : ndarray) :
  same_setup self (fst (update self d c)).
Proof.
  unfold update, same_setup.
  destruct d; [simpl; auto 6 |].
  destruct (is_speaking self); [| simpl; auto 6].
  destruct (_ >=? _); simpl; auto 6.
Qed.

Lemma run_same_setup (self : VoiceActivityDetector) (chunks : list ndarray) :
  same_setup self (run self chunks).
Proof.
  induction chunks as [|c chunks IH] using rev_ind.
  - unfold same_setup; simpl; auto 6.
  - rewrite run_snoc. unfold process.
    pose proof (update_same_setup (run self chunks)
                  (is_speech_detected (run self chunks) (to_float32 c))
                  (to_float32 c)) as Hstep.
    unfold same_setup in *. intuition congruence.
Qed.

Lemma is_speech_detected_same_setup (v v' : VoiceActivityDetector) (c : ndarray) :
  same_setup v v' -> is_speech_detected v' c = is_speech_detected v c.
Proof.
  intros (Hrate & Hthr & _ & _ & Hmodel).
  unfold is_speech_detected, vad_frame_size. rewrite Hrate.
  f_equal. unfold _detect_speech, vad_frame_size.
  rewrite Hrate, Hthr, Hmodel. reflexivity.
Qed.

(** The step [process] takes after [chunks], in terms of the verdict on
    the new chunk. *)
Lemma process_after_run (self : VoiceActivityDetector) (chunks : list ndarray)
    (c : ndarray) :
  process (run self chunks) c
  = update (run self chunks) (is_speech_detected self (to_float32 c)) (to_float32 c).
Proof.
  unfold process.
  rewrite (is_speech_detected_same_setup self (run self chunks))
    by apply run_same_setup.
  reflexivity.
Qed.

(** C10: whenever [process] returns a completed segment, the first
    component of the returned pair is [True], although the chunk of that
    very call was classified as silence. *)
Theorem process_segment_reports_speech
    (self : VoiceActivityDetector) (audio_chunk segment : ndarray) (is_speech : bool) :
  snd (process self audio_chunk) = (is_speech, Some segment) ->
  is_speech = true
  /\ is_speech_detected self (to_float32 audio_chunk) = false.
Proof.
  unfold process, update.
  destruct (is_speech_detected self (to_float32 audio_chunk));
    [simpl; discriminate |].
  destruct (is_speaking self); [| simpl; discriminate].
  destruct (_ >=? _); simpl; [| discriminate].
  intros [= <- _]. auto.
Qed.

(** The counters against the history of verdicts: starting from the reset
    state, [silence_frames] never exceeds the number of silent chunks that
    end the history, and [speech_frames] never exceeds the number of
    speech chunks in it. *)
Lemma counters_bounded (self : VoiceActivityDetector) (chunks : list ndarray) :
  silence_frames self = 0 -> speech_frames self = 0 ->
  0 <= silence_frames (run self chunks)
       <= trailing false (verdicts self chunks)
  /\ 0 <= speech_frames (run self chunks)
          <= speech_count (verdicts self chunks).
Proof.
  intros Hsil Hsp.
  induction chunks as [|c chunks IH] using rev_ind.
  - simpl. rewrite Hsil, Hsp. unfold trailing, speech_count; simpl. lia.
  - rewrite run_snoc, verdicts_snoc, trailing_snoc, process_after_run.
    unfold speech_count in *. rewrite List.filter_app, List.length_app.
    pose proof (trailing_nonneg false (verdicts self chunks)).
    unfold update.
    destruct (is_speech_detected self (to_float32 c)); simpl.
    + lia.
    + destruct (is_speaking (run self chunks)); [| simpl; lia].
      destruct (_ >=? _); simpl; lia.
Qed.

(** X25, the half of C1 that holds: from the reset state, a segment is closed
    only by a chunk that completes a run of at least [min_silence_frames]
    consecutive silent chunks. *)
Lemma closure_needs_consecutive_silence
    (self : VoiceActivityDetector) (chunks : list ndarray) (c : ndarray) :
  silence_frames self = 0 -> speech_frames self = 0 ->
  is_speaking (run self chunks) = true ->
  is_speaking (run self (chunks ++ [c])) = false ->
  min_silence_frames self <= trailing false (verdicts self (chunks ++ [c])).
Proof.
  intros Hsil Hsp Hbefore Hafter.
  destruct (counters_bounded self chunks Hsil Hsp) as [Hsilence _].
  destruct (run_same_setup self chunks) as (_ & _ & _ & Hmin & _).
  rewrite run_snoc, process_after_run in Hafter.
  rewrite verdicts_snoc, trailing_snoc.
  unfold update in Hafter. rewrite Hbefore in Hafter.
  destruct (is_speech_detected self (to_float32 c)); simpl in Hafter;
    [discriminate |].
  destruct (_ >=? _) eqn:Hclose; simpl in Hafter; [| discriminate].
  apply Z.geb_le in Hclose. simpl. lia.
Qed.

(** X26, what the onset does guarantee: at least [min_speech_frames] speech
    chunks have been seen, consecutive or not. *)
Lemma onset_needs_speech_chunks
    (self : VoiceActivityDetector) (chunks : list ndarray) (c : ndarray) :
  silence_frames self = 0 -> speech_frames self = 0 ->
  is_speaking (run self chunks) = false ->
  is_speaking (run self (chunks ++ [c])) = true ->
  min_speech_frames self <= speech_count (verdicts self (chunks ++ [c])).
Proof.
  intros Hsil Hsp Hbefore Hafter.
  destruct (counters_bounded self chunks Hsil Hsp) as [_ Hspeech].
  destruct (run_same_setup self chunks) as (_ & _ & Hmin & _ & _).
  rewrite run_snoc, process_after_run in Hafter.
  unfold speech_count in *.
  rewrite verdicts_snoc, List.filter_app, List.length_app.
  unfold update in Hafter. rewrite Hbefore in Hafter.
  destruct (is_speech_detected self (to_float32 c)); simpl in Hafter;
    [| discriminate].
  destruct (_ >=? _) eqn:Honset; simpl in Hafter; [| discriminate].
  apply Z.geb_le in Honset. simpl. lia.
Qed.

End VadFacts.

(** C1 against the code: with the default setup ([min_speech_frames] = 8),
    seven loud chunks each followed by a quiet one leave the detector in
    silence, and an eighth loud chunk switches it to speech, although the
    run of consecutive speech chunks it completes has length 1.  The branch
    for a silent chunk never resets [speech_frames]. *)
Theorem onset_after_interleaved_speech :
  let history := Samples.interleaved 7 in
  Vad.min_speech_frames Samples.default_vad = 8
  /\ Vad.verdicts Samples.default_vad [Samples.loud; Samples.quiet] = [true; false]
  /\ Vad.is_speaking (Vad.run Samples.default_vad history) = false
  /\ Vad.speech_frames (Vad.run Samples.default_vad history) = 7
  /\ Vad.is_speaking (Vad.run Samples.default_vad (history ++ [Samples.loud])) = true
  /\ Vad.trailing true (Vad.verdicts Samples.default_vad (history ++ [Samples.loud])) = 1.
Proof. vm_compute. repeat split. Qed.

Lemma closure_needs_consecutive_silence_witness :
  Vad.is_speaking (Vad.run Samples.default_vad Samples.utterance) = true
  /\ Vad.is_speaking (Vad.run Samples.default_vad (Samples.utterance ++ [Samples.quiet]))
     = false
  /\ Vad.min_silence_frames Samples.default_vad
     <= Vad.trailing false
          (Vad.verdicts Samples.default_vad (Samples.utterance ++ [Samples.quiet])).
Proof.
  assert (Hin : Vad.is_speaking (Vad.run Samples.default_vad Samples.utterance) = true)
    by (vm_compute; reflexivity).
  assert (Hout : Vad.is_speaking
                   (Vad.run Samples.default_vad (Samples.utterance ++ [Samples.quiet]))
                 = false) by (vm_compute; reflexivity).
  split; [exact Hin |]. split; [exact Hout |].
  apply closure_needs_consecutive_silence;
    [reflexivity | reflexivity | exact Hin | exact Hout].
Defined.

Lemma process_segment_reports_speech_witness :
  let self := Vad.run Samples.default_vad Samples.utterance in
  let segment := np_concatenate (Samples.utterance ++ [Samples.quiet]) in
  snd (Vad.process self Samples.quiet) = (true, Some segment)
  /\ Vad.is_speech_detected self (Vad.to_float32 Samples.quiet) = false.
Proof.
  intros self segment.
  assert (Hret : snd (Vad.process self Samples.quiet) = (true, Some segment))
    by (vm_compute; reflexivity).
  split; [exact Hret |].
  apply (process_segment_reports_speech self Samples.quiet segment true Hret).
Defined.

(** ** Sorting *)

Lemma insert_sorted_perm (x : Q) (l : list Q) :
  Permutation (insert_sorted x l) (x :: l).
Proof.
  induction l as [|y l IH]; simpl; [reflexivity |].
  destruct (Qle_bool y x); [| reflexivity].
  rewrite IH. apply perm_swap.
Qed.

Lemma insert_sorted_sorted (x : Q) (l : list Q) :
  StronglySorted Qle l -> StronglySorted Qle (insert_sorted x l).
Proof.
  induction 1 as [|y l Hl IH Hy]; simpl.
  - repeat constructor.
  - destruct (Qle_bool y x) eqn:Hyx.
    + constructor; [exact IH |].
      apply Qle_bool_iff in Hyx.
      eapply Permutation_Forall; [symmetry; apply insert_sorted_perm |].
      constructor; assumption.
    + assert (Hxy : (x <= y)%Q).
      { destruct (Qlt_le_dec x y) as [Hlt | Hle]; [apply Qlt_le_weak, Hlt |].
        apply Qle_bool_iff in Hle. congruence. }
      constructor; [constructor; assumption |].
      constructor; [exact Hxy |].
      eapply List.Forall_impl; [| exact Hy].
      intros z Hz. eapply Qle_trans; eassumption.
Qed.

Lemma sorted_perm (values : list Q) : Permutation (sorted values) values.
Proof.
  unfold sorted. rewrite (Permutation_rev values) at 2.
  induction (List.rev values) as [|x l IH]; simpl; [reflexivity |].
  rewrite insert_sorted_perm, IH. reflexivity.
Qed.

Lemma sorted_sorted (values : list Q) : StronglySorted Qle (sorted values).
Proof.
  unfold sorted.
  induction (List.rev values) as [|x l IH]; simpl; [constructor |].
  apply insert_sorted_sorted, IH.
Qed.

Lemma sorted_length (values : list Q) :
  List.length (sorted values) = List.length values.
Proof. apply Permutation_length, sorted_perm. Qed.

(** ** Subscripts and truncation *)

Lemma py_getitem_nth {A : Type} (l : list A) (i : Z) (d : A) :
  0 <= i < Z.of_nat (List.length l) ->
  py_getitem l i = Return (nth (Z.to_nat i) l d).
Proof.
  intros Hi. unfold py_getitem.
  destruct (i <? 0) eqn:Hneg; [apply Z.ltb_lt in Hneg; lia |].
  destruct (Z.of_nat (List.length l) <=? i) eqn:Hbig;
    [apply Z.leb_le in Hbig; lia |].
  rewrite Hneg. simpl.
  destruct (nth_error l (Z.to_nat i)) as [x|] eqn:Hnth.
  - f_equal. symmetry. apply nth_error_nth. exact Hnth.
  - apply nth_error_None in Hnth. lia.
Qed.

Lemma py_int_floor (x : Q) : (0 <= x)%Q -> py_int x = Qfloor x.
Proof.
  destruct x as [num den]. unfold Qle, py_int, Qfloor. simpl.
  intros Hnum. apply Z.quot_div_nonneg; lia.
Qed.

Lemma Qfloor_nonneg (x : Q) : (0 <= x)%Q -> 0 <= Qfloor x.
Proof.
  intros Hx. change 0 with (Qfloor 0). apply Qfloor_resp_le. exact Hx.
Qed.

(** ** MetricsCollector *)

Section MetricsFacts.
Import Metrics.

Lemma Qlen_nonneg (values : list Q) : (0 <= Statistics.Qlen values)%Q.
Proof.
  unfold Statistics.Qlen. change 0%Q with (inject_Z 0).
  rewrite <- Zle_Qle. lia.
Qed.

(** For every window of up to 2000 samples the index [_percentile]
    computes in binary64 is the one the exact product gives. *)
Lemma percentile_index_binary64 : Binary64.agrees_below 2001 = true.
Proof. vm_compute. reflexivity. Qed.

(** [_percentile] does not raise for a percentile that is not negative,
    and returns what the specification describes. *)
Lemma percentile_nearest_rank (values : list Q) (p : Q) :
  values <> [] -> (0 <= p)%Q ->
  _percentile values p = Return (nearest_rank values p).
Proof.
  intros Hne Hp. unfold _percentile, nearest_rank.
  destruct values as [|v values]; [congruence |].
  set (window := v :: values) in *.
  set (n := List.length (sorted window)).
  assert (Hn : (0 < n)%nat).
  { unfold n. rewrite sorted_length. simpl. lia. }
  set (x := (inject_Z (Z.of_nat n) * p)%Q).
  assert (Hx : (0 <= x)%Q).
  { unfold x. apply Qmult_le_0_compat; [| exact Hp].
    change 0%Q with (inject_Z 0). rewrite <- Zle_Qle. lia. }
  rewrite (py_int_floor x Hx).
  pose proof (Qfloor_nonneg x Hx) as Hfloor.
  rewrite (py_getitem_nth _ _ 0%Q) by (fold n; lia).
  do 2 f_equal. lia.
Qed.

Lemma median_returns (values : list Q) :
  values <> [] -> exists m, Statistics.median values = Return m.
Proof.
  intros Hne. unfold Statistics.median.
  set (data := sorted values).
  assert (Hn : 0 < Z.of_nat (List.length data)).
  { unfold data. rewrite sorted_length. destruct values; [congruence | simpl; lia]. }
  set (n := Z.of_nat (List.length data)) in *.
  destruct (n =? 0) eqn:H0; [apply Z.eqb_eq in H0; lia |].
  destruct (n mod 2 =? 1) eqn:Hodd.
  - rewrite (py_getitem_nth _ _ 0%Q); [eexists; reflexivity |].
    fold n. split; [apply Z.div_pos; lia | apply Z.div_lt; lia].
  - apply Z.eqb_neq in Hodd.
    assert (Hhalf : 1 <= n / 2 < n).
    { pose proof (Z.div_mod n 2 ltac:(lia)).
      pose proof (Z.mod_pos_bound n 2 ltac:(lia)). lia. }
    rewrite (py_getitem_nth _ _ 0%Q) by (fold n; lia).
    rewrite (py_getitem_nth _ _ 0%Q) by (fold n; lia).
    eexists; reflexivity.
Qed.

(** [get_stats] on a metric whose window holds a sample. *)
Lemma get_stats_nonempty (self : MetricsCollector) (name : string) (window : list Q) :
  metrics self !! name = Some window -> window <> [] ->
  exists st,
    get_stats self name = Return (Some st)
    /\ stdev st = (if (1 <? List.length window)%nat
                   then Statistics.stdev window else 0%R)
    /\ count st = List.length window
    /\ p95 st = nearest_rank window (95 # 100)
    /\ p99 st = nearest_rank window (99 # 100).
Proof.
  intros Hlookup Hne. unfold get_stats. rewrite Hlookup.
  destruct window as [|first rest]; [congruence |].
  destruct (median_returns (first :: rest) Hne) as [m ->].
  rewrite !percentile_nearest_rank by (assumption || discriminate).
  eexists. split; [reflexivity |]. simpl. auto.
Qed.

(** Sample and population variance of the same data differ by the factor
    [n / (n - 1)]. *)
Lemma variance_vs_pvariance (data : list Q) :
  (1 < List.length data)%nat ->
  (Statistics.variance data * (Statistics.Qlen data - 1)
   == Statistics.pvariance data * Statistics.Qlen data)%Q.
Proof.
  intros Hn. unfold Statistics.variance, Statistics.pvariance.
  assert (H1 : ~ (Statistics.Qlen data - 1 == 0)%Q).
  { unfold Statistics.Qlen. intros Heq.
    assert (Hq : (inject_Z (Z.of_nat (List.length data)) == inject_Z 1)%Q).
    { rewrite <- (Qplus_0_r (inject_Z 1)), <- Heq. ring. }
    unfold Qeq in Hq. simpl in Hq. lia. }
  assert (H0 : ~ (Statistics.Qlen data == 0)%Q).
  { unfold Statistics.Qlen. intros Heq.
    unfold Qeq in Heq. simpl in Heq. lia. }
  field. split; assumption.
Qed.

Lemma Qsum_squares_nonneg (data : list Q) (m : Q) :
  (0 <= Statistics.Qsum (List.map (fun x => (x - m) * (x - m)) data))%Q.
Proof.
  induction data as [|x data IH]; simpl; [apply Qle_refl |].
  rewrite <- (Qplus_0_r 0).
  apply Qplus_le_compat; [| exact IH].
  destruct (Qlt_le_dec (x - m) 0) as [Hneg | Hpos].
  - assert (Hsq : ((x - m) * (x - m) == (- (x - m)) * (- (x - m)))%Q) by ring.
    rewrite Hsq.
    apply Qmult_le_0_compat; apply (Qopp_le_compat (x - m) 0), Qlt_le_weak, Hneg.
  - apply Qmult_le_0_compat; exact Hpos.
Qed.

Lemma variance_nonneg (data : list Q) :
  (1 < List.length data)%nat -> (0 <= Statistics.variance data)%Q.
Proof.
  intros Hn. unfold Statistics.variance, Qdiv.
  apply Qmult_le_0_compat; [apply Qsum_squares_nonneg |].
  apply Qinv_le_0_compat. unfold Statistics.Qlen, Qle. simpl. lia.
Qed.

Lemma pvariance_nonneg (data : list Q) : (0 <= Statistics.pvariance data)%Q.
Proof.
  unfold Statistics.pvariance, Qdiv.
  apply Qmult_le_0_compat; [apply Qsum_squares_nonneg |].
  apply Qinv_le_0_compat, Qlen_nonneg.
Qed.

Lemma Q2R_nonneg (q : Q) : (0 <= q)%Q -> (0 <= Q2R q)%R.
Proof. intros Hq. apply Qle_Rle in Hq. rewrite RMicromega.Q2R_0 in Hq. exact Hq. Qed.

(** The same relation between the two standard deviations. *)
Lemma stdev_vs_pstdev (data : list Q) :
  (1 < List.length data)%nat ->
  (Statistics.stdev data * Statistics.stdev data
     * Q2R (Statistics.Qlen data - 1)
   = Statistics.pstdev data * Statistics.pstdev data
     * Q2R (Statistics.Qlen data))%R.
Proof.
  intros Hn. unfold Statistics.stdev, Statistics.pstdev.
  rewrite (sqrt_sqrt (Q2R (Statistics.variance data)))
    by apply Q2R_nonneg, variance_nonneg, Hn.
  rewrite (sqrt_sqrt (Q2R (Statistics.pvariance data)))
    by apply Q2R_nonneg, pvariance_nonneg.
  rewrite <- !Q2R_mult. apply Qeq_eqR, variance_vs_pvariance, Hn.
Qed.

End MetricsFacts.

Section WindowFacts.
Import Metrics.

Lemma tl_skipn_snoc (l : list Q) (value : Q) (k : nat) :
  (k < List.length l)%nat ->
  List.tl (skipn k l ++ [value]) = skipn (S k) (l ++ [value]).
Proof.
  revert k. induction l as [|x l IH]; intros k Hk; [simpl in Hk; lia |].
  destruct k as [|k]; [reflexivity |].
  simpl in Hk. apply (IH k). lia.
Qed.

Lemma deque_append_last_n (maxlen : nat) (l : list Q) (value : Q) :
  deque_append maxlen (last_n maxlen l) value = last_n maxlen (l ++ [value]).
Proof.
  unfold deque_append, last_n.
  rewrite !List.length_app, List.length_skipn. simpl List.length.
  destruct (Nat.ltb_spec maxlen
              (List.length l - (List.length l - maxlen) + 1)) as [Hfull | Hroom].
  - assert (Hle : (maxlen <= List.length l)%nat) by lia.
    destruct (Nat.eq_dec maxlen 0%nat) as [-> | Hpos].
    + rewrite Nat.sub_0_r, List.skipn_all. simpl.
      rewrite List.skipn_all2 by (rewrite List.length_app; simpl; lia).
      reflexivity.
    + replace (List.length l + 1 - maxlen)%nat
        with (S (List.length l - maxlen)) by lia.
      apply tl_skipn_snoc. lia.
  - replace (List.length l - maxlen)%nat with 0%nat by lia.
    replace (List.length l + 1 - maxlen)%nat with 0%nat by lia.
    reflexivity.
Qed.

Lemma window_record (self : MetricsCollector) (name : string) (value : Q) :
  metrics (record self name value) !! name
  = Some (deque_append (window_size self) (window self name) value)
  /\ window_size (record self name value) = window_size self.
Proof.
  unfold record, window. simpl. rewrite lookup_insert_eq. auto.
Qed.

(** Recording into a fresh collector keeps the last [window_size] values,
    in the order they were recorded. *)
Lemma record_all_window (capacity : nat) (now : Q) (name : string) (values : list Q) :
  window (record_all (init capacity now) name values) name = last_n capacity values
  /\ window_size (record_all (init capacity now) name values) = capacity.
Proof.
  induction values as [|v values [IHw IHs]] using rev_ind.
  - split; reflexivity.
  - unfold record_all in *. rewrite fold_left_app. cbn [fold_left].
    destruct (window_record
                (fold_left (fun m v => record m name v) values (init capacity now))
                name v) as [Hlook Hsize].
    split; [| congruence].
    unfold window at 1. rewrite Hlook, IHs, IHw.
    apply deque_append_last_n.
Qed.

Lemma record_all_lookup (capacity : nat) (now : Q) (name : string) (values : list Q) :
  values <> [] ->
  metrics (record_all (init capacity now) name values) !! name
  = Some (last_n capacity values).
Proof.
  intros Hne.
  destruct (exists_last Hne) as (front & v & ->).
  destruct (record_all_window capacity now name front) as [Hw Hs].
  unfold record_all in *. rewrite fold_left_app. cbn [fold_left].
  destruct (window_record
              (fold_left (fun m v => record m name v) front (init capacity now))
              name v) as [Hlook _].
  rewrite Hlook, Hs, Hw. f_equal. apply deque_append_last_n.
Qed.

End WindowFacts.

(** C7, as amended: for every metric whose window holds at least one
    sample, [get_stats] returns statistics; its ['stdev'] is 0 for a single
    sample and otherwise the sample standard deviation, the square root of
    the sum of squared deviations divided by [n - 1], which exceeds the
    population standard deviation by the factor [sqrt(n / (n - 1))]; its
    ['p95'] and ['p99'] are the entries of the sorted window at index
    [floor(p * n)], clamped to the last index. *)
Theorem get_stats_stdev_and_percentiles
    (self : Metrics.MetricsCollector) (name : string) (window : list Q) :
  Metrics.metrics self !! name = Some window -> window <> [] ->
  exists st,
    Metrics.get_stats self name = Return (Some st)
    /\ ((List.length window <= 1)%nat -> Metrics.stdev st = 0%R)
    /\ ((1 < List.length window)%nat ->
        Metrics.stdev st
        = sqrt (Q2R (Statistics.ss window / (Statistics.Qlen window - 1)))
        /\ (Metrics.stdev st * Metrics.stdev st * Q2R (Statistics.Qlen window - 1)
            = Statistics.pstdev window * Statistics.pstdev window
              * Q2R (Statistics.Qlen window))%R)
    /\ Metrics.p95 st = Metrics.nearest_rank window (95 # 100)
    /\ Metrics.p99 st = Metrics.nearest_rank window (99 # 100).
Proof.
  intros Hlookup Hne.
  destruct (get_stats_nonempty self name window Hlookup Hne)
    as (st & Hst & Hstdev & _ & H95 & H99).
  exists st. split; [exact Hst |]. repeat split; try assumption.
  - intros Hle. rewrite Hstdev.
    destruct (Nat.ltb_spec 1 (List.length window)); [lia | reflexivity].
  - rewrite Hstdev.
    destruct (Nat.ltb_spec 1 (List.length window)); [reflexivity | lia].
  - rewrite Hstdev.
    destruct (Nat.ltb_spec 1 (List.length window)); [| lia].
    apply stdev_vs_pstdev. assumption.
Qed.

Lemma two_samples_window :
  Metrics.metrics Samples.two_samples !! "asr_latency" = Some [1; 3]%Q.
Proof.
  unfold Samples.two_samples, Samples.collector.
  rewrite record_all_lookup by discriminate. reflexivity.
Qed.

Lemma Q2R_small (n : Z) : Q2R (inject_Z n) = IZR n.
Proof. unfold Q2R, inject_Z. simpl. lra. Qed.

(** C7 fails for the standard deviation: for the window 1, 3 [get_stats]
    returns [sqrt 2], the sample standard deviation, whereas the
    population standard deviation of 1, 3 is 1. *)
Lemma get_stats_stdev_not_population :
  exists st,
    Metrics.get_stats Samples.two_samples "asr_latency" = Return (Some st)
    /\ Metrics.stdev st = sqrt 2
    /\ Statistics.pstdev [1; 3]%Q = 1%R
    /\ Metrics.stdev st <> Statistics.pstdev [1; 3]%Q.
Proof.
  destruct (get_stats_nonempty _ _ _ two_samples_window ltac:(discriminate))
    as (st & Hst & Hstdev & _).
  simpl in Hstdev.
  assert (Hs : Statistics.stdev [1; 3]%Q = sqrt 2).
  { unfold Statistics.stdev. f_equal.
    rewrite <- (Q2R_small 2). apply Qeq_eqR. vm_compute. reflexivity. }
  assert (Hp : Statistics.pstdev [1; 3]%Q = 1%R).
  { unfold Statistics.pstdev. transitivity (sqrt 1); [| apply sqrt_1]. f_equal.
    rewrite <- (Q2R_small 1). apply Qeq_eqR. vm_compute. reflexivity. }
  exists st. rewrite Hstdev, Hs, Hp. repeat split; try assumption.
  intros Heq.
  pose proof (sqrt_sqrt 2 ltac:(lra)) as Hsq. rewrite Heq in Hsq. lra.
Qed.

Lemma get_stats_stdev_and_percentiles_witness :
  Metrics.metrics Samples.two_samples !! "asr_latency" = Some [1; 3]%Q
  /\ [1; 3]%Q <> []
  /\ exists st,
       Metrics.get_stats Samples.two_samples "asr_latency" = Return (Some st)
       /\ Metrics.p95 st = 3%Q.
Proof.
  assert (Hne : [1; 3]%Q <> []) by discriminate.
  split; [exact two_samples_window |]. split; [exact Hne |].
  destruct (get_stats_stdev_and_percentiles _ _ _ two_samples_window Hne)
    as (st & Hst & _ & _ & H95 & _).
  exists st. split; [exact Hst |]. rewrite H95. vm_compute. reflexivity.
Defined.

(** C8, as amended: 150 values recorded into a fresh collector of window
    capacity 100 leave exactly the last 100 of them in the window, in
    order; and for the window 1, ..., 100 [get_stats] returns as ['p95'] the
    entry at index 95 of the sorted window, counting from 0, which is its
    96th element, the value 96. *)
Theorem record_keeps_last_100_and_p95
    (values : list Q) (name : string) (now : Q) :
  List.length values = 150%nat ->
  Metrics.metrics (Metrics.record_all (Metrics.init 100 now) name values) !! name
  = Some (skipn 50 values)
  /\ exists st,
       Metrics.get_stats
         (Metrics.record_all (Metrics.init 100 now) name (Samples.one_to 100)) name
       = Return (Some st)
       /\ Metrics.p95 st = nth 95 (sorted (Samples.one_to 100)) 0%Q
       /\ Metrics.p95 st = 96%Q.
Proof.
  intros Hlen. split.
  - rewrite record_all_lookup by (intros ->; discriminate Hlen).
    unfold Metrics.last_n. rewrite Hlen. reflexivity.
  - assert (Hlookup :
      Metrics.metrics
        (Metrics.record_all (Metrics.init 100 now) name (Samples.one_to 100)) !! name
      = Some (Samples.one_to 100)).
    { rewrite record_all_lookup by discriminate. reflexivity. }
    destruct (get_stats_nonempty _ _ _ Hlookup ltac:(discriminate))
      as (st & Hst & _ & _ & H95 & _).
    exists st. split; [exact Hst |]. rewrite H95.
    split; vm_compute; reflexivity.
Qed.

Lemma record_keeps_last_100_and_p95_witness :
  List.length (Samples.one_to 150) = 150%nat
  /\ Metrics.metrics
       (Metrics.record_all Samples.collector "asr_latency" (Samples.one_to 150))
     !! "asr_latency"
     = Some (List.map (fun k => inject_Z (Z.of_nat k)) (List.seq 51 100)).
Proof.
  assert (Hlen : List.length (Samples.one_to 150) = 150%nat) by reflexivity.
  split; [exact Hlen |].
  destruct (record_keeps_last_100_and_p95
              (Samples.one_to 150) "asr_latency" 0 Hlen) as [Hwindow _].
  unfold Samples.collector. rewrite Hwindow. reflexivity.
Defined.

(** C8 fails for the percentile: for the window 1, ..., 100 the 95th
    element of the sorted window is 95, but ['p95'] is 96. *)
Lemma p95_is_not_the_95th_element :
  exists st,
    Metrics.get_stats
      (Metrics.record_all Samples.collector "asr_latency" (Samples.one_to 100))
      "asr_latency"
    = Return (Some st)
    /\ nth_error (sorted (Samples.one_to 100)) 94 = Some 95%Q
    /\ Metrics.p95 st = 96%Q
    /\ Metrics.p95 st <> 95%Q.
Proof.
  assert (Hlookup :
    Metrics.metrics
      (Metrics.record_all Samples.collector "asr_latency" (Samples.one_to 100))
    !! "asr_latency"
    = Some (Samples.one_to 100)).
  { unfold Samples.collector. rewrite record_all_lookup by discriminate.
    reflexivity. }
  destruct (get_stats_nonempty _ _ _ Hlookup ltac:(discriminate))
    as (st & Hst & _ & _ & H95 & _).
  exists st. split; [exact Hst |]. rewrite H95.
  split; [vm_compute; reflexivity |].
  split; [vm_compute; reflexivity |].
  vm_compute. discriminate.
Qed.

(** ** PipelineOrchestrator *)

Section OrchestratorFacts.
Import Orchestrator.


Lemma same_collaborators_refl (o : PipelineOrchestrator) : same_collaborators o o.
Proof. unfold same_collaborators; auto. Qed.

Lemma same_collaborators_trans (o1 o2 o3 : PipelineOrchestrator) :
  same_collaborators o1 o2 -> same_collaborators o2 o3 -> same_collaborators o1 o3.
Proof. unfold same_collaborators. intuition congruence. Qed.

Lemma after_segment_same_collaborators (w : World) (self : PipelineOrchestrator)
    (segment : ndarray) (lat : Latencies) :
  same_collaborators self (fst (after_segment w self segment lat)).
Proof.
  unfold after_segment.
  destruct (asr self) as [engine|]; [| apply same_collaborators_refl].
  destruct (transcribe engine segment _) as [result | exc];
    [| apply same_collaborators_refl].
  destruct (negb (PyStr.truthy (text result))); [apply same_collaborators_refl |].
  destruct (Stabilizer.process _ _ _) as [stab res]. simpl.
  destruct (translator self); [| unfold same_collaborators; simpl; auto 6].
  destruct (tts self); [| unfold same_collaborators; simpl; auto 6].
  destruct (SAMPLE_RATE (config self) =? 0);
    unfold same_collaborators; simpl; auto 6.
Qed.

Lemma process_audio_same_collaborators (w : World) (self : PipelineOrchestrator)
    (audio_bytes : list byte) (lat : Latencies) :
  same_collaborators self (fst (process_audio w self audio_bytes lat)).
Proof.
  unfold process_audio.
  destruct (negb (is_ready self)); [apply same_collaborators_refl |].
  destruct (bytes_to_array audio_bytes) as [audio_array|];
    [| apply same_collaborators_refl].
  destruct (_ =? _)%nat; [apply same_collaborators_refl |].
  destruct (vad self) as [v|]; [| apply same_collaborators_refl].
  destruct (vad_process v audio_array) as [v' [is_speech [segment|]]].
  - eapply same_collaborators_trans;
      [| apply after_segment_same_collaborators].
    unfold same_collaborators; simpl; auto 6.
  - unfold same_collaborators; simpl; auto 6.
Qed.

Lemma feed_same_collaborators (w : World) (self : PipelineOrchestrator)
    (chunks : list (list byte)) (lat : Latencies) :
  same_collaborators self (feed w self chunks lat).
Proof.
  unfold feed. revert self.
  induction chunks as [|c chunks IH]; intros self; simpl.
  - apply same_collaborators_refl.
  - eapply same_collaborators_trans;
      [apply process_audio_same_collaborators | apply IH].
Qed.




End OrchestratorFacts.





(** * Further properties *)

(** ** More on strings *)

Lemma take_all (s : string) : PyStr.take (String.length s) s = s.
Proof. induction s as [|c s IH]; simpl; [reflexivity | rewrite IH; reflexivity]. Qed.

Lemma slice_to_len (s : string) : PyStr.slice_to s (PyStr.len s) = s.
Proof.
  unfold PyStr.slice_to, PyStr.bound.
  pose proof (len_nonneg s) as Hlen.
  destruct (PyStr.len s <? 0) eqn:Hneg; [apply Z.ltb_lt in Hneg; lia |].
  rewrite Z.min_id. unfold PyStr.len. rewrite Nat2Z.id. apply take_all.
Qed.

Lemma take_drop (n : nat) (s : string) :
  (PyStr.take n s ++ PyStr.drop n s)%string = s.
Proof.
  revert s. induction n as [|n IH]; intros [|c s]; try reflexivity.
  change (String c (PyStr.take n s ++ PyStr.drop n s)%string = String c s).
  rewrite IH. reflexivity.
Qed.

Lemma chars_app (a b : string) :
  PyStr.chars (a ++ b)%string = PyStr.chars a ++ PyStr.chars b.
Proof.
  induction a as [|c a IH]; [reflexivity |].
  change (c :: PyStr.chars (a ++ b)%string = c :: (PyStr.chars a ++ PyStr.chars b)).
  rewrite IH. reflexivity.
Qed.

Lemma non_space_app (a b : string) :
  Notions.non_space (a ++ b)%string = Notions.non_space a ++ Notions.non_space b.
Proof. unfold Notions.non_space. rewrite chars_app. apply List.filter_app. Qed.

Lemma non_space_cons (c : ascii) (s : string) :
  Notions.non_space (String c s)
  = (if PyStr.isspace c then [] else [c]) ++ Notions.non_space s.
Proof.
  unfold Notions.non_space.
  change (PyStr.chars (String c s)) with (c :: PyStr.chars s).
  cbn [List.filter]. destruct (PyStr.isspace c); reflexivity.
Qed.

Lemma non_space_lstrip (s : string) :
  Notions.non_space (PyStr.lstrip s) = Notions.non_space s.
Proof.
  induction s as [|c s IH]; [reflexivity |].
  simpl PyStr.lstrip. destruct (PyStr.isspace c) eqn:Hc; [| reflexivity].
  rewrite IH, non_space_cons, Hc. reflexivity.
Qed.

Lemma rstrip_cons (c : ascii) (s : string) :
  PyStr.rstrip (String c s)
  = match PyStr.rstrip s with
    | EmptyString => if PyStr.isspace c then EmptyString else String c EmptyString
    | r => String c r
    end.
Proof. reflexivity. Qed.

Lemma non_space_rstrip (s : string) :
  Notions.non_space (PyStr.rstrip s) = Notions.non_space s.
Proof.
  induction s as [|c s IH]; [reflexivity |].
  rewrite rstrip_cons, (non_space_cons c s), <- IH.
  destruct (PyStr.rstrip s) as [|d r].
  - destruct (PyStr.isspace c) eqn:Hc.
    + reflexivity.
    + rewrite (non_space_cons c ""), Hc. reflexivity.
  - rewrite (non_space_cons c (String d r)). reflexivity.
Qed.

Lemma non_space_strip (s : string) :
  Notions.non_space (PyStr.strip s) = Notions.non_space s.
Proof. unfold PyStr.strip. rewrite non_space_rstrip. apply non_space_lstrip. Qed.

Lemma lstrip_head (s : string) (c : ascii) :
  String.get 0 (PyStr.lstrip s) = Some c -> PyStr.isspace c = false.
Proof.
  induction s as [|d s IH]; [discriminate |].
  simpl PyStr.lstrip. destruct (PyStr.isspace d) eqn:Hd; [exact IH |].
  simpl. intros [= <-]. exact Hd.
Qed.

Lemma rstrip_head (s : string) (c : ascii) :
  String.get 0 (PyStr.rstrip s) = Some c -> String.get 0 s = Some c.
Proof.
  destruct s as [|d s]; [discriminate |].
  rewrite rstrip_cons. destruct (PyStr.rstrip s).
  - destruct (PyStr.isspace d); [discriminate | exact (fun H => H)].
  - exact (fun H => H).
Qed.

Lemma rstrip_last (s : string) (c : ascii) :
  PyStr.last (PyStr.rstrip s) = Some c -> PyStr.isspace c = false.
Proof.
  induction s as [|d s IH]; [discriminate |].
  rewrite rstrip_cons. destruct (PyStr.rstrip s) as [|e r].
  - destruct (PyStr.isspace d) eqn:Hd; [discriminate |].
    simpl. intros [= <-]. exact Hd.
  - rewrite last_cons. exact IH.
Qed.

Lemma strip_trimmed (s : string) : Notions.trimmed (PyStr.strip s).
Proof.
  unfold PyStr.strip. split; intros c Hc.
  - apply (lstrip_head s). apply rstrip_head. exact Hc.
  - apply (rstrip_last (PyStr.lstrip s)). exact Hc.
Qed.

Lemma get_chars (s : string) (i : Z) (c : ascii) :
  PyStr.get s i = Some c -> In c (PyStr.chars s).
Proof.
  revert i. induction s as [|d s IH]; intros i Hget.
  - apply get_in_range in Hget. unfold PyStr.len in Hget. simpl in Hget. lia.
  - pose proof (get_in_range _ _ _ Hget) as Hi.
    destruct (Z.eq_dec i 0) as [-> | Hne].
    + rewrite get_head in Hget. injection Hget as ->. left; reflexivity.
    + replace i with (i - 1 + 1) in Hget by lia.
      rewrite get_tail in Hget by lia. right. eapply IH. exact Hget.
Qed.

Lemma chars_drop_get (n : nat) (s : string) (c : ascii) :
  In c (PyStr.chars (PyStr.drop n s)) ->
  exists i, Z.of_nat n <= i /\ PyStr.get s i = Some c.
Proof.
  revert s. induction n as [|n IH]; intros s Hin.
  - assert (Hs : PyStr.drop 0 s = s) by (destruct s; reflexivity).
    rewrite Hs in Hin. clear Hs.
    induction s as [|d s IHs]; [destruct Hin |].
    destruct Hin as [-> | Hin].
    + exists 0. split; [lia | apply get_head].
    + destruct (IHs Hin) as (i & Hi & Hget).
      exists (i + 1). split; [lia |]. rewrite get_tail by lia. exact Hget.
  - destruct s as [|d s]; [destruct Hin |].
    destruct (IH s Hin) as (i & Hi & Hget).
    exists (i + 1). split; [lia |]. rewrite get_tail by lia. exact Hget.
Qed.

Lemma non_space_In (s : string) (c : ascii) :
  In c (PyStr.chars s) -> PyStr.isspace c = false -> In c (Notions.non_space s).
Proof.
  intros Hin Hc. unfold Notions.non_space. apply List.filter_In.
  split; [exact Hin | rewrite Hc; reflexivity].
Qed.

Lemma In_chars_strip (s : string) (c : ascii) :
  In c (PyStr.chars (PyStr.strip s)) -> In c (PyStr.chars s).
Proof.
  intros Hin. destruct (PyStr.isspace c) eqn:Hc.
  - unfold PyStr.strip in Hin.
    assert (Hr : forall t, In c (PyStr.chars (PyStr.rstrip t)) -> In c (PyStr.chars t)).
    { induction t as [|d t IHt]; [exact (fun H => H) |].
      rewrite rstrip_cons. destruct (PyStr.rstrip t) as [|e r].
      - destruct (PyStr.isspace d); [intros [] |].
        intros [-> | []]. left; reflexivity.
      - intros [-> | Hin']; [left; reflexivity | right; apply IHt; exact Hin']. }
    assert (Hl : forall t, In c (PyStr.chars (PyStr.lstrip t)) -> In c (PyStr.chars t)).
    { induction t as [|d t IHt]; [exact (fun H => H) |].
      simpl PyStr.lstrip. destruct (PyStr.isspace d); [| exact (fun H => H)].
      intros Hin'. right. apply IHt. exact Hin'. }
    apply Hl, Hr, Hin.
  - pose proof (non_space_In _ _ Hin Hc) as Hns.
    rewrite non_space_strip in Hns.
    unfold Notions.non_space in Hns. apply List.filter_In in Hns. tauto.
Qed.

(** ** More on PhraseBuffer *)

Section PhraseBufferMore.
Import PhraseBuffer.

(** X1: [add] neither loses, invents nor reorders a character that is not
    whitespace: the phrase it emits (if any) followed by the buffer it
    keeps has the non-whitespace characters of the old buffer followed by
    the new text. *)
Theorem add_preserves_non_space (self : PhraseBuffer) (text : string) :
  Notions.non_space
    (match snd (add self text) with Some phrase => phrase | None => "" end)
  ++ Notions.non_space (buffer (fst (add self text)))
  = Notions.non_space (buffer self ++ text)%string.
Proof.
  unfold add. set (buf := (buffer self ++ text)%string).
  destruct (PyStr.len buf >=? min_phrase_length self); [| reflexivity].
  destruct (last_delimiter self buf >=? min_phrase_length self); [| reflexivity].
  simpl. rewrite !non_space_strip.
  unfold PyStr.slice_to, PyStr.slice_from.
  rewrite <- non_space_app, take_drop. reflexivity.
Qed.

(** X2: after [add] has emitted a phrase, the buffer it keeps contains no
    delimiter character, and both the phrase and the kept buffer are
    trimmed: neither starts or ends with whitespace. *)
Theorem add_keeps_delimiter_free_rest
    (self : PhraseBuffer) (text phrase : string) :
  snd (add self text) = Some phrase ->
  (forall c, In c (PyStr.chars (buffer (fst (add self text)))) ->
             is_delimiter self c = false)
  /\ Notions.trimmed phrase
  /\ Notions.trimmed (buffer (fst (add self text))).
Proof.
  intros Hemit.
  destruct (add_emits_inversion self text phrase Hemit) as (_ & Hphrase & Hrest).
  set (buf := (buffer self ++ text)%string) in *.
  set (pos := last_delimiter self buf) in *.
  destruct (scan_delimiters_cases buf (PyStr.chars (phrase_delimiters self)) (-1))
    as (Hlow & _ & Hmax).
  fold (last_delimiter self buf) in Hlow, Hmax. fold pos in Hlow, Hmax.
  split; [| rewrite Hphrase, Hrest; split; apply strip_trimmed].
  intros c Hin. rewrite Hrest in Hin.
  apply In_chars_strip in Hin. unfold PyStr.slice_from in Hin.
  destruct (chars_drop_get _ _ _ Hin) as (i & Hi & Hget).
  destruct (is_delimiter self c) eqn:Hc; [| reflexivity].
  apply is_delimiter_In in Hc.
  pose proof (rfind_highest buf c i Hget) as Hhigh.
  pose proof (Hmax c Hc) as Hle.
  pose proof (get_in_range _ _ _ Hget) as Hrange.
  unfold PyStr.bound in Hi.
  destruct (pos + 1 <? 0) eqn:Hneg; [apply Z.ltb_lt in Hneg; lia |].
  lia.
Qed.

End PhraseBufferMore.

Lemma add_keeps_delimiter_free_rest_witness :
  snd (PhraseBuffer.add Samples.phrase_buffer_10 "Hello world. How are")
  = Some "Hello world."
  /\ PhraseBuffer.buffer
       (fst (PhraseBuffer.add Samples.phrase_buffer_10 "Hello world. How are"))
     = "How are"
  /\ Notions.trimmed "Hello world."
  /\ Notions.trimmed "How are".
Proof.
  assert (Hemit : snd (PhraseBuffer.add Samples.phrase_buffer_10 "Hello world. How are")
                  = Some "Hello world.") by (vm_compute; reflexivity).
  destruct (add_keeps_delimiter_free_rest _ _ _ Hemit) as (_ & Hphrase & Hrest).
  split; [exact Hemit |]. split; [vm_compute; reflexivity |].
  split; [exact Hphrase | exact Hrest].
Defined.

(** ** More on TextStabilizer *)

Section StabilizerMore.
Context `{SequenceMatcher}.
Import Stabilizer.

Lemma process_non_final_unfold (self : TextStabilizer) (new_text : string) :
  new_text <> "" ->
  process self new_text false
  = let similarity := _calculate_similarity (previous_text self) new_text in
    let stable_prefix := _find_stable_prefix (previous_text self) new_text in
    let is_stable :=
      Qge_bool similarity (similarity_threshold self)
      && (PyStr.len stable_prefix >=? min_stable_length self) in
    let count :=
      if is_stable then S (consecutive_stable_count self) else 0%nat in
    let commit :=
      (2 <=? count)%nat
      || (PyStr.len stable_prefix >? PyStr.len (stable_text self)) in
    (mkStabilizer (similarity_threshold self) (min_stable_length self) new_text
       (if commit then stable_prefix else stable_text self) count,
     mkResult (if commit then stable_prefix else stable_text self)
       (if commit
        then PyStr.slice_from stable_prefix (PyStr.len (stable_text self))
        else "")
       similarity is_stable (Some new_text)).
Proof.
  intros Hne. unfold process. rewrite (truthy_nonempty _ Hne). reflexivity.
Qed.

(** X3: the first hypothesis after construction, [reset] or any other
    moment at which no previous text is held is never judged stable when
    the similarity threshold is positive: its confidence is 0, the counter
    drops to 0, and neither [stable_text] nor the incremental text carries
    anything new. *)
Theorem process_first_hypothesis_unstable
    (self : TextStabilizer) (new_text : string) :
  previous_text self = "" ->
  new_text <> "" ->
  (0 < similarity_threshold self)%Q ->
  let self' := fst (process self new_text false) in
  let result := snd (process self new_text false) in
  r_is_stable result = false
  /\ r_confidence result = 0%Q
  /\ consecutive_stable_count self' = 0%nat
  /\ stable_text self' = stable_text self
  /\ r_incremental_text result = ""
  /\ previous_text self' = new_text.
Proof.
  intros Hprev Hne Hthr. cbv zeta.
  rewrite (process_non_final_unfold self new_text Hne). cbv zeta.
  rewrite Hprev.
  assert (Hsim : _calculate_similarity "" new_text = 0%Q).
  { unfold _calculate_similarity. rewrite (truthy_nonempty _ Hne). reflexivity. }
  assert (Hpre : _find_stable_prefix "" new_text = "") by reflexivity.
  rewrite Hsim, Hpre.
  assert (Hge : Qge_bool 0 (similarity_threshold self) = false).
  { unfold Qge_bool. destruct (Qle_bool (similarity_threshold self) 0) eqn:Hle;
      [| reflexivity].
    apply Qle_bool_iff in Hle. exfalso. apply (Qlt_not_le _ _ Hthr Hle). }
  rewrite Hge. cbn [andb]. cbn [Nat.leb orb].
  assert (Hlen : (PyStr.len "" >? PyStr.len (stable_text self)) = false).
  { rewrite Z.gtb_ltb. apply Z.ltb_ge. pose proof (len_nonneg (stable_text self)).
    unfold PyStr.len at 1. simpl. lia. }
  rewrite Hlen. simpl. auto 7.
Qed.

(** X4: a non-final call can shorten [stable_text] only if it is at least
    the second call in a row that was judged stable; on every other
    non-final call [stable_text] keeps its length or grows. *)
Theorem process_stable_text_shrinks_only_when_repeated
    (self : TextStabilizer) (new_text : string) :
  (consecutive_stable_count (fst (process self new_text false)) < 2)%nat ->
  PyStr.len (stable_text self)
  <= PyStr.len (stable_text (fst (process self new_text false))).
Proof.
  destruct new_text as [|c t].
  - intros _. apply Z.le_refl.
  - rewrite (process_non_final_unfold self (String c t)) by discriminate.
    cbv zeta. cbn [fst consecutive_stable_count stable_text].
    intros Hcount. apply Nat.leb_gt in Hcount. rewrite Hcount. cbn [orb].
    destruct (_ >? _) eqn:Hgt; [| apply Z.le_refl].
    apply Z.gtb_lt in Hgt. lia.
Qed.

(** X5: repeating a hypothesis.  If the text of a non-final call is the
    one passed just before, the matcher rates it against itself as
    [difflib] does, the threshold is at most 1 and the text is not shorter
    than [min_stable_length], then the call is judged stable, the counter
    goes up by one, and as soon as the counter reaches 2 (or the text is
    longer than what is held) the whole text is committed. *)
Theorem process_repeated_hypothesis
    (self : TextStabilizer) (new_text : string) :
  new_text <> "" ->
  previous_text self = new_text ->
  Notions.matches_itself new_text ->
  (similarity_threshold self <= 1)%Q ->
  min_stable_length self <= PyStr.len new_text ->
  let self' := fst (process self new_text false) in
  let result := snd (process self new_text false) in
  r_is_stable result = true
  /\ consecutive_stable_count self' = S (consecutive_stable_count self)
  /\ ((1 <= consecutive_stable_count self)%nat
      \/ PyStr.len (stable_text self) < PyStr.len new_text ->
      stable_text self' = new_text /\ r_stable_text result = new_text).
Proof.
  intros Hne Hprev (Hratio & rest & Hblocks) Hthr Hmin. cbv zeta.
  rewrite (process_non_final_unfold self new_text Hne). cbv zeta.
  rewrite Hprev.
  assert (Hsim : (_calculate_similarity new_text new_text == 1)%Q).
  { unfold _calculate_similarity. rewrite (truthy_nonempty _ Hne). exact Hratio. }
  assert (Hpre : _find_stable_prefix new_text new_text = new_text).
  { unfold _find_stable_prefix. rewrite (truthy_nonempty _ Hne), Hblocks.
    simpl. apply slice_to_len. }
  rewrite Hpre.
  assert (Hge : Qge_bool (_calculate_similarity new_text new_text)
                         (similarity_threshold self) = true).
  { unfold Qge_bool. apply Qle_bool_iff. rewrite Hsim. exact Hthr. }
  rewrite Hge.
  assert (Hlen : (PyStr.len new_text >=? min_stable_length self) = true)
    by (apply Z.geb_le; exact Hmin).
  rewrite Hlen. cbn [andb fst snd consecutive_stable_count stable_text
                     r_is_stable r_stable_text].
  split; [reflexivity |]. split; [reflexivity |].
  intros Hcommit.
  assert (Hc : ((2 <=? S (consecutive_stable_count self))%nat
                || (PyStr.len new_text >? PyStr.len (stable_text self))) = true).
  { apply orb_true_iff. destruct Hcommit as [Hcount | Hlonger].
    - left. apply Nat.leb_le. lia.
    - right. apply Z.gtb_lt. exact Hlonger. }
  rewrite Hc. auto.
Qed.

End StabilizerMore.

Lemma process_first_hypothesis_unstable_witness :
  Stabilizer.previous_text Stabilizer.default = ""
  /\ "hello" <> ""
  /\ (0 < Stabilizer.similarity_threshold Stabilizer.default)%Q
  /\ Stabilizer.r_is_stable (snd (Stabilizer.process Stabilizer.default "hello" false))
     = false
  /\ Stabilizer.r_confidence (snd (Stabilizer.process Stabilizer.default "hello" false))
     = 0%Q.
Proof.
  assert (Hprev : Stabilizer.previous_text Stabilizer.default = "") by reflexivity.
  assert (Hne : "hello" <> "") by discriminate.
  assert (Hthr : (0 < Stabilizer.similarity_threshold Stabilizer.default)%Q)
    by reflexivity.
  destruct (process_first_hypothesis_unstable Stabilizer.default "hello" Hprev Hne Hthr)
    as (Hstable & Hconf & _).
  auto.
Defined.

Lemma process_stable_text_shrinks_only_when_repeated_witness :
  (Stabilizer.consecutive_stable_count
     (fst (Stabilizer.process Samples.finalized_stabilizer "hello world foo baz" false))
   < 2)%nat
  /\ PyStr.len (Stabilizer.stable_text Samples.finalized_stabilizer)
     <= PyStr.len
          (Stabilizer.stable_text
             (fst (Stabilizer.process Samples.finalized_stabilizer
                     "hello world foo baz" false))).
Proof.
  assert (Hcount :
    (Stabilizer.consecutive_stable_count
       (fst (Stabilizer.process Samples.finalized_stabilizer "hello world foo baz" false))
     < 2)%nat) by (vm_compute; lia).
  split; [exact Hcount |].
  apply (process_stable_text_shrinks_only_when_repeated
           Samples.finalized_stabilizer "hello world foo baz" Hcount).
Defined.

(** The shortening that X4 leaves room for does happen: two stable
    hypotheses in a row that agree on 18 characters cut a [stable_text] of
    19 characters down to 18. *)
Lemma process_stable_text_can_shrink :
  let s1 := fst (Stabilizer.process Samples.finalized_stabilizer
                   "hello world foo baz" false) in
  let s2 := fst (Stabilizer.process s1 "hello world foo bat" false) in
  Stabilizer.stable_text s1 = "hello world foo bar"
  /\ Stabilizer.consecutive_stable_count s2 = 2%nat
  /\ Stabilizer.stable_text s2 = "hello world foo ba".
Proof. vm_compute. repeat split. Qed.

Lemma process_repeated_hypothesis_witness :
  let self := Samples.warm_stabilizer in
  let after := Stabilizer.process self "hello world foo bar" false in
  "hello world foo bar" <> ""
  /\ Stabilizer.previous_text self = "hello world foo bar"
  /\ Notions.matches_itself "hello world foo bar"
  /\ (Stabilizer.similarity_threshold self <= 1)%Q
  /\ Stabilizer.min_stable_length self <= PyStr.len "hello world foo bar"
  /\ (1 <= Stabilizer.consecutive_stable_count self)%nat
  /\ Stabilizer.r_is_stable (snd after) = true
  /\ Stabilizer.consecutive_stable_count (fst after) = 2%nat
  /\ Stabilizer.stable_text (fst after) = "hello world foo bar".
Proof.
  intros self after.
  assert (Hne : "hello world foo bar" <> "") by discriminate.
  assert (Hprev : Stabilizer.previous_text self = "hello world foo bar")
    by (vm_compute; reflexivity).
  assert (Hself : Notions.matches_itself "hello world foo bar").
  { split; [vm_compute; reflexivity |]. eexists. vm_compute. reflexivity. }
  assert (Hthr : (Stabilizer.similarity_threshold self <= 1)%Q)
    by (vm_compute; discriminate).
  assert (Hmin : Stabilizer.min_stable_length self <= PyStr.len "hello world foo bar")
    by (vm_compute; discriminate).
  assert (Hcount : (1 <= Stabilizer.consecutive_stable_count self)%nat)
    by (vm_compute; lia).
  destruct (process_repeated_hypothesis self "hello world foo bar"
              Hne Hprev Hself Hthr Hmin) as (Hstable & Hnext & Hcommit).
  destruct (Hcommit (or_introl Hcount)) as [Htext _].
  split; [exact Hne |]. split; [exact Hprev |]. split; [exact Hself |].
  split; [exact Hthr |]. split; [exact Hmin |]. split; [exact Hcount |].
  split; [exact Hstable |]. split; [| exact Htext].
  unfold after. rewrite Hnext. vm_compute. reflexivity.
Defined.

(** ** More on VoiceActivityDetector *)

Section VadMore.
Import Vad.

(** X6: when [process] hands over a segment, the segment is the
    concatenation of the chunks buffered so far followed by the current
    chunk (after conversion to float32), the detector was in speech and is
    left in exactly the state [reset] produces. *)
Theorem process_segment_is_buffer_and_resets
    (self : VoiceActivityDetector) (audio_chunk segment : ndarray) (is_speech : bool) :
  snd (process self audio_chunk) = (is_speech, Some segment) ->
  segment = np_concatenate (speech_buffer self ++ [to_float32 audio_chunk])
  /\ is_speaking self = true
  /\ min_silence_frames self <= silence_frames self + 1
  /\ fst (process self audio_chunk) = reset self.
Proof.
  unfold process, update, reset.
  destruct (is_speech_detected self (to_float32 audio_chunk));
    [simpl; discriminate |].
  destruct (is_speaking self); [| simpl; discriminate].
  destruct (_ >=? _) eqn:Hclose; simpl; [| discriminate].
  apply Z.geb_le in Hclose.
  destruct (speech_buffer self ++ [to_float32 audio_chunk]) as [|x l] eqn:Hbuf.
  - apply app_eq_nil in Hbuf. destruct Hbuf as [_ Hnil]. discriminate Hnil.
  - intros [= _ <-]. auto.
Qed.

Lemma complete_frames_short (fuel size : nat) (chunk : list Q) :
  (List.length chunk < size)%nat -> complete_frames fuel size chunk = [].
Proof.
  intros Hshort. destruct fuel as [|fuel]; [reflexivity |].
  destruct chunk as [|x chunk]; [reflexivity |].
  cbn [complete_frames].
  rewrite List.length_firstn.
  destruct (Nat.eqb_spec (Nat.min size (List.length (x :: chunk))) size) as [Heq | _];
    [lia |].
  rewrite List.skipn_all2 by lia.
  destruct fuel; reflexivity.
Qed.

Lemma to_float32_length (chunk : ndarray) :
  List.length (samples (to_float32 chunk)) = List.length (samples chunk).
Proof.
  unfold to_float32. destruct (is_float32 chunk); [reflexivity |].
  simpl. apply List.length_map.
Qed.

(** X7: a chunk that holds fewer samples than one detector frame (512 at
    16 kHz, 256 otherwise) is never classified as speech, whatever the
    network or the energy of its samples; in the silent state such a call
    returns [(False, None)] and only counts one more silent frame. *)
Theorem process_short_chunk_is_silence
    (self : VoiceActivityDetector) (audio_chunk : ndarray) :
  (List.length (samples audio_chunk) < vad_frame_size self)%nat ->
  is_speech_detected self (to_float32 audio_chunk) = false
  /\ (is_speaking self = false ->
      process self audio_chunk
      = (set_state self (speech_buffer self) false (speech_frames self)
           (silence_frames self + 1),
         (false, None))).
Proof.
  intros Hshort.
  assert (Hverdict : is_speech_detected self (to_float32 audio_chunk) = false).
  { unfold is_speech_detected.
    rewrite complete_frames_short by (rewrite to_float32_length; exact Hshort).
    reflexivity. }
  split; [exact Hverdict |].
  intros Hsilent. unfold process, update. rewrite Hverdict, Hsilent. reflexivity.
Qed.

(** The buffer against the counters: starting from the reset state, the
    buffer holds at least as many chunks as [speech_frames] counts, plus
    the silent chunks counted since speech began; and while in speech
    [speech_frames] has reached [min_speech_frames]. *)
Lemma buffer_covers_counters (self : VoiceActivityDetector) (chunks : list ndarray) :
  is_reset self ->
  let v := run self chunks in
  0 <= speech_frames v /\ 0 <= silence_frames v
  /\ speech_frames v + (if is_speaking v then silence_frames v else 0)
     <= Z.of_nat (List.length (speech_buffer v))
  /\ (is_speaking v = true -> min_speech_frames self <= speech_frames v).
Proof.
  intros (Hbuf & Hsp & Hspeech & Hsilence). cbv zeta.
  induction chunks as [|c chunks IH] using rev_ind.
  - simpl. rewrite Hbuf, Hsp, Hspeech, Hsilence. simpl.
    repeat split; first [lia | discriminate].
  - destruct IH as (IH1 & IH2 & IH3 & IH4).
    destruct (run_same_setup self chunks) as (_ & _ & Hmin & _ & _).
    rewrite run_snoc, process_after_run. unfold update.
    destruct (is_speech_detected self (to_float32 c)).
    + cbn [fst set_state speech_frames silence_frames speech_buffer is_speaking].
      rewrite List.length_app. simpl List.length.
      destruct (is_speaking (run self chunks)) eqn:Hs.
      * cbn [negb andb].
        repeat split; first [lia | intros _; specialize (IH4 eq_refl); lia].
      * cbn [negb andb].
        destruct (_ >=? _) eqn:Honset.
        -- apply Z.geb_le in Honset.
           repeat split; first [lia | intros _; lia].
        -- repeat split; first [lia | discriminate].
    + destruct (is_speaking (run self chunks)) eqn:Hs.
      * destruct (_ >=? _) eqn:Hclose.
        -- simpl. repeat split; first [lia | discriminate].
        -- cbn [fst set_state speech_frames silence_frames speech_buffer is_speaking].
           rewrite List.length_app. simpl List.length.
           repeat split; first [lia | intros _; apply IH4; reflexivity].
      * cbn [fst set_state speech_frames silence_frames speech_buffer is_speaking].
        repeat split; first [lia | discriminate].
Qed.

(** The buffer against the chunks: what the detector holds is, in the
    order received, a selection of the chunks it was fed. *)
Lemma buffer_from_chunks (self : VoiceActivityDetector) (chunks : list ndarray) :
  speech_buffer self = [] ->
  speech_buffer (run self chunks) `sublist_of` List.map to_float32 chunks.
Proof.
  intros Hbuf. induction chunks as [|c chunks IH] using rev_ind.
  - simpl. rewrite Hbuf. constructor.
  - rewrite run_snoc, process_after_run, List.map_app. simpl List.map.
    unfold update.
    destruct (is_speech_detected self (to_float32 c)).
    + cbn [fst set_state speech_buffer]. apply sublist_app; [exact IH | reflexivity].
    + destruct (is_speaking (run self chunks)).
      * destruct (_ >=? _); cbn [fst set_state speech_buffer].
        -- apply sublist_nil_l.
        -- apply sublist_app; [exact IH | reflexivity].
      * cbn [fst set_state speech_buffer]. apply sublist_inserts_r, IH.
Qed.

(** X8: starting from the reset state, every segment the detector emits
    is the concatenation, in the order received, of chunks it was fed
    since (each converted to float32): of the chunks it holds in its
    buffer followed by the current chunk, which together are at least
    [min_speech_frames + min_silence_frames] of the chunks fed. *)
Theorem segment_holds_enough_chunks
    (self : VoiceActivityDetector) (chunks : list ndarray)
    (audio_chunk segment : ndarray) (is_speech : bool) :
  is_reset self ->
  snd (process (run self chunks) audio_chunk) = (is_speech, Some segment) ->
  let buffered := speech_buffer (run self chunks) ++ [to_float32 audio_chunk] in
  segment = np_concatenate buffered
  /\ buffered `sublist_of` List.map to_float32 (chunks ++ [audio_chunk])
  /\ min_speech_frames self + min_silence_frames self
     <= Z.of_nat (List.length buffered).
Proof.
  intros Hreset Hseg. cbv zeta.
  destruct (buffer_covers_counters self chunks Hreset) as (H1 & H2 & H3 & H4).
  destruct (run_same_setup self chunks) as (_ & _ & _ & Hmin & _).
  pose proof (buffer_from_chunks self chunks (proj1 Hreset)) as Hsub.
  revert Hseg. unfold process, update.
  destruct (is_speech_detected (run self chunks) (to_float32 audio_chunk));
    [simpl; discriminate |].
  destruct (is_speaking (run self chunks)) eqn:Hs; [| simpl; discriminate].
  destruct (_ >=? _) eqn:Hclose; simpl; [| discriminate].
  apply Z.geb_le in Hclose. specialize (H4 eq_refl).
  destruct (speech_buffer (run self chunks) ++ [to_float32 audio_chunk])
    as [|x l] eqn:Hbuf.
  - apply app_eq_nil in Hbuf. destruct Hbuf as [_ Hnil]. discriminate Hnil.
  - intros [= _ <-]. split; [reflexivity |]. rewrite <- Hbuf.
    split.
    + rewrite List.map_app. simpl List.map.
      apply sublist_app; [exact Hsub | reflexivity].
    + rewrite List.length_app. simpl List.length. lia.
Qed.

Lemma square_le (x b : Q) : (- b <= x <= b)%Q -> (x * x <= b * b)%Q.
Proof.
  intros [Hlo Hhi].
  assert (Hprod : (0 <= (b - x) * (b + x))%Q)
    by (apply Qmult_le_0_compat; lra).
  assert (Heq : ((b - x) * (b + x) == b * b - x * x)%Q) by ring.
  rewrite Heq in Hprod. lra.
Qed.

Lemma square_gt (x b : Q) : (0 <= b)%Q -> (x < - b \/ b < x)%Q -> (b * b < x * x)%Q.
Proof.
  intros Hb Hout.
  assert (Hprod : (0 < (x - b) * (x + b))%Q).
  { destruct Hout as [Hlo | Hhi].
    - assert (Heq : ((x - b) * (x + b) == (b - x) * (- x - b))%Q) by ring.
      rewrite Heq. apply Qmult_lt_0_compat; lra.
    - apply Qmult_lt_0_compat; lra. }
  assert (Heq : ((x - b) * (x + b) == x * x - b * b)%Q) by ring.
  rewrite Heq in Hprod. lra.
Qed.

Lemma sum_squares_le (frame : list Q) (b : Q) :
  (forall x, In x frame -> (x * x <= b)%Q) ->
  (sum_squares frame <= inject_Z (Z.of_nat (List.length frame)) * b)%Q.
Proof.
  intros Hb. induction frame as [|x frame IH].
  - simpl. change (inject_Z (Z.of_nat 0)) with 0%Q. lra.
  - cbn [sum_squares List.fold_right List.length].
    fold (sum_squares frame).
    rewrite Nat2Z.inj_succ, <- Z.add_1_r, inject_Z_plus.
    assert (x * x <= b)%Q by (apply Hb; left; reflexivity).
    assert (sum_squares frame
            <= inject_Z (Z.of_nat (List.length frame)) * b)%Q
      by (apply IH; intros y Hy; apply Hb; right; exact Hy).
    change (inject_Z 1) with 1%Q.
    set (n := inject_Z (Z.of_nat (List.length frame))) in *.
    set (rest := sum_squares frame) in *.
    set (sq := (x * x)%Q) in *.
    lra.
Qed.

Lemma sum_squares_gt (frame : list Q) (b : Q) :
  frame <> [] ->
  (forall x, In x frame -> (b < x * x)%Q) ->
  (inject_Z (Z.of_nat (List.length frame)) * b < sum_squares frame)%Q.
Proof.
  intros Hne Hb. induction frame as [|x frame IH]; [congruence |].
  cbn [sum_squares List.fold_right List.length].
  fold (sum_squares frame).
  rewrite Nat2Z.inj_succ, <- Z.add_1_r, inject_Z_plus.
  change (inject_Z 1) with 1%Q.
  assert (b < x * x)%Q by (apply Hb; left; reflexivity).
  set (sq := (x * x)%Q) in *.
  destruct frame as [|y frame].
  - cbn [sum_squares List.fold_right List.length].
    change (inject_Z (Z.of_nat 0)) with 0%Q. lra.
  - assert (inject_Z (Z.of_nat (List.length (y :: frame))) * b
            < sum_squares (y :: frame))%Q
      by (apply IH; [discriminate | intros z Hz; apply Hb; right; exact Hz]).
    set (n := inject_Z (Z.of_nat (List.length (y :: frame)))) in *.
    set (rest := sum_squares (y :: frame)) in *.
    lra.
Qed.

(** X9: the energy detector by amplitude.  A frame all of whose samples
    lie within 0.01 of zero is never speech, and a non-empty frame all of
    whose samples are further than 0.01 from zero always is. *)
Theorem energy_detection_by_amplitude (frame : list Q) :
  ((forall x, In x frame -> (- (1 # 100) <= x <= 1 # 100)%Q) ->
   _energy_based_detection frame = false)
  /\ (frame <> [] ->
      (forall x, In x frame -> (x < - (1 # 100) \/ 1 # 100 < x)%Q) ->
      _energy_based_detection frame = true).
Proof.
  unfold _energy_based_detection, Qgt_bool.
  split.
  - intros Hquiet. apply negb_false_iff, Qle_bool_iff.
    destruct (Nat.eq_dec (List.length frame) 0%nat) as [Hzero | Hpos].
    + apply List.length_zero_iff_nil in Hzero. subst frame.
      vm_compute. discriminate.
    + set (n := inject_Z (Z.of_nat (List.length frame))).
      assert (Hn : (0 < n)%Q).
      { unfold n. change 0%Q with (inject_Z 0). rewrite <- Zlt_Qlt. lia. }
      apply Qle_shift_div_r; [exact Hn |].
      rewrite Qmult_comm.
      apply sum_squares_le. intros x Hx.
      apply square_le, Hquiet, Hx.
  - intros Hne Hloud. apply negb_true_iff.
    set (n := inject_Z (Z.of_nat (List.length frame))).
    destruct (Qle_bool _ _) eqn:Hle; [| reflexivity].
    apply Qle_bool_iff in Hle. exfalso.
    assert (Hn : (0 < n)%Q).
    { unfold n. change 0%Q with (inject_Z 0). rewrite <- Zlt_Qlt.
      destruct frame; [congruence | simpl List.length; lia]. }
    assert (Hsum : (n * ((1 # 100) * (1 # 100)) < sum_squares frame)%Q).
    { apply sum_squares_gt; [exact Hne |]. intros x Hx.
      apply square_gt; [discriminate | apply Hloud, Hx]. }
    apply (Qmult_le_compat_r _ _ n) in Hle; [| apply Qlt_le_weak, Hn].
    assert (Hdiv : (sum_squares frame / n * n == sum_squares frame)%Q).
    { field. intros Hz. rewrite Hz in Hn. apply (Qlt_irrefl 0), Hn. }
    rewrite Hdiv in Hle.
    set (total := sum_squares frame) in *. lra.
Qed.

End VadMore.

Lemma onset_needs_speech_chunks_witness :
  let history := Samples.interleaved 7 in
  Vad.silence_frames Samples.default_vad = 0
  /\ Vad.speech_frames Samples.default_vad = 0
  /\ Vad.is_speaking (Vad.run Samples.default_vad history) = false
  /\ Vad.is_speaking (Vad.run Samples.default_vad (history ++ [Samples.loud])) = true
  /\ Vad.min_speech_frames Samples.default_vad
     <= Vad.speech_count (Vad.verdicts Samples.default_vad (history ++ [Samples.loud])).
Proof.
  intros history.
  assert (Hbefore : Vad.is_speaking (Vad.run Samples.default_vad history) = false)
    by (vm_compute; reflexivity).
  assert (Hafter : Vad.is_speaking
                     (Vad.run Samples.default_vad (history ++ [Samples.loud])) = true)
    by (vm_compute; reflexivity).
  split; [reflexivity |]. split; [reflexivity |].
  split; [exact Hbefore |]. split; [exact Hafter |].
  apply (onset_needs_speech_chunks Samples.default_vad history Samples.loud
           eq_refl eq_refl Hbefore Hafter).
Defined.

Lemma process_segment_is_buffer_and_resets_witness :
  let self := Vad.run Samples.default_vad Samples.utterance in
  let segment := np_concatenate (Samples.utterance ++ [Samples.quiet]) in
  snd (Vad.process self Samples.quiet) = (true, Some segment)
  /\ Vad.speech_buffer self = Samples.utterance
  /\ fst (Vad.process self Samples.quiet) = Samples.default_vad.
Proof.
  intros self segment.
  assert (Hret : snd (Vad.process self Samples.quiet) = (true, Some segment))
    by (vm_compute; reflexivity).
  destruct (process_segment_is_buffer_and_resets self Samples.quiet segment true Hret)
    as (_ & _ & _ & Hreset).
  split; [exact Hret |]. split; [vm_compute; reflexivity |].
  rewrite Hreset. vm_compute. reflexivity.
Defined.

Lemma process_short_chunk_is_silence_witness :
  (List.length (samples Samples.short_chunk)
   < Vad.vad_frame_size Samples.default_vad)%nat
  /\ Vad._energy_based_detection (samples Samples.short_chunk) = true
  /\ Vad.is_speech_detected Samples.default_vad
       (Vad.to_float32 Samples.short_chunk) = false
  /\ snd (Vad.process Samples.default_vad Samples.short_chunk) = (false, None).
Proof.
  assert (Hshort : (List.length (samples Samples.short_chunk)
                    < Vad.vad_frame_size Samples.default_vad)%nat)
    by (vm_compute; lia).
  destruct (process_short_chunk_is_silence Samples.default_vad Samples.short_chunk Hshort)
    as [Hverdict Hprocess].
  split; [exact Hshort |]. split; [vm_compute; reflexivity |].
  split; [exact Hverdict |].
  rewrite (Hprocess eq_refl). reflexivity.
Defined.

Lemma segment_holds_enough_chunks_witness :
  let segment := np_concatenate (Samples.utterance ++ [Samples.quiet]) in
  let buffered :=
    Vad.speech_buffer (Vad.run Samples.default_vad Samples.utterance)
    ++ [Vad.to_float32 Samples.quiet] in
  Vad.is_reset Samples.default_vad
  /\ snd (Vad.process (Vad.run Samples.default_vad Samples.utterance) Samples.quiet)
     = (true, Some segment)
  /\ segment = np_concatenate buffered
  /\ buffered `sublist_of`
       List.map Vad.to_float32 (Samples.utterance ++ [Samples.quiet])
  /\ 8 + 10 <= Z.of_nat (List.length buffered).
Proof.
  intros segment buffered.
  assert (Hreset : Vad.is_reset Samples.default_vad)
    by (repeat split; reflexivity).
  assert (Hret : snd (Vad.process (Vad.run Samples.default_vad Samples.utterance)
                        Samples.quiet) = (true, Some segment))
    by (vm_compute; reflexivity).
  split; [exact Hreset |]. split; [exact Hret |].
  apply (segment_holds_enough_chunks Samples.default_vad Samples.utterance
           Samples.quiet segment true Hreset Hret).
Defined.

Lemma energy_detection_by_amplitude_witness :
  (forall x, In x (List.repeat (1 # 200)%Q 4) -> (- (1 # 100) <= x <= 1 # 100)%Q)
  /\ Vad._energy_based_detection (List.repeat (1 # 200)%Q 4) = false
  /\ List.repeat (- (1 # 2))%Q 4 <> []
  /\ (forall x, In x (List.repeat (- (1 # 2))%Q 4) ->
                (x < - (1 # 100) \/ 1 # 100 < x)%Q)
  /\ Vad._energy_based_detection (List.repeat (- (1 # 2))%Q 4) = true.
Proof.
  assert (Hquiet : forall x, In x (List.repeat (1 # 200)%Q 4) ->
                             (- (1 # 100) <= x <= 1 # 100)%Q).
  { intros x Hx. apply List.repeat_spec in Hx. subst x. split; discriminate. }
  assert (Hne : List.repeat (- (1 # 2))%Q 4 <> []) by discriminate.
  assert (Hloud : forall x, In x (List.repeat (- (1 # 2))%Q 4) ->
                            (x < - (1 # 100) \/ 1 # 100 < x)%Q).
  { intros x Hx. apply List.repeat_spec in Hx. subst x. left. reflexivity. }
  split; [exact Hquiet |].
  split; [apply (proj1 (energy_detection_by_amplitude _)), Hquiet |].
  split; [exact Hne |]. split; [exact Hloud |].
  apply (proj2 (energy_detection_by_amplitude _)); assumption.
Defined.

(** ** PassthroughVAD *)

Section PassthroughFacts.
Import PassthroughVAD.

Lemma sample_count_snoc (chunks : list ndarray) (c : ndarray) :
  sample_count (chunks ++ [c])
  = sample_count chunks + Z.of_nat (List.length (samples c)).
Proof.
  unfold sample_count, np_concatenate. simpl.
  rewrite List.map_app, List.concat_app, List.length_app. simpl.
  rewrite List.app_nil_r. lia.
Qed.

(** Between two emissions [total_samples] is the number of samples in the
    buffer and stays below the target. *)
Lemma passthrough_invariant (sample_rate target_duration_ms : Z)
    (chunks : list ndarray) :
  let v := run (init sample_rate target_duration_ms) chunks in
  target_samples v = target_samples (init sample_rate target_duration_ms)
  /\ total_samples v = sample_count (buffer v)
  /\ (buffer v <> [] -> total_samples v < target_samples v).
Proof.
  cbv zeta. induction chunks as [|c chunks IH] using rev_ind.
  - simpl. repeat split. congruence.
  - destruct IH as (Htarget & Htotal & Hbelow).
    unfold run in *. rewrite fold_left_app. cbn [fold_left].
    set (v := fold_left (fun v c => fst (process v c)) chunks
                (init sample_rate target_duration_ms)) in *.
    unfold process.
    destruct (_ >=? _) eqn:Hfull; cbn [fst target_samples buffer total_samples].
    + repeat split; [exact Htarget | congruence].
    + rewrite sample_count_snoc. split; [exact Htarget |].
      split; [lia |]. intros _.
      rewrite Z.geb_leb in Hfull. apply Z.leb_gt in Hfull. lia.
Qed.

Lemma passthrough_run_snoc (self : PassthroughVAD) (chunks : list ndarray)
    (c : ndarray) :
  run self (chunks ++ [c]) = fst (process (run self chunks) c).
Proof. unfold run. rewrite fold_left_app. reflexivity. Qed.

(** The buffer against the chunks: what the detector holds are exactly
    the chunks received after the last one that completed a segment. *)
Lemma passthrough_buffer_is_pending (self : PassthroughVAD) (chunks : list ndarray) :
  buffer self = [] ->
  exists earlier,
    chunks = earlier ++ buffer (run self chunks)
    /\ (earlier = []
        \/ exists before last previous,
             earlier = before ++ [last]
             /\ snd (process (run self before) last) = (true, Some previous))
    /\ (forall before c rest,
          buffer (run self chunks) = before ++ c :: rest ->
          snd (process (run self (earlier ++ before)) c) = (false, None)).
Proof.
  intros Hbuf. induction chunks as [|c chunks IH] using rev_ind.
  - exists []. simpl. rewrite Hbuf. split; [reflexivity |].
    split; [left; reflexivity |].
    intros before c rest Hsplit. destruct before; discriminate Hsplit.
  - destruct IH as (earlier & Hchunks & Hlast & Hnone).
    rewrite passthrough_run_snoc.
    set (v := run self chunks) in *.
    destruct (total_samples v + Z.of_nat (List.length (samples c))
              >=? target_samples v) eqn:Hfull.
    + exists (chunks ++ [c]).
      assert (Hstep : process v c
                      = (mkPassthrough (target_samples v) [] 0,
                         (true, Some (np_concatenate (buffer v ++ [c])))))
        by (unfold process; rewrite Hfull; reflexivity).
      rewrite Hstep. cbn [fst buffer].
      split; [rewrite List.app_nil_r; reflexivity |].
      split.
      * right. exists chunks, c, (np_concatenate (buffer v ++ [c])).
        split; [reflexivity |]. fold v. rewrite Hstep. reflexivity.
      * intros before x rest Hsplit. destruct before; discriminate Hsplit.
    + exists earlier.
      assert (Hstep : process v c
                      = (mkPassthrough (target_samples v) (buffer v ++ [c])
                           (total_samples v + Z.of_nat (List.length (samples c))),
                         (false, None)))
        by (unfold process; rewrite Hfull; reflexivity).
      rewrite Hstep. cbn [fst buffer].
      split; [rewrite List.app_assoc, <- Hchunks; reflexivity |].
      split; [exact Hlast |].
      intros before x rest Hsplit.
      destruct rest as [|y rest _] using rev_ind.
      * apply app_inj_tail in Hsplit. destruct Hsplit as [<- <-].
        rewrite <- Hchunks. fold v. rewrite Hstep. reflexivity.
      * change (before ++ x :: rest ++ [y])
          with (before ++ (x :: rest) ++ [y]) in Hsplit.
        rewrite List.app_assoc in Hsplit.
        apply app_inj_tail in Hsplit. destruct Hsplit as [Hsplit _].
        apply (Hnone before x rest Hsplit).
Qed.

(** X10: the pass-through detector, from construction on: every segment
    it hands over comes with the flag [True], is the concatenation, in
    the order received, of exactly the chunks received since the previous
    segment (all chunks, if there was none), the current chunk included,
    holds at least [target_samples] samples, and leaves the detector as
    [reset] would. *)
Theorem passthrough_segment_reaches_target
    (sample_rate target_duration_ms : Z) (chunks : list ndarray)
    (audio_chunk segment : ndarray) (flag : bool) :
  let start := init sample_rate target_duration_ms in
  snd (process (run start chunks) audio_chunk) = (flag, Some segment) ->
  flag = true
  /\ (exists earlier pending,
        chunks = earlier ++ pending
        /\ (earlier = []
            \/ exists before last previous,
                 earlier = before ++ [last]
                 /\ snd (process (run start before) last) = (true, Some previous))
        /\ (forall before c rest,
              pending = before ++ c :: rest ->
              snd (process (run start (earlier ++ before)) c) = (false, None))
        /\ segment = np_concatenate (pending ++ [audio_chunk]))
  /\ target_samples start <= Z.of_nat (List.length (samples segment))
  /\ fst (process (run start chunks) audio_chunk) = reset start.
Proof.
  cbv zeta.
  destruct (passthrough_invariant sample_rate target_duration_ms chunks)
    as (Htarget & Htotal & _).
  destruct (passthrough_buffer_is_pending (init sample_rate target_duration_ms)
              chunks eq_refl) as (earlier & Hchunks & Hlast & Hnone).
  set (v := run (init sample_rate target_duration_ms) chunks) in *.
  unfold process, reset.
  destruct (_ >=? _) eqn:Hfull; cbn [fst snd]; [| discriminate].
  intros [= <- <-]. apply Z.geb_le in Hfull.
  split; [reflexivity |].
  split.
  { exists earlier, (buffer v). auto. }
  split.
  - pose proof (sample_count_snoc (buffer v) audio_chunk) as Hcount.
    unfold sample_count in Hcount at 1. rewrite <- Htarget. lia.
  - rewrite Htarget. reflexivity.
Qed.

End PassthroughFacts.

Lemma passthrough_segment_reaches_target_witness :
  let start := PassthroughVAD.init 16000 128 in
  let first := List.repeat Samples.loud 4 in
  let chunks := first ++ [Samples.loud; Samples.loud; Samples.quiet] in
  let segment :=
    np_concatenate [Samples.loud; Samples.loud; Samples.quiet; Samples.loud] in
  snd (PassthroughVAD.process (PassthroughVAD.run start (List.repeat Samples.loud 3))
         Samples.loud)
  = (true, Some (np_concatenate first))
  /\ snd (PassthroughVAD.process (PassthroughVAD.run start chunks) Samples.loud)
     = (true, Some segment)
  /\ PassthroughVAD.target_samples start = 2048
  /\ 2048 <= Z.of_nat (List.length (samples segment))
  /\ fst (PassthroughVAD.process (PassthroughVAD.run start chunks) Samples.loud)
     = PassthroughVAD.reset start.
Proof.
  intros start first chunks segment.
  assert (Hfirst :
    snd (PassthroughVAD.process
           (PassthroughVAD.run start (List.repeat Samples.loud 3)) Samples.loud)
    = (true, Some (np_concatenate first)))
    by (vm_compute; reflexivity).
  assert (Hret : snd (PassthroughVAD.process (PassthroughVAD.run start chunks)
                        Samples.loud) = (true, Some segment))
    by (vm_compute; reflexivity).
  destruct (passthrough_segment_reaches_target 16000 128 chunks Samples.loud
              segment true Hret)
    as (_ & _ & Hlen & Hreset).
  split; [exact Hfirst |]. split; [exact Hret |].
  split; [vm_compute; reflexivity |].
  split; [exact Hlen | exact Hreset].
Defined.

(** ** More on MetricsCollector *)

Section MetricsMore.
Import Metrics.

(** X11: a window never outgrows its capacity.  Whatever sequence of
    values is recorded into a fresh collector under one name, the window
    holds exactly the last [window_size] of them, in the order recorded;
    its length is the smaller of the capacity and the number recorded. *)
Theorem window_holds_last_values
    (capacity : nat) (now : Q) (name : string) (values : list Q) :
  window (record_all (init capacity now) name values) name = last_n capacity values
  /\ List.length (window (record_all (init capacity now) name values) name)
     = Nat.min capacity (List.length values).
Proof.
  destruct (record_all_window capacity now name values) as [Hw _].
  split; [exact Hw |].
  rewrite Hw. unfold last_n. rewrite List.length_skipn. lia.
Qed.

Lemma get_stats_depends_on_window (self other : MetricsCollector) (name : string) :
  metrics self !! name = metrics other !! name ->
  get_stats self name = get_stats other name.
Proof. unfold get_stats. intros ->. reflexivity. Qed.

(** X12: metrics and counters are kept apart, name by name.  Recording a
    value under one name changes neither the statistics of any other
    metric nor any counter, and incrementing a counter changes neither
    any metric nor any other counter. *)
Theorem record_and_increment_are_local
    (self : MetricsCollector) (name other : string) (value : Q) (amount : Z) :
  name <> other ->
  get_stats (record self name value) other = get_stats self other
  /\ counters (record self name value) = counters self
  /\ metrics (increment self name amount) = metrics self
  /\ counter (increment self name amount) other = counter self other
  /\ counter (increment self name amount) name = counter self name + amount.
Proof.
  intros Hne. split.
  { apply get_stats_depends_on_window. unfold record. simpl.
    apply lookup_insert_ne. exact Hne. }
  split; [reflexivity |]. split; [reflexivity |].
  unfold counter, increment. simpl.
  rewrite lookup_insert_ne by exact Hne. rewrite lookup_insert_eq.
  split; reflexivity.
Qed.

Lemma counter_increment (self : MetricsCollector) (name : string) (amount : Z) :
  counter (increment self name amount) name = counter self name + amount.
Proof. unfold counter, increment. simpl. rewrite lookup_insert_eq. reflexivity. Qed.

(** A counter is the sum of the amounts it was incremented by,
    starting from 0 for a counter never seen before; amounts may be
    negative, so a counter can go down. *)
Theorem counter_sums_increments
    (self : MetricsCollector) (name : string) (amounts : list Z) :
  counter (increment_all self name amounts) name
  = counter self name + Zsum amounts.
Proof.
  revert self. induction amounts as [|a amounts IH]; intros self.
  - unfold Zsum. simpl. lia.
  - unfold increment_all in *. cbn [fold_left].
    rewrite IH, counter_increment. unfold Zsum. simpl. lia.
Qed.

(** X13: [get_stats] and the empty window.  For a name that is unknown
    or whose window is empty [get_stats] returns [None], before it
    computes anything; for a window that holds a value it never returns
    [None], and whenever it returns, the ['count'] of the statistics is
    the length of the window.  (On windows of floats [statistics.stdev]
    can raise, for values that are infinite, not numbers or very large;
    the exact numbers of this model do not show that, and the statement
    leaves a raising call open.) *)
Theorem get_stats_none_exactly_when_empty (self : MetricsCollector) (name : string) :
  (window self name = [] -> get_stats self name = Return None)
  /\ (window self name <> [] ->
      match get_stats self name with
      | Return (Some st) => count st = List.length (window self name)
      | Return None => False
      | Raise _ => True
      end).
Proof.
  unfold window. destruct (metrics self !! name) as [values|] eqn:Hlookup.
  - destruct values as [|v values].
    + split; [| congruence]. intros _. unfold get_stats. rewrite Hlookup. reflexivity.
    + split; [discriminate |]. intros _.
      destruct (get_stats_nonempty self name (v :: values) Hlookup ltac:(discriminate))
        as (st & -> & _ & Hcount & _).
      exact Hcount.
  - split; [| congruence]. intros _. unfold get_stats. rewrite Hlookup. reflexivity.
Qed.

End MetricsMore.

Section OrderStatistics.
Import Metrics.

Lemma Qgt_bool_true (x y : Q) : Qgt_bool x y = true -> (y < x)%Q.
Proof.
  unfold Qgt_bool. intros Hgt. apply negb_true_iff in Hgt.
  destruct (Qlt_le_dec y x) as [Hlt | Hle]; [exact Hlt |].
  apply Qle_bool_iff in Hle. congruence.
Qed.

Lemma Qgt_bool_false (x y : Q) : Qgt_bool x y = false -> (x <= y)%Q.
Proof.
  unfold Qgt_bool. intros Hgt. apply negb_false_iff in Hgt.
  apply Qle_bool_iff. exact Hgt.
Qed.

Lemma py_min_spec (first : Q) (rest : list Q) :
  In (py_min first rest) (first :: rest)
  /\ (forall x, In x (first :: rest) -> (py_min first rest <= x)%Q).
Proof.
  revert first. induction rest as [|y rest IH]; intros first.
  - simpl. split; [left; reflexivity |].
    intros x [<- | []]. apply Qle_refl.
  - unfold py_min in *. cbn [fold_left].
    set (m := if Qgt_bool first y then y else first).
    assert (Hm : (m = first \/ m = y) /\ (m <= first)%Q /\ (m <= y)%Q).
    { unfold m. destruct (Qgt_bool first y) eqn:Hgt.
      - apply Qgt_bool_true in Hgt.
        split; [right; reflexivity |]. split; [apply Qlt_le_weak, Hgt | apply Qle_refl].
      - apply Qgt_bool_false in Hgt.
        split; [left; reflexivity |]. split; [apply Qle_refl | exact Hgt]. }
    destruct Hm as (Hwhich & Hfirst & Hy).
    destruct (IH m) as [Hin Hle]. split.
    + destruct Hin as [Heq | Hin].
      * rewrite <- Heq. destruct Hwhich as [-> | ->];
          [left; reflexivity | right; left; reflexivity].
      * right; right; exact Hin.
    + assert (Hmin : (fold_left (fun m x => if Qgt_bool m x then x else m) rest m <= m)%Q)
        by (apply Hle; left; reflexivity).
      intros x [<- | [<- | Hx]].
      * eapply Qle_trans; eassumption.
      * eapply Qle_trans; eassumption.
      * apply Hle. right; exact Hx.
Qed.

Lemma py_max_spec (first : Q) (rest : list Q) :
  In (py_max first rest) (first :: rest)
  /\ (forall x, In x (first :: rest) -> (x <= py_max first rest)%Q).
Proof.
  revert first. induction rest as [|y rest IH]; intros first.
  - simpl. split; [left; reflexivity |].
    intros x [<- | []]. apply Qle_refl.
  - unfold py_max in *. cbn [fold_left].
    set (m := if Qgt_bool y first then y else first).
    assert (Hm : (m = first \/ m = y) /\ (first <= m)%Q /\ (y <= m)%Q).
    { unfold m. destruct (Qgt_bool y first) eqn:Hgt.
      - apply Qgt_bool_true in Hgt.
        split; [right; reflexivity |]. split; [apply Qlt_le_weak, Hgt | apply Qle_refl].
      - apply Qgt_bool_false in Hgt.
        split; [left; reflexivity |]. split; [apply Qle_refl | exact Hgt]. }
    destruct Hm as (Hwhich & Hfirst & Hy).
    destruct (IH m) as [Hin Hle]. split.
    + destruct Hin as [Heq | Hin].
      * rewrite <- Heq. destruct Hwhich as [-> | ->];
          [left; reflexivity | right; left; reflexivity].
      * right; right; exact Hin.
    + assert (Hmax : (m <= fold_left (fun m x => if Qgt_bool x m then x else m) rest m)%Q)
        by (apply Hle; left; reflexivity).
      intros x [<- | [<- | Hx]].
      * eapply Qle_trans; eassumption.
      * eapply Qle_trans; eassumption.
      * apply Hle. right; exact Hx.
Qed.

Lemma sorted_nth_le (l : list Q) (i j : nat) :
  StronglySorted Qle l -> (i <= j < List.length l)%nat ->
  (nth i l 0 <= nth j l 0)%Q.
Proof.
  intros Hsorted. revert i j.
  induction Hsorted as [|x l Hl IH Hx]; intros i j Hij; [simpl in Hij; lia |].
  destruct i as [|i], j as [|j]; simpl in *; try lia.
  - apply Qle_refl.
  - rewrite List.Forall_forall in Hx. apply Hx. apply nth_In. lia.
  - apply IH. lia.
Qed.

Lemma nearest_rank_index (window : list Q) (p : Q) :
  window <> [] ->
  (Nat.min (Z.to_nat (Qfloor (inject_Z (Z.of_nat (List.length (sorted window))) * p)))
           (List.length (sorted window) - 1)
   < List.length (sorted window))%nat.
Proof.
  intros Hne. rewrite sorted_length.
  destruct window; [congruence | simpl; lia].
Qed.

Lemma nearest_rank_In (window : list Q) (p : Q) :
  window <> [] -> In (nearest_rank window p) window.
Proof.
  intros Hne. unfold nearest_rank.
  eapply Permutation_in; [apply sorted_perm |].
  apply nth_In. apply nearest_rank_index. exact Hne.
Qed.

Lemma nearest_rank_monotone (window : list Q) (p q : Q) :
  window <> [] -> (0 <= p <= q)%Q ->
  (nearest_rank window p <= nearest_rank window q)%Q.
Proof.
  intros Hne [Hp Hpq]. unfold nearest_rank.
  apply sorted_nth_le; [apply sorted_sorted |].
  split; [| apply nearest_rank_index; exact Hne].
  apply Nat.min_le_compat_r. apply Z2Nat.inj_le.
  - apply Qfloor_nonneg. apply Qmult_le_0_compat; [| exact Hp].
    change 0%Q with (inject_Z 0). rewrite <- Zle_Qle. lia.
  - apply Qfloor_nonneg. apply Qmult_le_0_compat; [| lra].
    change 0%Q with (inject_Z 0). rewrite <- Zle_Qle. lia.
  - apply Qfloor_resp_le.
    set (n := inject_Z (Z.of_nat (List.length (sorted window)))).
    assert (Hn : (0 <= n)%Q)
      by (unfold n; change 0%Q with (inject_Z 0); rewrite <- Zle_Qle; lia).
    rewrite (Qmult_comm n p), (Qmult_comm n q).
    apply Qmult_le_compat_r; assumption.
Qed.

Lemma Qsum_bounds (data : list Q) (a b : Q) :
  (forall x, In x data -> (a <= x <= b)%Q) ->
  (Statistics.Qlen data * a <= Statistics.Qsum data
   <= Statistics.Qlen data * b)%Q.
Proof.
  intros Hab. unfold Statistics.Qlen, Statistics.Qsum.
  induction data as [|x data IH].
  - simpl. change (inject_Z (Z.of_nat 0)) with 0%Q. lra.
  - cbn [List.fold_right List.length].
    rewrite Nat2Z.inj_succ, <- Z.add_1_r, inject_Z_plus.
    change (inject_Z 1) with 1%Q.
    destruct (Hab x ltac:(left; reflexivity)) as [Hax Hxb].
    destruct IH as [IHa IHb]; [intros y Hy; apply Hab; right; exact Hy |].
    set (n := inject_Z (Z.of_nat (List.length data))) in *.
    set (rest := List.fold_right Qplus 0%Q data) in *.
    lra.
Qed.

Lemma mean_between (data : list Q) (a b : Q) :
  data <> [] ->
  (forall x, In x data -> (a <= x <= b)%Q) ->
  (a <= Statistics.mean data <= b)%Q.
Proof.
  intros Hne Hab. unfold Statistics.mean.
  assert (Hn : (0 < Statistics.Qlen data)%Q).
  { unfold Statistics.Qlen. change 0%Q with (inject_Z 0). rewrite <- Zlt_Qlt.
    destruct data; [congruence | simpl; lia]. }
  destruct (Qsum_bounds data a b Hab) as [Ha Hb].
  split.
  - apply Qle_shift_div_l; [exact Hn |]. rewrite Qmult_comm. exact Ha.
  - apply Qle_shift_div_r; [exact Hn |]. rewrite Qmult_comm. exact Hb.
Qed.

Lemma sorted_nth_bounds (data : list Q) (a b : Q) (i : nat) :
  (forall x, In x data -> (a <= x <= b)%Q) ->
  (i < List.length (sorted data))%nat ->
  (a <= nth i (sorted data) 0 <= b)%Q.
Proof.
  intros Hab Hi. apply Hab.
  eapply Permutation_in; [apply sorted_perm |]. apply nth_In. exact Hi.
Qed.

Lemma median_between (data : list Q) (a b m : Q) :
  (forall x, In x data -> (a <= x <= b)%Q) ->
  Statistics.median data = Return m ->
  (a <= m <= b)%Q.
Proof.
  intros Hab. unfold Statistics.median.
  set (n := Z.of_nat (List.length (sorted data))).
  destruct (n =? 0) eqn:H0; [discriminate |].
  apply Z.eqb_neq in H0.
  assert (Hn : 0 < n) by (unfold n in *; lia).
  destruct (n mod 2 =? 1) eqn:Hodd.
  - rewrite (py_getitem_nth _ _ 0%Q)
      by (fold n; split; [apply Z.div_pos; lia | apply Z.div_lt; lia]).
    intros [= <-]. apply sorted_nth_bounds; [exact Hab |].
    assert (n / 2 < n) by (apply Z.div_lt; lia).
    assert (0 <= n / 2) by (apply Z.div_pos; lia).
    unfold n in *. lia.
  - apply Z.eqb_neq in Hodd.
    assert (Hhalf : 1 <= n / 2 < n).
    { pose proof (Z.div_mod n 2 ltac:(lia)).
      pose proof (Z.mod_pos_bound n 2 ltac:(lia)). lia. }
    rewrite (py_getitem_nth _ _ 0%Q) by (fold n; lia).
    rewrite (py_getitem_nth _ _ 0%Q) by (fold n; lia).
    simpl. intros [= <-].
    assert (Hlo : (a <= nth (Z.to_nat (n / 2 - 1)) (sorted data) 0 <= b)%Q)
      by (apply sorted_nth_bounds; [exact Hab | unfold n in *; lia]).
    assert (Hhi : (a <= nth (Z.to_nat (n / 2)) (sorted data) 0 <= b)%Q)
      by (apply sorted_nth_bounds; [exact Hab | unfold n in *; lia]).
    set (lo := nth (Z.to_nat (n / 2 - 1)) (sorted data) 0%Q) in *.
    set (hi := nth (Z.to_nat (n / 2)) (sorted data) 0%Q) in *.
    split.
    + apply Qle_shift_div_l; [reflexivity | lra].
    + apply Qle_shift_div_r; [reflexivity | lra].
Qed.

(** X14: the statistics are consistent with one another.  For a metric
    whose window holds a sample, ['min'] and ['max'] are the smallest and
    the largest value of the window, ['p95'] and ['p99'] are values of the
    window with [min <= p95 <= p99 <= max], and ['mean'] and ['median'] lie
    between ['min'] and ['max']. *)
Theorem get_stats_ordered
    (self : MetricsCollector) (name : string) (values : list Q) :
  metrics self !! name = Some values -> values <> [] ->
  exists st,
    get_stats self name = Return (Some st)
    /\ In (min st) values /\ In (max st) values
    /\ (forall x, In x values -> (min st <= x <= max st)%Q)
    /\ In (p95 st) values /\ In (p99 st) values
    /\ (min st <= p95 st)%Q /\ (p95 st <= p99 st)%Q /\ (p99 st <= max st)%Q
    /\ (min st <= mean st <= max st)%Q
    /\ (min st <= median st <= max st)%Q.
Proof.
  intros Hlookup Hne.
  destruct values as [|first rest] eqn:Hvalues; [congruence |].
  rewrite <- Hvalues in *.
  destruct (median_returns values Hne) as [med Hmed].
  assert (Hstats :
    get_stats self name
    = Return (Some (mkStats (Statistics.mean values) med
                      (py_min first rest) (py_max first rest)
                      (if (1 <? List.length values)%nat
                       then Statistics.stdev values else 0%R)
                      (List.length values)
                      (nearest_rank values (95 # 100))
                      (nearest_rank values (99 # 100))))).
  { unfold get_stats. rewrite Hlookup, Hvalues. rewrite <- Hvalues.
    rewrite Hmed.
    rewrite !percentile_nearest_rank by (assumption || discriminate).
    reflexivity. }
  eexists. split; [exact Hstats |]. cbn [min max p95 p99 mean median].
  destruct (py_min_spec first rest) as [Hmin_in Hmin_le].
  destruct (py_max_spec first rest) as [Hmax_in Hmax_le].
  rewrite <- Hvalues in Hmin_in, Hmin_le, Hmax_in, Hmax_le.
  assert (Hbounds : forall x, In x values ->
                              (py_min first rest <= x <= py_max first rest)%Q)
    by (intros x Hx; split; [apply Hmin_le | apply Hmax_le]; exact Hx).
  pose proof (nearest_rank_In values (95 # 100) Hne) as H95.
  pose proof (nearest_rank_In values (99 # 100) Hne) as H99.
  split; [exact Hmin_in |]. split; [exact Hmax_in |]. split; [exact Hbounds |].
  split; [exact H95 |]. split; [exact H99 |].
  split; [apply Hbounds, H95 |].
  split; [apply nearest_rank_monotone; [exact Hne | split; discriminate] |].
  split; [apply Hbounds, H99 |].
  split; [apply mean_between; assumption |].
  eapply median_between; eassumption.
Qed.

End OrderStatistics.

Section SummaryFacts.
Import Metrics.

(** X15: [get_recent(name, n)] returns the last [n] values of the window
    for a positive [n] (all of them if there are fewer), the empty list
    for a name never recorded, and, because [values[-0:]] is the whole
    list, the whole window for [n = 0]. *)
Theorem get_recent_last_values (self : MetricsCollector) (name : string) (n : Z) :
  (0 < n -> get_recent self name n = last_n (Z.to_nat n) (window self name))
  /\ get_recent self name 0 = window self name
  /\ (metrics self !! name = None -> get_recent self name n = []).
Proof.
  unfold get_recent, window, last_n.
  destruct (metrics self !! name) as [values|].
  - split; [| split; [| discriminate]].
    + intros Hn. destruct (0 <? n) eqn:Hpos; [| apply Z.ltb_ge in Hpos; lia].
      f_equal. lia.
    + simpl. rewrite Z.min_r by lia. reflexivity.
  - split; [intros _; destruct (Z.to_nat n); reflexivity |].
    split; reflexivity.
Qed.

Lemma get_stats_returns (self : MetricsCollector) (name : string) :
  get_stats self name = Return (stats_of self name).
Proof.
  unfold stats_of.
  destruct (metrics self !! name) as [values|] eqn:Hlookup.
  - destruct values as [|v values].
    + unfold get_stats. rewrite Hlookup. reflexivity.
    + destruct (get_stats_nonempty self name (v :: values) Hlookup ltac:(discriminate))
        as (st & -> & _). reflexivity.
  - unfold get_stats. rewrite Hlookup. reflexivity.
Qed.

Lemma stats_of_unknown (self : MetricsCollector) (name : string) :
  metrics self !! name = None -> stats_of self name = None.
Proof. intros Hlookup. unfold stats_of, get_stats. rewrite Hlookup. reflexivity. Qed.

(** X16: what [get_summary] reports.  Whenever [get_summary] returns, its
    summary holds for every name exactly what [get_stats] returns for it
    (no entry for a name that is unknown or whose window is empty), next
    to the counters as they stand and the time elapsed since construction
    or the last [reset]; and it raises only with an exception that
    [get_stats] raises for a recorded name.  (On windows of floats
    [get_stats] can raise; the exact numbers of this model do not show
    that.) *)
Theorem get_summary_lists_get_stats (self : MetricsCollector) (now : Q) :
  match get_summary self now with
  | Return summary =>
      uptime_seconds summary = (now - start_time self)%Q
      /\ summary_counters summary = counters self
      /\ forall name,
           get_stats self name = Return (summary_metrics summary !! name)
  | Raise exc =>
      exists name, metrics self !! name <> None /\ get_stats self name = Raise exc
  end.
Proof.
  unfold get_summary.
  set (step := fun (name : string) (_ : list Q) (acc : py (gmap string Stats)) =>
                 acc ← acc;
                 stats ← get_stats self name;
                 Return (match stats with
                         | Some st => <[name := st]> acc
                         | None => acc
                         end)).
  assert (Hfold : exists all,
             map_fold step (Return ∅) (metrics self) = Return all
             /\ forall name,
                  all !! name
                  = match metrics self !! name with
                    | Some _ => stats_of self name
                    | None => None
                    end).
  { apply (map_fold_weak_ind
             (fun (r : py (gmap string Stats)) (m : gmap string (list Q)) =>
                exists all,
                  r = Return all
                  /\ forall name,
                       all !! name
                       = match m !! name with
                         | Some _ => stats_of self name
                         | None => None
                         end)).
    - exists ∅. split; [reflexivity |]. intros name.
      rewrite !lookup_empty. reflexivity.
    - intros i x m r Hfresh (all & -> & Hall).
      unfold step. cbn [mbind py_bind].
      rewrite (get_stats_returns self i). cbn [mbind py_bind].
      eexists. split; [reflexivity |]. intros name.
      destruct (decide (i = name)) as [-> | Hne].
      + rewrite lookup_insert_eq.
        destruct (stats_of self name) as [st|] eqn:Hst.
        * rewrite lookup_insert_eq. reflexivity.
        * rewrite Hall, Hfresh. reflexivity.
      + rewrite (lookup_insert_ne m) by exact Hne.
        destruct (stats_of self i).
        * rewrite lookup_insert_ne by exact Hne. apply Hall.
        * apply Hall. }
  destruct Hfold as (all & -> & Hall). cbn [mbind py_bind].
  cbn [uptime_seconds summary_counters summary_metrics].
  split; [reflexivity |]. split; [reflexivity |].
  intros name. rewrite get_stats_returns, Hall.
  destruct (metrics self !! name) eqn:Hlookup; [reflexivity |].
  rewrite (stats_of_unknown self name Hlookup). reflexivity.
Qed.


End SummaryFacts.

(** ** ThroughputTracker *)

Section ThroughputFacts.
Import ThroughputTracker.

Lemma drop_old_suffix (cutoff : Q) (ts : list Q) :
  exists dropped, ts = dropped ++ drop_old cutoff ts.
Proof.
  induction ts as [|t ts [dropped IH]]; [exists []; reflexivity |].
  simpl. destruct (Qgt_bool cutoff t).
  - exists (t :: dropped). simpl. f_equal. exact IH.
  - exists []. reflexivity.
Qed.

Lemma drop_old_head (cutoff : Q) (ts : list Q) (t : Q) (rest : list Q) :
  drop_old cutoff ts = t :: rest -> (cutoff <= t)%Q.
Proof.
  induction ts as [|u ts IH]; [discriminate |].
  simpl. destruct (Qgt_bool cutoff u) eqn:Hgt; [exact IH |].
  intros [= -> _]. apply Qgt_bool_false. exact Hgt.
Qed.

Lemma sorted_suffix (front back : list Q) :
  StronglySorted Qle (front ++ back) -> StronglySorted Qle back.
Proof.
  induction front as [|x front IH]; [exact (fun H => H) |].
  simpl. intros Hs. apply StronglySorted_inv in Hs. apply IH, Hs.
Qed.

Lemma sorted_snoc (ts : list Q) (now : Q) :
  StronglySorted Qle ts -> (forall t, In t ts -> (t <= now)%Q) ->
  StronglySorted Qle (ts ++ [now]).
Proof.
  induction 1 as [|x ts Hts IH Hx]; intros Hnow; simpl.
  - repeat constructor.
  - constructor.
    + apply IH. intros t Ht. apply Hnow. right; exact Ht.
    + apply List.Forall_app. split; [exact Hx |].
      constructor; [apply Hnow; left; reflexivity | constructor].
Qed.

(** X17: the throughput window under a clock that does not run
    backwards.  If the timestamps held are in ascending order and none
    lies after [now], then after [record_event] at [now] they are still in
    ascending order, they are the most recent ones (a suffix of the old
    ones followed by [now]), each lies within [window_seconds] before
    [now], and [now] itself is among them unless the window is negative. *)
Theorem record_event_keeps_window (self : ThroughputTracker) (now : Q) :
  StronglySorted Qle (timestamps self) ->
  (forall t, In t (timestamps self) -> (t <= now)%Q) ->
  let after := timestamps (record_event self now) in
  StronglySorted Qle after
  /\ (exists dropped, timestamps self ++ [now] = dropped ++ after)
  /\ (forall t, In t after ->
        (now - inject_Z (window_seconds self) <= t <= now)%Q)
  /\ (0 <= window_seconds self -> In now after).
Proof.
  intros Hsorted Hpast. cbv zeta. unfold record_event. cbn [timestamps].
  set (cutoff := (now - inject_Z (window_seconds self))%Q).
  set (all := timestamps self ++ [now]).
  assert (Hall : StronglySorted Qle all) by (apply sorted_snoc; assumption).
  destruct (drop_old_suffix cutoff all) as [dropped Hsplit].
  assert (Hkept : StronglySorted Qle (drop_old cutoff all)).
  { apply (sorted_suffix dropped). rewrite <- Hsplit. exact Hall. }
  assert (Hin_all : forall t, In t (drop_old cutoff all) -> In t all).
  { intros t Ht. rewrite Hsplit. apply List.in_or_app. right; exact Ht. }
  split; [exact Hkept |]. split; [exists dropped; exact Hsplit |]. split.
  - intros t Ht. split.
    + destruct (drop_old cutoff all) as [|u rest] eqn:Hdrop; [destruct Ht |].
      pose proof (drop_old_head cutoff all u rest Hdrop) as Hu.
      destruct Ht as [<- | Ht]; [exact Hu |].
      apply StronglySorted_inv in Hkept. destruct Hkept as [_ Hrest].
      rewrite List.Forall_forall in Hrest.
      eapply Qle_trans; [exact Hu | apply Hrest, Ht].
    + apply Hin_all in Ht. unfold all in Ht.
      apply List.in_app_or in Ht. destruct Ht as [Ht | [<- | []]];
        [apply Hpast, Ht | apply Qle_refl].
  - intros Hwindow.
    assert (Hcut : (cutoff <= now)%Q).
    { unfold cutoff.
      assert (0 <= inject_Z (window_seconds self))%Q
        by (change 0%Q with (inject_Z 0); rewrite <- Zle_Qle; exact Hwindow).
      lra. }
    unfold all. clear - Hcut.
    induction (timestamps self) as [|t ts IH]; simpl.
    + destruct (Qgt_bool cutoff now) eqn:Hgt; [| left; reflexivity].
      apply Qgt_bool_true in Hgt. lra.
    + destruct (Qgt_bool cutoff t); [exact IH |].
      right. apply List.in_or_app. right. left. reflexivity.
Qed.

(** The rate is never negative, and is 0 as long as fewer than two
    events are held. *)
Theorem get_rate_nonnegative (self : ThroughputTracker) (now : Q) :
  (0 <= get_rate self now)%Q
  /\ ((List.length (timestamps self) < 2)%nat -> get_rate self now = 0%Q).
Proof.
  unfold get_rate.
  destruct (timestamps self) as [|first [|second rest]] eqn:Hts.
  - split; [apply Qle_refl | reflexivity].
  - split; [apply Qle_refl | reflexivity].
  - split; [| simpl; lia].
    destruct (Qgt_bool (now - first) 0) eqn:Hgt; [| apply Qle_refl].
    apply Qgt_bool_true in Hgt.
    apply Qle_shift_div_l; [exact Hgt |].
    rewrite Qmult_0_l. change 0%Q with (inject_Z 0). rewrite <- Zle_Qle. lia.
Qed.

End ThroughputFacts.

(** ** More on PipelineOrchestrator *)

Section OrchestratorMore.
Import Orchestrator.

Lemma degraded_same_collaborators (o o' : PipelineOrchestrator) :
  same_collaborators o o' -> degraded o' = degraded o.
Proof.
  intros (_ & Hasr & Htr & Htts & _). unfold degraded.
  rewrite Hasr, Htr, Htts. reflexivity.
Qed.

Lemma degraded_apply (self : PipelineOrchestrator) (op : Operation) :
  degraded (apply self op) = degraded self.
Proof.
  destruct op as [w audio_bytes lat | | source_lang target_lang |]; simpl.
  - apply degraded_same_collaborators, process_audio_same_collaborators.
  - reflexivity.
  - unfold degraded, update_languages, reset. simpl.
    destruct (asr self) as [[lang model|]|];
      destruct (translator self) as [[s t|s t]|];
      destruct (tts self) as [[model'|]|]; reflexivity.
  - unfold degraded, cleanup. simpl.
    destruct (asr self) as [[lang model|]|];
      destruct (translator self) as [[s t|s t]|];
      destruct (tts self) as [[model'|]|]; reflexivity.
Qed.

(** X18: degraded mode lasts as long as the pipeline.  Whatever sequence
    of [process_audio], [reset], [update_languages] and [cleanup] calls a
    pipeline goes through, it runs on a stand-in afterwards exactly if it
    did before: no real model is ever loaded later, and none is replaced
    by a stand-in. *)
Theorem degraded_mode_is_permanent
    (self : PipelineOrchestrator) (ops : list Operation) :
  degraded (apply_all self ops) = degraded self.
Proof.
  unfold apply_all. revert self.
  induction ops as [|op ops IH]; intros self; [reflexivity |].
  simpl. rewrite IH. apply degraded_apply.
Qed.

Lemma int16_samples_parity (n : nat) (audio_bytes : list byte) :
  (List.length audio_bytes <= n)%nat ->
  (Nat.even (List.length audio_bytes) = true ->
   exists l, int16_samples audio_bytes = Some l
             /\ (2 * List.length l = List.length audio_bytes)%nat
             /\ forall x, In x l -> (- (1) <= x)%Q /\ (x < 1)%Q)
  /\ (Nat.even (List.length audio_bytes) = false ->
      int16_samples audio_bytes = None).
Proof.
  revert audio_bytes. induction n as [|n IH]; intros audio_bytes Hlen.
  - destruct audio_bytes; [| simpl in Hlen; lia].
    split; [| discriminate]. intros _. exists [].
    split; [reflexivity |]. split; [reflexivity |]. intros x [].
  - destruct audio_bytes as [|lo [|hi rest]].
    + split; [| discriminate]. intros _. exists [].
      split; [reflexivity |]. split; [reflexivity |]. intros x [].
    + split; [discriminate | reflexivity].
    + assert (Hrest : (List.length rest <= n)%nat) by (simpl in Hlen; lia).
      destruct (IH rest Hrest) as [Heven Hodd].
      change (Nat.even (List.length (lo :: hi :: rest)))
        with (Nat.even (List.length rest)).
      cbn [int16_samples]. split.
      * intros He. destruct (Heven He) as (l & -> & Hl & Hbound).
        eexists. split; [reflexivity |]. split; [simpl; lia |].
        intros x [<- | Hx]; [| apply Hbound, Hx].
        pose proof (Byte.to_N_bounded lo) as Hlo.
        pose proof (Byte.to_N_bounded hi) as Hhi.
        set (u := Z.of_N (Byte.to_N lo) + 256 * Z.of_N (Byte.to_N hi)).
        assert (Hu : 0 <= u <= 65535) by (unfold u; lia).
        destruct (u <? 32768) eqn:Hsign.
        -- apply Z.ltb_lt in Hsign. unfold Qle, Qlt. simpl. lia.
        -- apply Z.ltb_ge in Hsign. unfold Qle, Qlt. simpl. lia.
      * intros Ho. rewrite (Hodd Ho). reflexivity.
Qed.

Lemma bytes_to_array_odd (audio_bytes : list byte) :
  Nat.even (List.length audio_bytes) = false ->
  bytes_to_array audio_bytes = None.
Proof.
  intros Ho.
  destruct (int16_samples_parity (List.length audio_bytes) audio_bytes (le_n _))
    as [_ Hodd].
  unfold bytes_to_array. rewrite (Hodd Ho). reflexivity.
Qed.

(** X19: [bytes_to_array] accepts exactly the buffers of even length.
    For those it returns a float32 array with one sample for every two
    bytes, each sample in the interval from -1 (included) to 1 (excluded);
    for a buffer of odd length it returns [None]. *)
Theorem bytes_to_array_even_length (audio_bytes : list byte) :
  (Nat.even (List.length audio_bytes) = true ->
   exists audio_array,
     bytes_to_array audio_bytes = Some audio_array
     /\ is_float32 audio_array = true
     /\ (2 * List.length (samples audio_array) = List.length audio_bytes)%nat
     /\ forall x, In x (samples audio_array) -> (- (1) <= x)%Q /\ (x < 1)%Q)
  /\ (Nat.even (List.length audio_bytes) = false ->
      bytes_to_array audio_bytes = None).
Proof.
  destruct (int16_samples_parity (List.length audio_bytes) audio_bytes (le_n _))
    as [Heven Hodd].
  unfold bytes_to_array. split.
  - intros He. destruct (Heven He) as (l & -> & Hl & Hbound).
    eexists. split; [reflexivity |]. simpl. auto.
  - intros Ho. rewrite (Hodd Ho). reflexivity.
Qed.

(** X20: a chunk the pipeline cannot use is dropped without a trace.  If
    the pipeline is not ready, or the chunk is empty or has an odd number
    of bytes, [process_audio] returns [None] and leaves the pipeline,
    detector included, exactly as it was. *)
Theorem process_audio_drops_unusable_chunk
    (w : World) (self : PipelineOrchestrator) (audio_bytes : list byte)
    (lat : Latencies) :
  is_ready self = false \/ audio_bytes = []
  \/ Nat.even (List.length audio_bytes) = false ->
  process_audio w self audio_bytes lat = (self, None).
Proof.
  intros Hcases. unfold process_audio.
  destruct (is_ready self); [| reflexivity]. simpl.
  destruct Hcases as [Hready | [-> | Hodd]]; [discriminate | reflexivity |].
  rewrite (bytes_to_array_odd audio_bytes Hodd). reflexivity.
Qed.

End OrchestratorMore.

Section OrchestratorOutputs.
Import Orchestrator.

Lemma process_final_unfold `{SequenceMatcher}
    (self : Stabilizer.TextStabilizer) (new_text : string) :
  PyStr.truthy new_text = true ->
  exists incremental,
    Stabilizer.process self new_text true
    = (Stabilizer.mkStabilizer (Stabilizer.similarity_threshold self)
         (Stabilizer.min_stable_length self) new_text new_text 0,
       Stabilizer.mkResult new_text incremental 1 true None).
Proof.
  intros Htruthy. unfold Stabilizer.process. rewrite Htruthy.
  eexists. reflexivity.
Qed.

Lemma window_record_same (m : Metrics.MetricsCollector) (name : string) (v : Q) :
  Metrics.window (Metrics.record m name v) name
  = Metrics.deque_append (Metrics.window_size m) (Metrics.window m name) v.
Proof.
  unfold Metrics.window at 1.
  destruct (window_record m name v) as [-> _]. reflexivity.
Qed.

Lemma window_record_other (m : Metrics.MetricsCollector) (name other : string) (v : Q) :
  name <> other ->
  Metrics.window (Metrics.record m name v) other = Metrics.window m other.
Proof.
  intros Hne. unfold Metrics.window, Metrics.record. simpl.
  rewrite lookup_insert_ne by exact Hne. reflexivity.
Qed.

Ltac outputs_done :=
  repeat split; cbn; first [reflexivity | discriminate | intros; discriminate].

(** X21: no downstream stage leaves a trace unless a bundle comes back.
    [process_audio] never touches the phrase buffer; it records latencies
    in the metrics only on a call that returns a bundle; and on a call
    that returns [None] or a speech-activity status the stabilizer is
    untouched as well, the status carrying the measured VAD latency. *)
Theorem process_audio_traces
    (w : World) (self : PipelineOrchestrator) (audio_bytes : list byte)
    (lat : Latencies) :
  let self' := fst (process_audio w self audio_bytes lat) in
  let out := snd (process_audio w self audio_bytes lat) in
  phrase_buffer self' = phrase_buffer self
  /\ (is_bundle out = false -> metrics self' = metrics self)
  /\ (is_interim out = true -> stabilizer self' = stabilizer self)
  /\ (forall is_speech latency,
        out = Some (VadStatus is_speech latency) -> latency = vad_latency lat).
Proof.
  cbv zeta. unfold process_audio.
  destruct (negb (is_ready self)); [outputs_done |].
  destruct (bytes_to_array audio_bytes) as [audio_array|]; [| outputs_done].
  destruct (_ =? _)%nat; [outputs_done |].
  destruct (vad self) as [v|]; [| outputs_done].
  destruct (vad_process v audio_array) as [v' [is_speech [segment|]]].
  - unfold after_segment. cbn [asr with_vad config].
    destruct (asr self) as [engine|]; [| outputs_done].
    destruct (transcribe engine segment _) as [result | exc]; [| outputs_done].
    destruct (negb (PyStr.truthy (text result))); [outputs_done |].
    destruct (Stabilizer.process _ _ _) as [stab res].
    cbn [translator tts with_stabilizer with_vad config].
    destruct (translator self); [| outputs_done].
    destruct (tts self); [| outputs_done].
    destruct (SAMPLE_RATE (config self) =? 0); outputs_done.
  - cbn [fst snd]. repeat split; try discriminate.
    intros b l [= _ <-]. reflexivity.
Qed.

(** X22: what a bundle tells.  Whenever [process_audio] returns a result
    bundle, the bundle is marked final, its transcription is not empty
    and is what the stabilizer now holds as [stable_text] (with the
    counter at 0), its translation and audio are what the translator and
    the synthesizer of the pipeline make of that transcription, its
    languages are the configured ones, and the four latencies of the call
    have been appended to their metric windows. *)
Theorem process_audio_bundle
    (w : World) (self : PipelineOrchestrator) (audio_bytes : list byte)
    (lat : Latencies) (transcription translation : string)
    (audio : option (list byte)) (source target : string)
    (bundle_metrics : BundleMetrics) (final : bool) :
  snd (process_audio w self audio_bytes lat)
  = Some (Bundle transcription translation audio source target bundle_metrics final) ->
  let self' := fst (process_audio w self audio_bytes lat) in
  let recorded name value :=
    Metrics.window (metrics self') name
    = Metrics.deque_append (Metrics.window_size (metrics self))
        (Metrics.window (metrics self) name) value in
  final = true
  /\ transcription <> ""
  /\ Stabilizer.stable_text (stabilizer self') = transcription
  /\ Stabilizer.consecutive_stable_count (stabilizer self') = 0%nat
  /\ (exists tr synth,
        translator self = Some tr /\ tts self = Some synth
        /\ translation = translate w tr transcription
        /\ audio = synthesize w synth translation)
  /\ source = SOURCE_LANGUAGE (config self)
  /\ target = TARGET_LANGUAGE (config self)
  /\ total_latency_ms bundle_metrics = total_latency lat
  /\ recorded "pipeline_latency" (total_latency lat)
  /\ recorded "asr_latency" (asr_latency lat)
  /\ recorded "translation_latency" (translation_latency lat)
  /\ recorded "tts_latency" (tts_latency lat).
Proof.
  cbv zeta. unfold process_audio.
  destruct (negb (is_ready self)); [discriminate |].
  destruct (bytes_to_array audio_bytes) as [audio_array|]; [| discriminate].
  destruct (_ =? _)%nat; [discriminate |].
  destruct (vad self) as [v|]; [| discriminate].
  destruct (vad_process v audio_array) as [v' [is_speech [segment|]]];
    [| discriminate].
  unfold after_segment. cbn [asr with_vad config].
  destruct (asr self) as [engine|]; [| discriminate].
  destruct (transcribe engine segment _) as [result | exc]; [| discriminate].
  destruct (PyStr.truthy (text result)) eqn:Htext; [| discriminate].
  cbn [negb].
  destruct (process_final_unfold (stabilizer self) (text result) Htext)
    as [incremental Hproc].
  cbn [stabilizer with_vad]. rewrite Hproc.
  cbn [translator tts with_stabilizer with_vad config Stabilizer.r_stable_text].
  destruct (translator self) as [tr|]; [| discriminate].
  destruct (tts self) as [synth|]; [| discriminate].
  destruct (SAMPLE_RATE (config self) =? 0); [discriminate |].
  cbn [fst snd metrics with_metrics stabilizer].
  intros [= <- <- <- <- <- <- <-].
  split; [reflexivity |].
  split; [intros Hempty; rewrite Hempty in Htext; discriminate |].
  split; [reflexivity |]. split; [reflexivity |].
  split; [exists tr, synth; auto |].
  split; [reflexivity |]. split; [reflexivity |]. split; [reflexivity |].
  assert (Hsize : forall m name value,
            Metrics.window_size (Metrics.record m name value) = Metrics.window_size m)
    by reflexivity.
  repeat split.
  - rewrite !window_record_other by discriminate. apply window_record_same.
  - rewrite !window_record_other by discriminate.
    rewrite window_record_same, Hsize.
    rewrite window_record_other by discriminate. reflexivity.
  - rewrite window_record_other by discriminate.
    rewrite window_record_same, !Hsize.
    rewrite !window_record_other by discriminate. reflexivity.
  - rewrite window_record_same, !Hsize.
    rewrite !window_record_other by discriminate. reflexivity.
Qed.

End OrchestratorOutputs.

(** ** Concrete instances of the statements above *)

Section FurtherInstances.

Lemma record_and_increment_are_local_witness :
  "asr_latency"%string <> "tts_latency"%string
  /\ Metrics.get_stats (Metrics.record Samples.two_samples "asr_latency" 5) "tts_latency"
     = Metrics.get_stats Samples.two_samples "tts_latency"
  /\ Metrics.counter (Metrics.increment Samples.two_samples "asr_latency" 2) "tts_latency"
     = Metrics.counter Samples.two_samples "tts_latency".
Proof.
  assert (Hne : "asr_latency"%string <> "tts_latency"%string) by discriminate.
  destruct (record_and_increment_are_local Samples.two_samples
              "asr_latency" "tts_latency" 5 2 Hne) as (Hstats & _ & _ & Hother & _).
  split; [exact Hne |]. split; [exact Hstats | exact Hother].
Defined.

Lemma get_stats_none_exactly_when_empty_witness :
  Metrics.window Samples.collector "asr_latency" = []
  /\ Metrics.get_stats Samples.collector "asr_latency" = Return None
  /\ Metrics.window Samples.two_samples "asr_latency" <> []
  /\ match Metrics.get_stats Samples.two_samples "asr_latency" with
     | Return (Some st) => Metrics.count st = 2%nat
     | Return None => False
     | Raise _ => True
     end.
Proof.
  assert (Hempty : Metrics.window Samples.collector "asr_latency" = [])
    by reflexivity.
  assert (Hlen : List.length (Metrics.window Samples.two_samples "asr_latency")
                 = 2%nat) by (vm_compute; reflexivity).
  assert (Hne : Metrics.window Samples.two_samples "asr_latency" <> []).
  { intros Hnil. rewrite Hnil in Hlen. discriminate Hlen. }
  destruct (get_stats_none_exactly_when_empty Samples.collector "asr_latency")
    as [Hnone _].
  destruct (get_stats_none_exactly_when_empty Samples.two_samples "asr_latency")
    as [_ Hsome].
  specialize (Hsome Hne). rewrite Hlen in Hsome.
  split; [exact Hempty |]. split; [exact (Hnone Hempty) |].
  split; [exact Hne | exact Hsome].
Defined.

Lemma get_stats_ordered_witness :
  Metrics.metrics Samples.two_samples !! "asr_latency"%string = Some [1; 3]%Q
  /\ [1; 3]%Q <> []
  /\ exists st,
       Metrics.get_stats Samples.two_samples "asr_latency" = Return (Some st)
       /\ (Metrics.min st <= Metrics.p95 st)%Q
       /\ (Metrics.p95 st <= Metrics.p99 st)%Q
       /\ (Metrics.p99 st <= Metrics.max st)%Q
       /\ (Metrics.min st <= Metrics.mean st <= Metrics.max st)%Q
       /\ (Metrics.min st <= Metrics.median st <= Metrics.max st)%Q.
Proof.
  assert (Hlookup : Metrics.metrics Samples.two_samples !! "asr_latency"%string
                    = Some [1; 3]%Q) by (vm_compute; reflexivity).
  assert (Hne : [1; 3]%Q <> []) by discriminate.
  destruct (get_stats_ordered Samples.two_samples "asr_latency" [1; 3]%Q Hlookup Hne)
    as (st & Hst & _ & _ & _ & _ & _ & H1 & H2 & H3 & H4 & H5).
  split; [exact Hlookup |]. split; [exact Hne |].
  exists st. auto 8.
Defined.

Lemma get_recent_last_values_witness :
  0 < 1
  /\ Metrics.get_recent Samples.two_samples "asr_latency" 1 = [3]%Q
  /\ Metrics.metrics Samples.collector !! "asr_latency"%string = None
  /\ Metrics.get_recent Samples.collector "asr_latency" 1 = [].
Proof.
  assert (Hpos : 0 < 1) by lia.
  assert (Hnone : Metrics.metrics Samples.collector !! "asr_latency"%string = None)
    by (vm_compute; reflexivity).
  destruct (get_recent_last_values Samples.two_samples "asr_latency" 1) as (Hlast & _ & _).
  destruct (get_recent_last_values Samples.collector "asr_latency" 1) as (_ & _ & Hempty).
  split; [exact Hpos |].
  split; [rewrite (Hlast Hpos); vm_compute; reflexivity |].
  split; [exact Hnone | exact (Hempty Hnone)].
Defined.

Lemma record_event_keeps_window_witness :
  let after :=
    ThroughputTracker.timestamps
      (ThroughputTracker.record_event Samples.busy_tracker 70) in
  StronglySorted Qle (ThroughputTracker.timestamps Samples.busy_tracker)
  /\ (forall t, In t (ThroughputTracker.timestamps Samples.busy_tracker) -> (t <= 70)%Q)
  /\ 0 <= ThroughputTracker.window_seconds Samples.busy_tracker
  /\ after = [30; 59; 70]%Q
  /\ StronglySorted Qle after
  /\ (forall t, In t after -> (70 - 60 <= t <= 70)%Q)
  /\ In 70%Q after.
Proof.
  intros after.
  assert (Hts : ThroughputTracker.timestamps Samples.busy_tracker = [0; 30; 59]%Q)
    by (vm_compute; reflexivity).
  assert (Hsorted : StronglySorted Qle
                      (ThroughputTracker.timestamps Samples.busy_tracker)).
  { rewrite Hts. repeat constructor; unfold Qle; simpl; lia. }
  assert (Hpast : forall t,
            In t (ThroughputTracker.timestamps Samples.busy_tracker) -> (t <= 70)%Q).
  { rewrite Hts. intros t [<- | [<- | [<- | []]]]; unfold Qle; simpl; lia. }
  assert (Hwindow : 0 <= ThroughputTracker.window_seconds Samples.busy_tracker)
    by (vm_compute; discriminate).
  destruct (record_event_keeps_window Samples.busy_tracker 70 Hsorted Hpast)
    as (Hafter & _ & Hwithin & Hnow).
  split; [exact Hsorted |]. split; [exact Hpast |]. split; [exact Hwindow |].
  split; [vm_compute; reflexivity |].
  split; [exact Hafter |]. split; [exact Hwithin | exact (Hnow Hwindow)].
Defined.

Lemma get_rate_nonnegative_witness :
  let once := ThroughputTracker.record_event (ThroughputTracker.init 60) 5 in
  (List.length (ThroughputTracker.timestamps once) < 2)%nat
  /\ ThroughputTracker.get_rate once 9 = 0%Q
  /\ (0 <= ThroughputTracker.get_rate Samples.busy_tracker 70)%Q.
Proof.
  intros once.
  assert (Hfew : (List.length (ThroughputTracker.timestamps once) < 2)%nat)
    by (vm_compute; lia).
  destruct (get_rate_nonnegative once 9) as [_ Hzero].
  destruct (get_rate_nonnegative Samples.busy_tracker 70) as [Hpos _].
  split; [exact Hfew |]. split; [exact (Hzero Hfew) | exact Hpos].
Defined.

Lemma bytes_to_array_even_length_witness :
  Nat.even (List.length Samples.loud_bytes) = true
  /\ (exists audio_array,
        Orchestrator.bytes_to_array Samples.loud_bytes = Some audio_array
        /\ (2 * List.length (samples audio_array)
            = List.length Samples.loud_bytes)%nat)
  /\ Nat.even (List.length [Byte.x01; Byte.x02; Byte.x03]) = false
  /\ Orchestrator.bytes_to_array [Byte.x01; Byte.x02; Byte.x03] = None.
Proof.
  assert (Heven : Nat.even (List.length Samples.loud_bytes) = true)
    by (vm_compute; reflexivity).
  assert (Hodd : Nat.even (List.length [Byte.x01; Byte.x02; Byte.x03]) = false)
    by reflexivity.
  destruct (bytes_to_array_even_length Samples.loud_bytes) as [Hsome _].
  destruct (bytes_to_array_even_length [Byte.x01; Byte.x02; Byte.x03]) as [_ Hnone].
  destruct (Hsome Heven) as (audio_array & Harray & _ & Hlen & _).
  split; [exact Heven |].
  split; [exists audio_array; split; [exact Harray | exact Hlen] |].
  split; [exact Hodd | exact (Hnone Hodd)].
Defined.

Lemma process_audio_drops_unusable_chunk_witness :
  let fresh := Orchestrator.init Samples.default_config 0 in
  Orchestrator.is_ready fresh = false
  /\ Orchestrator.process_audio Samples.healthy_world fresh Samples.loud_bytes
       Samples.latencies
     = (fresh, None)
  /\ Nat.even (List.length [Byte.x01; Byte.x02; Byte.x03]) = false
  /\ Orchestrator.process_audio Samples.healthy_world Samples.healthy_pipeline
       [Byte.x01; Byte.x02; Byte.x03] Samples.latencies
     = (Samples.healthy_pipeline, None).
Proof.
  intros fresh.
  assert (Hfresh : Orchestrator.is_ready fresh = false) by reflexivity.
  assert (Hodd : Nat.even (List.length [Byte.x01; Byte.x02; Byte.x03]) = false)
    by reflexivity.
  split; [exact Hfresh |].
  split.
  - apply process_audio_drops_unusable_chunk. left. exact Hfresh.
  - split; [exact Hodd |].
    apply process_audio_drops_unusable_chunk. right. right. exact Hodd.
Defined.

Lemma process_audio_traces_witness :
  let out :=
    Orchestrator.process_audio Samples.healthy_world Samples.healthy_pipeline
      Samples.loud_bytes Samples.latencies in
  snd out = Some (Orchestrator.VadStatus true 1)
  /\ Orchestrator.is_bundle (snd out) = false
  /\ Orchestrator.is_interim (snd out) = true
  /\ Orchestrator.metrics (fst out) = Orchestrator.metrics Samples.healthy_pipeline
  /\ Orchestrator.stabilizer (fst out)
     = Orchestrator.stabilizer Samples.healthy_pipeline.
Proof.
  intros out.
  assert (Hout : snd out = Some (Orchestrator.VadStatus true 1))
    by (vm_compute; reflexivity).
  assert (Hbundle : Orchestrator.is_bundle (snd out) = false)
    by (rewrite Hout; reflexivity).
  assert (Hinterim : Orchestrator.is_interim (snd out) = true)
    by (rewrite Hout; reflexivity).
  destruct (process_audio_traces Samples.healthy_world Samples.healthy_pipeline
              Samples.loud_bytes Samples.latencies) as (_ & Hmetrics & Hstab & _).
  split; [exact Hout |]. split; [exact Hbundle |]. split; [exact Hinterim |].
  split; [exact (Hmetrics Hbundle) | exact (Hstab Hinterim)].
Defined.

Lemma process_audio_bundle_witness :
  let speaking :=
    Orchestrator.feed Samples.healthy_world Samples.healthy_pipeline
      Samples.utterance_bytes Samples.latencies in
  let out :=
    Orchestrator.process_audio Samples.healthy_world speaking
      Samples.quiet_bytes Samples.latencies in
  snd out
  = Some (Orchestrator.Bundle "hello" "hola"
            (Some [Byte.x52; Byte.x49; Byte.x46; Byte.x46]) "en" "es"
            Samples.bundle_metrics true)
  /\ Stabilizer.stable_text (Orchestrator.stabilizer (fst out)) = "hello"%string
  /\ Metrics.window (Orchestrator.metrics (fst out)) "pipeline_latency" = [251]%Q.
Proof.
  intros speaking out.
  assert (Hout : snd out
                 = Some (Orchestrator.Bundle "hello" "hola"
                           (Some [Byte.x52; Byte.x49; Byte.x46; Byte.x46]) "en" "es"
                           Samples.bundle_metrics true))
    by (vm_compute; reflexivity).
  destruct (process_audio_bundle Samples.healthy_world speaking Samples.quiet_bytes
              Samples.latencies _ _ _ _ _ _ _ Hout)
    as (_ & _ & Hstable & _ & _ & _ & _ & _ & Hpipeline & _).
  split; [exact Hout |]. split; [exact Hstable |].
  fold out in Hpipeline. rewrite Hpipeline. vm_compute. reflexivity.
Defined.

End FurtherInstances.

(** ** Sessions: what lasts across calls *)

Section OrchestratorSessions.
Import Orchestrator.

Lemma is_ready_apply (self : PipelineOrchestrator) (op : Operation) :
  is_ready self = false -> is_ready (apply self op) = false.
Proof.
  intros Hready.
  destruct op as [w audio_bytes lat | | source_lang target_lang |]; simpl;
    try assumption; try reflexivity.
  destruct (process_audio_same_collaborators w self audio_bytes lat)
    as (_ & _ & _ & _ & Hsame).
  rewrite Hsame. exact Hready.
Qed.

Lemma is_ready_apply_all (self : PipelineOrchestrator) (ops : list Operation) :
  is_ready self = false -> is_ready (apply_all self ops) = false.
Proof.
  unfold apply_all. revert self.
  induction ops as [|op ops IH]; intros self Hready; [exact Hready |].
  simpl. apply IH, is_ready_apply, Hready.
Qed.

(** X23: [cleanup] is final.  After [cleanup], whatever [process_audio],
    [reset], [update_languages] and [cleanup] calls follow, the pipeline
    is not ready, and [process_audio] returns [None] for every chunk and
    changes nothing; none of these calls makes the pipeline ready again. *)
Theorem cleanup_is_final
    (self : PipelineOrchestrator) (ops : list Operation)
    (w : World) (audio_bytes : list byte) (lat : Latencies) :
  let closed := apply_all (cleanup self) ops in
  is_ready closed = false
  /\ process_audio w closed audio_bytes lat = (closed, None).
Proof.
  cbv zeta.
  assert (Hready : is_ready (apply_all (cleanup self) ops) = false)
    by (apply is_ready_apply_all; reflexivity).
  split; [exact Hready |].
  unfold process_audio. rewrite Hready. reflexivity.
Qed.

Lemma bundle_languages
    (w : World) (self : PipelineOrchestrator) (audio_bytes : list byte)
    (lat : Latencies) (transcription translation : string)
    (audio : option (list byte)) (source target : string)
    (bundle_metrics : BundleMetrics) (final : bool) :
  snd (process_audio w self audio_bytes lat)
  = Some (Bundle transcription translation audio source target bundle_metrics final) ->
  source = SOURCE_LANGUAGE (config self)
  /\ target = TARGET_LANGUAGE (config self)
  /\ (exists tr, translator self = Some tr
                 /\ translation = translate w tr transcription)
  /\ (exists synth, tts self = Some synth
                    /\ audio = synthesize w synth translation).
Proof.
  unfold process_audio.
  destruct (negb (is_ready self)); [discriminate |].
  destruct (bytes_to_array audio_bytes) as [audio_array|]; [| discriminate].
  destruct (_ =? _)%nat; [discriminate |].
  destruct (vad self) as [v|]; [| discriminate].
  destruct (vad_process v audio_array) as [v' [is_speech [segment|]]];
    [| discriminate].
  unfold after_segment. cbn [asr with_vad config].
  destruct (asr self) as [engine|]; [| discriminate].
  destruct (transcribe engine segment _) as [result | exc]; [| discriminate].
  destruct (negb (PyStr.truthy (text result))); [discriminate |].
  destruct (Stabilizer.process _ _ _) as [stab res].
  cbn [translator tts with_stabilizer with_vad config].
  destruct (translator self) as [tr|]; [| discriminate].
  destruct (tts self) as [synth|]; [| discriminate].
  destruct (SAMPLE_RATE (config self) =? 0); [discriminate |].
  cbn [snd]. intros [= <- <- <- <- <- <- <-].
  split; [reflexivity |]. split; [reflexivity |].
  split; [exists tr | exists synth]; split; reflexivity.
Qed.

(** X24: a language switch lasts.  After [update_languages(source,
    target)], however many chunks are processed next, every result bundle
    carries the new source and target language, and its translation is
    what the pipeline's translator, set to the new pair, makes of the
    transcription: for the Argos translator, with Argos available and a
    transcription that is not blank, what Argos answers for the new pair,
    or the transcription itself if Argos raises. *)
Theorem update_languages_lasts
    (self : PipelineOrchestrator) (source_lang target_lang : string)
    (w : World) (chunks : list (list byte)) (audio_bytes : list byte)
    (lat : Latencies) (transcription translation : string)
    (audio : option (list byte)) (source target : string)
    (bundle_metrics : BundleMetrics) (final : bool) :
  let switched := feed w (update_languages self source_lang target_lang) chunks lat in
  snd (process_audio w switched audio_bytes lat)
  = Some (Bundle transcription translation audio source target bundle_metrics final) ->
  source = source_lang /\ target = target_lang
  /\ (exists old,
        translator self = Some old
        /\ translation
           = translate w (set_language_pair old source_lang target_lang)
               transcription)
  /\ (forall s t, translator self = Some (ArgosTranslator s t) ->
        ARGOS_AVAILABLE w = true ->
        PyStr.strip transcription <> "" ->
        translation
        = match argos_translate w transcription source_lang target_lang with
          | Return translated => translated
          | Raise _ => transcription
          end).
Proof.
  cbv zeta. intros Hout.
  destruct (bundle_languages _ _ _ _ _ _ _ _ _ _ _ Hout)
    as (Hsource & Htarget & (tr & Htr & Htranslation) & _).
  destruct (feed_same_collaborators w
              (update_languages self source_lang target_lang) chunks lat)
    as (Hcfg & _ & Htranslator & _).
  rewrite Hcfg in Hsource, Htarget. rewrite Htranslator in Htr.
  unfold update_languages, reset in Hsource, Htarget, Htr.
  cbn [config translator with_languages SOURCE_LANGUAGE TARGET_LANGUAGE]
    in Hsource, Htarget, Htr.
  split; [exact Hsource |]. split; [exact Htarget |].
  destruct (translator self) as [old|]; [| discriminate Htr].
  injection Htr as <-.
  split; [exists old; split; [reflexivity | exact Htranslation] |].
  intros s t [= ->] Havailable Hblank.
  rewrite Htranslation. unfold translate, set_language_pair.
  rewrite Havailable. cbn [negb].
  assert (Hne : transcription <> "").
  { intros ->. apply Hblank. reflexivity. }
  rewrite (truthy_nonempty _ Hne), (truthy_nonempty _ Hblank).
  reflexivity.
Qed.

Lemma update_languages_lasts_witness :
  let w := Samples.polyglot_world in
  let self := Orchestrator.initialize w (Orchestrator.init Samples.default_config 0) in
  let switched :=
    Orchestrator.feed w (Orchestrator.update_languages self "de" "fr")
      Samples.utterance_bytes Samples.latencies in
  snd (Orchestrator.process_audio w switched Samples.quiet_bytes Samples.latencies)
  = Some (Orchestrator.Bundle "hello" "hello (de to fr)"
            (Some [Byte.x52; Byte.x49; Byte.x46; Byte.x46]) "de" "fr"
            Samples.bundle_metrics true)
  /\ Orchestrator.translator self = Some (Orchestrator.ArgosTranslator "en" "es")
  /\ Orchestrator.ARGOS_AVAILABLE w = true
  /\ PyStr.strip "hello" <> ""
  /\ "hello (de to fr)"%string
     = match Orchestrator.argos_translate w "hello" "de" "fr" with
       | Return translated => translated
       | Raise _ => "hello"%string
       end.
Proof.
  intros w self switched.
  assert (Hout :
    snd (Orchestrator.process_audio w switched Samples.quiet_bytes Samples.latencies)
    = Some (Orchestrator.Bundle "hello" "hello (de to fr)"
              (Some [Byte.x52; Byte.x49; Byte.x46; Byte.x46]) "de" "fr"
              Samples.bundle_metrics true))
    by (vm_compute; reflexivity).
  assert (Hargos : Orchestrator.translator self
                   = Some (Orchestrator.ArgosTranslator "en" "es"))
    by reflexivity.
  assert (Havailable : Orchestrator.ARGOS_AVAILABLE w = true) by reflexivity.
  assert (Hblank : PyStr.strip "hello" <> "") by (vm_compute; discriminate).
  destruct (update_languages_lasts self "de" "fr" w Samples.utterance_bytes
              Samples.quiet_bytes Samples.latencies _ _ _ _ _ _ _ Hout)
    as (_ & _ & _ & Hpair).
  split; [exact Hout |]. split; [exact Hargos |]. split; [exact Havailable |].
  split; [exact Hblank |].
  exact (Hpair "en"%string "es"%string Hargos Havailable Hblank).
Defined.

(** X27: only the recognizer is ever replaced.  [Translator.initialize]
    and [TTSEngine.initialize] catch every exception themselves, so the
    orchestrator's fall-back to [MockTranslator] and [MockTTS] never
    fires: after [initialize] the translator is the Argos one and the
    synthesizer the Piper one, the pipeline runs on a stand-in exactly if
    Whisper failed to load, and when the Piper voice failed to load every
    later result bundle carries no audio. *)
Theorem only_the_recognizer_is_replaced
    (w : World) (self : PipelineOrchestrator)
    (setup : py unit) (model_file_exists : py bool)
    (load : py (string -> py (list byte))) :
  translator_initialize w = Translator_initialize (ARGOS_AVAILABLE w) setup ->
  tts_initialize w
  = TTSEngine_initialize (PIPER_AVAILABLE w) model_file_exists load ->
  let ready := initialize w self in
  translator ready
  = Some (ArgosTranslator (SOURCE_LANGUAGE (config self))
            (TARGET_LANGUAGE (config self)))
  /\ (exists model,
        tts ready = Some (TTSEngine model) /\ (raised load -> model = None))
  /\ (degraded ready = true <-> raised (whisper_load w))
  /\ (raised load ->
      forall (chunks : list (list byte)) (audio_bytes : list byte)
             (lat : Latencies) (transcription translation : string)
             (audio : option (list byte)) (source target : string)
             (bundle_metrics : BundleMetrics) (final : bool),
        snd (process_audio w (feed w ready chunks lat) audio_bytes lat)
        = Some (Bundle transcription translation audio source target
                  bundle_metrics final) ->
        audio = None).
Proof.
  intros Htranslator Htts. cbv zeta.
  assert (Htr : translator (initialize w self)
                = Some (ArgosTranslator (SOURCE_LANGUAGE (config self))
                          (TARGET_LANGUAGE (config self)))).
  { unfold initialize. cbn [translator]. rewrite Htranslator.
    unfold Translator_initialize.
    destruct (negb (ARGOS_AVAILABLE w)); [reflexivity |].
    destruct setup; reflexivity. }
  assert (Hsynth : exists model,
             tts (initialize w self) = Some (TTSEngine model)
             /\ (raised load -> model = None)).
  { unfold initialize. cbn [tts]. rewrite Htts. unfold TTSEngine_initialize.
    destruct (negb (PIPER_AVAILABLE w)); [exists None; auto |].
    destruct model_file_exists as [[|] | exc];
      [| exists None; auto | exists None; auto].
    destruct load as [voice | exc].
    - exists (Some voice). split; [reflexivity |]. intros [exc Hexc]. discriminate.
    - exists None. auto. }
  split; [exact Htr |]. split; [exact Hsynth |].
  destruct Hsynth as (model & Hmodel & Hnone).
  split.
  - unfold degraded. rewrite Htr, Hmodel. unfold initialize. cbn [asr].
    destruct (whisper_load w) as [whisper | exc]; simpl.
    + split; [discriminate | intros [exc Hexc]; discriminate].
    + split; [intros _; exists exc; reflexivity | reflexivity].
  - intros Hraised chunks audio_bytes lat transcription translation audio
           source target bundle_metrics final Hout.
    destruct (bundle_languages _ _ _ _ _ _ _ _ _ _ _ Hout)
      as (_ & _ & _ & synth & Hsynth & Haudio).
    destruct (feed_same_collaborators w (initialize w self) chunks lat)
      as (_ & _ & _ & Hsame & _).
    rewrite Hsame, Hmodel in Hsynth. injection Hsynth as <-.
    rewrite (Hnone Hraised) in Haudio. exact Haudio.
Qed.

Lemma only_the_recognizer_is_replaced_witness :
  let w := Samples.failing_world in
  let ready := Orchestrator.initialize w (Orchestrator.init Samples.default_config 0) in
  let speaking :=
    Orchestrator.feed w ready Samples.utterance_bytes Samples.latencies in
  Orchestrator.translator_initialize w
  = Orchestrator.Translator_initialize (Orchestrator.ARGOS_AVAILABLE w)
      (Raise "argos: package index unreachable")
  /\ Orchestrator.tts_initialize w
     = Orchestrator.TTSEngine_initialize (Orchestrator.PIPER_AVAILABLE w)
         (Return true) (Raise "piper: voice not found")
  /\ Orchestrator.translator ready = Some (Orchestrator.ArgosTranslator "en" "es")
  /\ Orchestrator.tts ready = Some (Orchestrator.TTSEngine None)
  /\ Orchestrator.degraded ready = true
  /\ snd (Orchestrator.process_audio w speaking Samples.quiet_bytes Samples.latencies)
     = Some (Orchestrator.Bundle "[Mock transcription]" "[Mock transcription]"
               None "en" "es" Samples.bundle_metrics true).
Proof.
  intros w ready speaking.
  assert (Htranslator :
    Orchestrator.translator_initialize w
    = Orchestrator.Translator_initialize (Orchestrator.ARGOS_AVAILABLE w)
        (Raise "argos: package index unreachable")) by reflexivity.
  assert (Htts :
    Orchestrator.tts_initialize w
    = Orchestrator.TTSEngine_initialize (Orchestrator.PIPER_AVAILABLE w)
        (Return true) (Raise "piper: voice not found")) by reflexivity.
  assert (Hraised : Orchestrator.raised (Orchestrator.whisper_load w))
    by (eexists; reflexivity).
  destruct (only_the_recognizer_is_replaced w
              (Orchestrator.init Samples.default_config 0) _ _ _ Htranslator Htts)
    as (Htr & _ & Hdegraded & _).
  split; [exact Htranslator |]. split; [exact Htts |].
  split; [exact Htr |]. split; [reflexivity |].
  split; [apply Hdegraded; exact Hraised |].
  vm_compute. reflexivity.
Defined.

End OrchestratorSessions.

(** ** The application: what reaches the client *)

Section MainFacts.
Import Main.

Lemma send_each_In (ws : WebSocket) (messages : list Message) (m : Message) :
  In m (send_each ws messages) -> In m messages.
Proof.
  induction messages as [|x messages IH]; simpl; [tauto |].
  destruct (delivers ws x); simpl; [| tauto].
  intros [-> | Hin]; [left; reflexivity | right; apply IH, Hin].
Qed.

Lemma send_each_all (ws : WebSocket) (messages : list Message) :
  (forall m, delivers ws m = true) -> send_each ws messages = messages.
Proof.
  intros Hall. induction messages as [|x messages IH]; simpl; [reflexivity |].
  rewrite Hall, IH. reflexivity.
Qed.

Lemma bundle_is_final
    (w : Orchestrator.World) (self : Orchestrator.PipelineOrchestrator)
    (audio_bytes : list byte) (lat : Orchestrator.Latencies)
    (transcription translation : string) (audio : option (list byte))
    (source target : string) (bundle_metrics : Orchestrator.BundleMetrics)
    (final : bool) :
  snd (Orchestrator.process_audio w self audio_bytes lat)
  = Some (Orchestrator.Bundle transcription translation audio source target
            bundle_metrics final) ->
  final = true /\ PyStr.truthy transcription = true.
Proof.
  unfold Orchestrator.process_audio.
  destruct (negb (Orchestrator.is_ready self)); [discriminate |].
  destruct (Orchestrator.bytes_to_array audio_bytes) as [audio_array|];
    [| discriminate].
  destruct (_ =? _)%nat; [discriminate |].
  destruct (Orchestrator.vad self) as [v|]; [| discriminate].
  destruct (Orchestrator.vad_process v audio_array) as [v' [is_speech [segment|]]];
    [| discriminate].
  unfold Orchestrator.after_segment.
  cbn [Orchestrator.asr Orchestrator.with_vad Orchestrator.config].
  destruct (Orchestrator.asr self) as [engine|]; [| discriminate].
  destruct (Orchestrator.transcribe engine segment _) as [result | exc];
    [| discriminate].
  destruct (PyStr.truthy (Orchestrator.text result)) eqn:Htext; [| discriminate].
  cbn [negb].
  destruct (process_final_unfold
              (Orchestrator.stabilizer (Orchestrator.with_vad self v'))
              (Orchestrator.text result) Htext) as [incremental Hproc].
  rewrite Hproc.
  cbn [Orchestrator.translator Orchestrator.tts Orchestrator.with_stabilizer
       Orchestrator.with_vad Orchestrator.config Stabilizer.r_stable_text].
  destruct (Orchestrator.translator self) as [tr|]; [| discriminate].
  destruct (Orchestrator.tts self) as [synth|]; [| discriminate].
  destruct (Orchestrator.SAMPLE_RATE (Orchestrator.config self) =? 0);
    [discriminate |].
  cbn [snd]. intros [= <- <- <- <- <- <- <-].
  split; [reflexivity | exact Htext].
Qed.

(** X28: what the client gets for a chunk.  With the pipeline in place,
    [process_audio_stream] never sends an error message; when the
    pipeline returns nothing or a processing error, the client gets
    nothing at all; a speech-activity status reaches the client as one
    metrics message that does not tell whether speech was detected; and
    on a connection on which every send succeeds a bundle arrives as its
    transcription, marked final, then the translation and the audio if
    they are not empty, then the metrics. *)
Theorem process_audio_stream_messages
    (ws : WebSocket) (w : Orchestrator.World) (app : App)
    (o : Orchestrator.PipelineOrchestrator) (audio_bytes : list byte)
    (lat : Orchestrator.Latencies) :
  orchestrator app = Some o ->
  let result := snd (Orchestrator.process_audio w o audio_bytes lat) in
  let sent := snd (process_audio_stream ws w app audio_bytes lat) in
  (forall message, ~ In (SendError message) sent)
  /\ (result = None \/ (exists error, result = Some (Orchestrator.ProcessingError error)) ->
      sent = [])
  /\ (forall is_speech latency,
        result = Some (Orchestrator.VadStatus is_speech latency) ->
        sent = [] \/ sent = [SendMetrics (VadMetrics latency)])
  /\ (forall transcription translation audio source target m final,
        result = Some (Orchestrator.Bundle transcription translation audio
                         source target m final) ->
        connected ws = true -> (forall message, delivers ws message = true) ->
        sent
        = SendTranscription transcription source true
          :: (if PyStr.truthy translation
              then [SendTranslation translation target] else [])
          ++ match audio with
             | Some (b :: rest) => [SendAudio (b :: rest)]
             | _ => []
             end
          ++ [SendMetrics (PipelineMetrics m)]).
Proof.
  intros Horch. cbv zeta. unfold process_audio_stream. rewrite Horch.
  pose proof (bundle_is_final w o audio_bytes lat) as Hfinal.
  destruct (Orchestrator.process_audio w o audio_bytes lat) as [o' result].
  cbn [snd] in *.
  destruct (connected ws) eqn:Hconnected; cbn [negb snd].
  - split.
    { intros message Hin. destruct result as [r|]; [| exact Hin].
      apply send_each_In in Hin.
      destruct r as [is_speech latency | tr tl audio s t m f | error]; simpl in Hin.
      - destruct Hin as [Hin | []]. discriminate Hin.
      - destruct (PyStr.truthy tr), (PyStr.truthy tl), audio as [[|b rest]|];
          simpl in Hin; intuition discriminate.
      - exact Hin. }
    split.
    { intros [-> | [error ->]]; reflexivity. }
    split.
    { intros is_speech latency ->. simpl.
      destruct (delivers ws _); [right | left]; reflexivity. }
    intros tr tl audio s t m f -> _ Hall.
    destruct (Hfinal tr tl audio s t m f eq_refl) as [-> Htruthy].
    rewrite send_each_all by exact Hall.
    simpl. rewrite Htruthy. reflexivity.
  - split; [intros message []|].
    split; [reflexivity |].
    split; [intros; left; reflexivity |].
    discriminate.
Qed.

Lemma process_audio_stream_messages_witness :
  orchestrator Samples.healthy_app = Some Samples.healthy_pipeline
  /\ snd (Orchestrator.process_audio Samples.healthy_world Samples.healthy_pipeline
            Samples.loud_bytes Samples.latencies)
     = Some (Orchestrator.VadStatus true 1)
  /\ snd (process_audio_stream Samples.open_socket Samples.healthy_world
            Samples.healthy_app Samples.loud_bytes Samples.latencies)
     = [SendMetrics (VadMetrics 1)].
Proof.
  assert (Horch : orchestrator Samples.healthy_app = Some Samples.healthy_pipeline)
    by reflexivity.
  assert (Hout : snd (Orchestrator.process_audio Samples.healthy_world
                        Samples.healthy_pipeline Samples.loud_bytes Samples.latencies)
                 = Some (Orchestrator.VadStatus true 1))
    by (vm_compute; reflexivity).
  destruct (process_audio_stream_messages Samples.open_socket Samples.healthy_world
              Samples.healthy_app Samples.healthy_pipeline Samples.loud_bytes
              Samples.latencies Horch) as (_ & _ & Hstatus & _).
  split; [exact Horch |]. split; [exact Hout |].
  vm_compute. reflexivity.
Defined.

(** X29: [POST /api/config] does not reach the translator.  The
    configuration object is shared with the orchestrator, so after the
    request every result bundle reports the new source and target
    language; its translation, however, is still what the translator as
    it was before the request makes of the transcription, for the old
    language pair. *)
Theorem update_config_leaves_translator
    (w : Orchestrator.World) (app : App)
    (o updated : Orchestrator.PipelineOrchestrator) (old : Orchestrator.Translator)
    (settings : Settings) (chunks : list (list byte)) (audio_bytes : list byte)
    (lat : Orchestrator.Latencies) (transcription translation : string)
    (audio : option (list byte)) (source target : string)
    (m : Orchestrator.BundleMetrics) (final : bool) :
  orchestrator app = Some o ->
  Orchestrator.translator o = Some old ->
  orchestrator (update_config app settings) = Some updated ->
  snd (Orchestrator.process_audio w (Orchestrator.feed w updated chunks lat)
         audio_bytes lat)
  = Some (Orchestrator.Bundle transcription translation audio source target m final) ->
  (forall l, source_language settings = Some l -> source = l)
  /\ (forall l, target_language settings = Some l -> target = l)
  /\ (source_language settings = None ->
      source = Orchestrator.SOURCE_LANGUAGE (config app))
  /\ (target_language settings = None ->
      target = Orchestrator.TARGET_LANGUAGE (config app))
  /\ translation = Orchestrator.translate w old transcription.
Proof.
  intros Horch Hold Hupdated Hout.
  destruct (bundle_languages _ _ _ _ _ _ _ _ _ _ _ Hout)
    as (Hsource & Htarget & (tr & Htr & Htranslation) & _).
  destruct (feed_same_collaborators w updated chunks lat)
    as (Hcfg & _ & Htranslator & _).
  rewrite Hcfg in Hsource, Htarget. rewrite Htranslator in Htr.
  unfold update_config in Hupdated. rewrite Horch in Hupdated.
  cbn [orchestrator option_map] in Hupdated. injection Hupdated as <-.
  cbn [with_config Orchestrator.config Orchestrator.translator
       Orchestrator.SOURCE_LANGUAGE Orchestrator.TARGET_LANGUAGE]
    in Hsource, Htarget, Htr.
  rewrite Hold in Htr. injection Htr as <-.
  split; [intros l Hl; rewrite Hl in Hsource; exact Hsource |].
  split; [intros l Hl; rewrite Hl in Htarget; exact Htarget |].
  split; [intros Hl; rewrite Hl in Hsource; exact Hsource |].
  split; [intros Hl; rewrite Hl in Htarget; exact Htarget |].
  exact Htranslation.
Qed.

Lemma update_config_leaves_translator_witness :
  let settings := mkSettings None (Some "fr"%string) None in
  let updated := with_config Samples.healthy_pipeline
                   (config (update_config Samples.healthy_app settings)) in
  orchestrator Samples.healthy_app = Some Samples.healthy_pipeline
  /\ Orchestrator.translator Samples.healthy_pipeline
     = Some (Orchestrator.ArgosTranslator "en" "es")
  /\ orchestrator (update_config Samples.healthy_app settings) = Some updated
  /\ snd (Orchestrator.process_audio Samples.healthy_world
            (Orchestrator.feed Samples.healthy_world updated
               Samples.utterance_bytes Samples.latencies)
            Samples.quiet_bytes Samples.latencies)
     = Some (Orchestrator.Bundle "hello"
               (Orchestrator.translate Samples.healthy_world
                  (Orchestrator.ArgosTranslator "en" "es") "hello")
               (Some [Byte.x52; Byte.x49; Byte.x46; Byte.x46]) "en" "fr"
               Samples.bundle_metrics true).
Proof.
  intros settings updated.
  assert (Horch : orchestrator Samples.healthy_app = Some Samples.healthy_pipeline)
    by reflexivity.
  assert (Hold : Orchestrator.translator Samples.healthy_pipeline
                 = Some (Orchestrator.ArgosTranslator "en" "es")) by reflexivity.
  assert (Hupdated : orchestrator (update_config Samples.healthy_app settings)
                     = Some updated) by reflexivity.
  assert (Hout :
    snd (Orchestrator.process_audio Samples.healthy_world
           (Orchestrator.feed Samples.healthy_world updated
              Samples.utterance_bytes Samples.latencies)
           Samples.quiet_bytes Samples.latencies)
    = Some (Orchestrator.Bundle "hello" "hola"
              (Some [Byte.x52; Byte.x49; Byte.x46; Byte.x46]) "en" "fr"
              Samples.bundle_metrics true))
    by (vm_compute; reflexivity).
  destruct (update_config_leaves_translator Samples.healthy_world Samples.healthy_app
              Samples.healthy_pipeline updated _ settings Samples.utterance_bytes
              Samples.quiet_bytes Samples.latencies _ _ _ _ _ _ _
              Horch Hold Hupdated Hout) as (_ & _ & _ & _ & Htranslation).
  split; [exact Horch |]. split; [exact Hold |]. split; [exact Hupdated |].
  rewrite <- Htranslation. exact Hout.
Defined.

Lemma get_summary_init (window_size : nat) (loaded now : Q) :
  Metrics.get_summary (Metrics.init window_size loaded) now
  = Return (Metrics.mkSummary (now - loaded) ∅ ∅).
Proof. unfold Metrics.get_summary, Metrics.init. simpl. reflexivity. Qed.

Lemma handle_metrics_collector (w : Orchestrator.World) (app : App)
    (request : Request) :
  metrics_collector (fst (handle w app request)) = metrics_collector app.
Proof.
  destruct request as [ws audio_bytes lat | ws msg_type now | settings]; simpl.
  - unfold process_audio_stream.
    destruct (negb (connected ws)); [reflexivity |].
    destruct (orchestrator app) as [o|]; [| reflexivity].
    destruct (Orchestrator.process_audio w o audio_bytes lat). reflexivity.
  - unfold handle_control_message.
    repeat (destruct (String.eqb msg_type _); [reflexivity |]). reflexivity.
  - reflexivity.
Qed.

Lemma handle_summary (w : Orchestrator.World) (app : App) (request : Request)
    (data : Metrics.Summary) :
  In (SendMetricsSummary data) (snd (handle w app request)) ->
  exists now, Metrics.get_summary (metrics_collector app) now = Return data.
Proof.
  destruct request as [ws audio_bytes lat | ws msg_type now | settings]; simpl.
  - unfold process_audio_stream.
    destruct (negb (connected ws)); [intros [] |].
    destruct (orchestrator app) as [o|].
    + destruct (Orchestrator.process_audio w o audio_bytes lat) as [o' [r|]];
        simpl; [| intros []].
      intros Hin. apply send_each_In in Hin.
      destruct r as [is_speech latency | tr tl audio s t m f | error]; simpl in Hin.
      * destruct Hin as [Hin | []]. discriminate Hin.
      * destruct (PyStr.truthy tr), (PyStr.truthy tl), audio as [[|b rest]|];
          simpl in Hin; intuition discriminate.
      * destruct Hin.
    + intros Hin. apply send_each_In in Hin.
      destruct Hin as [Hin | []]. discriminate Hin.
  - unfold handle_control_message.
    destruct (String.eqb msg_type "ping").
    { intros Hin. apply send_each_In in Hin.
      destruct Hin as [Hin | []]. discriminate Hin. }
    destruct (String.eqb msg_type "reset").
    { intros Hin. apply send_each_In in Hin.
      destruct Hin as [Hin | []]. discriminate Hin. }
    destruct (String.eqb msg_type "get_metrics"); [| intros []].
    cbn [snd]. destruct (Metrics.get_summary (metrics_collector app) now)
      as [summary | exc] eqn:Hsummary; [| intros []].
    intros Hin. apply send_each_In in Hin.
    destruct Hin as [[= ->] | []]. exists now. exact Hsummary.
  - intros [].
Qed.

(** X30: [get_metrics] reports nothing.  The collector the application
    answers [get_metrics] from is not the one the pipeline records its
    latencies in, and no request writes to it: whatever audio, control
    and configuration requests have been served since start-up, every
    metrics summary sent to a client has no metric and no counter. *)
Theorem get_metrics_reports_nothing
    (w : Orchestrator.World) (cfg : Orchestrator.Config) (loaded now : Q)
    (requests : list Request) (data : Metrics.Summary) :
  In (SendMetricsSummary data)
     (snd (serve w (startup_event w cfg loaded now) requests)) ->
  Metrics.summary_metrics data = ∅ /\ Metrics.summary_counters data = ∅.
Proof.
  assert (Hgeneral : forall app,
            metrics_collector app = Metrics.init 100 loaded ->
            In (SendMetricsSummary data) (snd (serve w app requests)) ->
            Metrics.summary_metrics data = ∅ /\ Metrics.summary_counters data = ∅).
  { induction requests as [|request requests IH]; intros app Hcollector;
      [intros [] |].
    cbn [serve].
    pose proof (handle_metrics_collector w app request) as Hsame.
    pose proof (handle_summary w app request data) as Hhandled.
    destruct (handle w app request) as [app' sent]. cbn [fst snd] in *.
    specialize (IH app').
    destruct (serve w app' requests) as [app'' more]. cbn [snd] in *.
    intros Hin. apply in_app_or in Hin. destruct Hin as [Hin | Hin].
    - destruct (Hhandled Hin) as [t Hsummary].
      rewrite Hcollector, get_summary_init in Hsummary.
      injection Hsummary as <-. split; reflexivity.
    - apply IH; [congruence | exact Hin]. }
  apply Hgeneral. reflexivity.
Qed.

Lemma get_metrics_reports_nothing_witness :
  let requests :=
    List.map (fun chunk => Audio Samples.open_socket chunk Samples.latencies)
      (Samples.utterance_bytes ++ [Samples.quiet_bytes])
    ++ [Control Samples.open_socket "get_metrics" 60] in
  let served := serve Samples.healthy_world Samples.healthy_app requests in
  let summary := Metrics.mkSummary 60 ∅ ∅ in
  In (SendMetricsSummary summary) (snd served)
  /\ Metrics.summary_metrics summary = ∅
  /\ option_map
       (fun o => Metrics.window (Orchestrator.metrics o) "pipeline_latency")
       (orchestrator (fst served))
     = Some [251]%Q.
Proof.
  intros requests served summary.
  assert (Hin : In (SendMetricsSummary summary) (snd served)).
  { vm_compute. repeat (first [left; reflexivity | right]). }
  destruct (get_metrics_reports_nothing Samples.healthy_world Samples.default_config
              0 0 requests summary Hin) as [Hmetrics _].
  split; [exact Hin |]. split; [exact Hmetrics |].
  vm_compute. reflexivity.
Defined.

End MainFacts.
